(** * Segmentation-guided blur pipeline: per-frame WebGPU orchestration

    A shallow embedding of the two renderers of the repository:

    - [Closure]: [webgpu-renderer.js], the closure-based renderer
      ([getTextureFormat], [getOrCreateResource], [getOrCreateTexture],
      [renderWithWebGPU], [createWebGPUBlurRenderer]);
    - [Class]: the class-based renderer [WebGPURenderer] (constructor,
      [getOrCreateResource], [getOrCreateTexture],
      [getOutputRendererFragmentShader], [segment], [render]).

    JavaScript objects are identified by numeric handles drawn from an
    allocation counter, the resource cache is a finite map from the template
    strings the code builds to the cached objects, and every call into the
    browser (WebGPU device, queue, canvas, segmenter, blur engine) is
    recorded as an event.  The browser is an oracle: any such call may throw
    (or its promise reject) and the CPU segmenter may answer with a mask of
    any size.  [async]/[await] are sequential here: one frame at a time. *)

From Stdlib Require Import ZArith NArith Lia Ascii.
From stdpp Require Import base gmap strings list pretty.

Local Open Scope N_scope.

(** ** JavaScript and WebGPU constants *)

(** [x || d] on numbers: [0] is falsy. *)
Definition js_or (x d : N) : N := if x =? 0 then d else x.

(** [Math.ceil(x / d)] for non-negative integers (the division by [8] is
    exact in double precision). *)
Definition Math_ceil_div (x d : N) : N :=
  if x mod d =? 0 then x / d else x / d + 1.

(** Flag values of the WebGPU API. *)
Module GPUTextureUsage.
Definition COPY_SRC : N := 1.
Definition COPY_DST : N := 2.
Definition TEXTURE_BINDING : N := 4.
Definition STORAGE_BINDING : N := 8.
Definition RENDER_ATTACHMENT : N := 16.
End GPUTextureUsage.

Module GPUBufferUsage.
Definition MAP_READ : N := 1.
Definition COPY_DST : N := 8.
End GPUBufferUsage.

Module GPUMapMode.
Definition READ : N := 1.
End GPUMapMode.

(** ** Objects *)

Record GPUTexture := mkTexture {
  tex_id : N;
  tex_width : N;
  tex_height : N;
  tex_format : string;
  tex_usage : N
}.

Record GPUBuffer := mkBuffer {
  buf_id : N;
  buf_size : N;
  buf_usage : N
}.

Record GPUTextureView := mkView {
  view_id : N;
  view_of : GPUTexture
}.

(** What the cache object holds under its string keys. *)
Inductive Resource :=
| RTexture (t : GPUTexture)
| RBuffer (b : GPUBuffer)
| RPipeline (p : N).

(** Pixel contents are not modelled, only the reported size. *)
Record ImageData := mkImageData {
  img_width : N;
  img_height : N
}.

(** [displayWidth] and [displayHeight] are [unsigned long] attributes;
    [duration] may be [null]. *)
Record VideoFrame := mkVideoFrame {
  displayWidth : N;
  displayHeight : N;
  timestamp : Z;
  duration : option Z
}.

(** The segmenter as the class-based renderer inspects it: whether the
    [segmentGPUBuffer] member is present (truthy) and the [deviceType]
    string. *)
Record Segmenter := mkSegmenter {
  segmentGPUBuffer : bool;
  deviceType : string
}.

(** The texture handed to the blur engine as its source: the imported
    external texture (zero copy) or the cached copy. *)
Inductive SourceTexture :=
| ExternalTexture (id : N)
| SourceTexture2D (t : GPUTexture).

Inductive BindingResource :=
| BindUndefined
| BindExternalTexture (id : N)
| BindTexture (t : GPUTexture)
| BindTextureView (v : GPUTextureView)
| BindSampler (id : N).

Inductive Exn :=
| ExternalError (at_time : nat)
| ReferenceError (ident : string)
| TypeError (msg : string)
| Error (msg : string).

Record ColorAttachment := mkColorAttachment {
  ca_view : GPUTextureView;
  ca_clearValue : N * N * N * N;
  ca_loadOp : string;
  ca_storeOp : string
}.

Record RenderPipelineDescriptor := mkRenderPipelineDescriptor {
  rp_layout : string;
  rp_vertexModule : N;
  rp_fragmentModule : N;
  rp_targetFormat : string;
  rp_topology : string
}.

(** Shader text is either written in the script or fetched from a URL and
    then has its [${name}] placeholders replaced. *)
Inductive ShaderSource :=
| InlineCode (code : string)
| FetchedCode (url : string) (substitution : list (string * string)).

(** ** Events: every call that leaves the renderer

    [DestroyCached] is the [texture.destroy()] of [getOrCreateTexture], on
    whatever value the cache held; [BufferDestroy] is the [destroy()] of a
    buffer the segmenter handed out. *)

Inductive Event :=
| ConsoleLog (msg arg : string)
| ConsoleWarn (msg : string) (err : Exn)
| NewOffscreenCanvas (w h : N)
| RequestAdapter
| RequestDevice (requiredFeatures : list string)
| GetContext
| ContextConfigure (format : string) (usage : N)
| CreateSampler (id : N)
| CreateShaderModule (code : ShaderSource) (id : N)
| CreateComputePipeline (module : N) (id : N)
| NewWebGPUBlur (zeroCopy directOutput : bool)
| BlurInit
| Fetch (url : string)
| AwaitPromise (name : string)
| ImportExternalTexture (frame : VideoFrame) (id : N)
| CreateTexture (t : GPUTexture)
| DestroyCached (r : Resource)
| CopyExternalImageToTexture (frame : VideoFrame) (dst : GPUTexture) (w h : N)
| GetBindGroupLayout (pipeline index layout : N)
| CreateView (v : GPUTextureView)
| CreateBindGroup (layout : N) (entries : list (N * BindingResource)) (id : N)
| CreateCommandEncoder (enc : N)
| BeginComputePass (enc pass : N)
| SetPipeline (pass pipeline : N)
| SetBindGroup (pass index : N) (group : option N)
| DispatchWorkgroups (pass x y : N)
| PassEnd (pass : N)
| CreateBuffer (b : GPUBuffer)
| BufferDestroy (buffer : N)
| CopyTextureToBuffer (enc : N) (src : GPUTexture) (dst : GPUBuffer)
    (bytesPerRow w h : N)
| CopyBufferToTexture (enc : N) (src : N) (bytesPerRow : N)
    (dst : GPUTexture) (w h : N)
| EncoderFinish (enc : N)
| QueueSubmit (enc : N)
| MapAsync (b : GPUBuffer) (mode : N)
| NewImageData (w h : N)
| GetMappedRange (b : GPUBuffer)
| ImageDataSet (img : ImageData)
| Unmap (b : GPUBuffer)
| SegmenterCall (input : ImageData)
| SegmenterSegment (input : ImageData)
| SegmenterGetInputBuffer (buffer : N)
| SegmenterSegmentGPUBuffer
| SegmenterGetOutputBuffer (buffer : N)
| QueueWriteTexture (dst : GPUTexture) (bytesPerRow w h : N)
| CanvasSetWidth (w : N)
| CanvasSetHeight (h : N)
| GetCurrentTexture (t : GPUTexture)
| SetInputDimensions (w h : N)
| Blur (enc : N) (source : SourceTexture) (mask dest : GPUTexture)
    (kernel : N)
| CreateRenderPipeline (d : RenderPipelineDescriptor) (id : N)
| BeginRenderPass (enc : N) (colorAttachments : list ColorAttachment)
    (pass : N)
| Draw (pass vertexCount : N) (instanceCount : option N)
| NewVideoFrameFromCanvas (out : VideoFrame).

(** ** The environment and the heap *)

(** What the renderer cannot decide: which external call fails when it is
    the [t]-th one, the canvas format the browser prefers, whether an
    adapter and a canvas context exist, and the size of the mask the CPU
    segmenter answers with. *)
Record Env := mkEnv {
  fault : nat -> Event -> bool;
  preferredCanvasFormat : string;
  adapterAvailable : bool;
  adapterFeatures : list string;
  contextAvailable : bool;
  segmenterOutput : nat -> ImageData
}.

(** The mutable state reachable from one renderer: the offscreen canvas
    size, the attached segmenter object (its flags can be changed by its
    owner between frames), the cache object and the lazily filled fields.
    [clock] counts the external calls made so far and [next_id] is the
    allocation counter that gives every new object its identity. *)
Record Heap := mkHeap {
  clock : nat;
  next_id : N;
  canvas_width : N;
  canvas_height : N;
  segmenter : Segmenter;
  resourceCache : gmap string Resource;
  outputRendererFragmentShader : option N;
  lastDim : option string;
  lastDimArray : option (N * N);
  maskTexture : option GPUTexture
}.

Definition tick (h : Heap) : Heap :=
  mkHeap (S (clock h)) (next_id h) (canvas_width h) (canvas_height h)
    (segmenter h) (resourceCache h) (outputRendererFragmentShader h)
    (lastDim h) (lastDimArray h) (maskTexture h).

Definition bump (h : Heap) : Heap :=
  mkHeap (clock h) (next_id h + 1) (canvas_width h) (canvas_height h)
    (segmenter h) (resourceCache h) (outputRendererFragmentShader h)
    (lastDim h) (lastDimArray h) (maskTexture h).

Definition set_canvas_width (w : N) (h : Heap) : Heap :=
  mkHeap (clock h) (next_id h) w (canvas_height h)
    (segmenter h) (resourceCache h) (outputRendererFragmentShader h)
    (lastDim h) (lastDimArray h) (maskTexture h).

Definition set_canvas_height (w : N) (h : Heap) : Heap :=
  mkHeap (clock h) (next_id h) (canvas_width h) w
    (segmenter h) (resourceCache h) (outputRendererFragmentShader h)
    (lastDim h) (lastDimArray h) (maskTexture h).

Definition set_segmenter (sg : Segmenter) (h : Heap) : Heap :=
  mkHeap (clock h) (next_id h) (canvas_width h) (canvas_height h)
    sg (resourceCache h) (outputRendererFragmentShader h)
    (lastDim h) (lastDimArray h) (maskTexture h).

Definition set_resourceCache (c : gmap string Resource) (h : Heap) : Heap :=
  mkHeap (clock h) (next_id h) (canvas_width h) (canvas_height h)
    (segmenter h) c (outputRendererFragmentShader h)
    (lastDim h) (lastDimArray h) (maskTexture h).

Definition cache_store (key : string) (r : Resource) (h : Heap) : Heap :=
  set_resourceCache (<[key := r]> (resourceCache h)) h.

Definition set_fragmentShader (m : option N) (d : option string)
    (a : option (N * N)) (h : Heap) : Heap :=
  mkHeap (clock h) (next_id h) (canvas_width h) (canvas_height h)
    (segmenter h) (resourceCache h) m d a (maskTexture h).

Definition set_maskTexture (t : option GPUTexture) (h : Heap) : Heap :=
  mkHeap (clock h) (next_id h) (canvas_width h) (canvas_height h)
    (segmenter h) (resourceCache h) (outputRendererFragmentShader h)
    (lastDim h) (lastDimArray h) t.

(** The heap a page starts with: nothing allocated, no canvas yet. *)
Definition initial_heap (sg : Segmenter) : Heap :=
  mkHeap 0 0 0 0 sg ∅ None None None None.

(** ** The effect monad: heap, exceptions and the event log *)

Inductive Result (A : Type) :=
| Val (a : A)
| Throw (e : Exn).
Arguments Val {A} a.
Arguments Throw {A} e.

Record Outcome (A : Type) := mkOutcome {
  result : Result A;
  heap : Heap;
  events : list Event
}.
Arguments mkOutcome {A} _ _ _.
Arguments result {A} _.
Arguments heap {A} _.
Arguments events {A} _.

Definition M (A : Type) : Type := Heap -> Outcome A.

Definition ret {A} (a : A) : M A := fun h => mkOutcome (Val a) h [].

Definition throw {A} (e : Exn) : M A := fun h => mkOutcome (Throw e) h [].

Definition bind {A B} (m : M A) (f : A -> M B) : M B := fun h =>
  let o := m h in
  match result o with
  | Val a =>
      let o' := f a (heap o) in
      mkOutcome (result o') (heap o') (events o ++ events o')
  | Throw e => mkOutcome (Throw e) (heap o) (events o)
  end.

(** [try { m } catch (err) { handler err }] *)
Definition try_catch {A} (m : M A) (handler : Exn -> M A) : M A := fun h =>
  let o := m h in
  match result o with
  | Val a => o
  | Throw e =>
      let o' := handler e (heap o) in
      mkOutcome (result o') (heap o') (events o ++ events o')
  end.

Definition gets {A} (f : Heap -> A) : M A := fun h => mkOutcome (Val (f h)) h [].

Definition modify (f : Heap -> Heap) : M unit := fun h =>
  mkOutcome (Val tt) (f h) [].

(** A new object identity. *)
Definition fresh : M N := fun h => mkOutcome (Val (next_id h)) (bump h) [].

(** An event that cannot fail ([console.log], a canvas attribute). *)
Definition emit (e : Event) : M unit := fun h => mkOutcome (Val tt) h [e].

Declare Scope js_scope.
Delimit Scope js_scope with js.
Notation "x <- m ;; k" := (bind m (fun x => k))
  (at level 100, m at next level, right associativity) : js_scope.
Notation "m ;;; k" := (bind m (fun _ => k))
  (at level 100, right associativity) : js_scope.
Local Open Scope js_scope.

Section WithEnv.

Variable env : Env.

(** An external call: recorded, and failing when the environment says so. *)
Definition call (e : Event) : M unit := fun h =>
  mkOutcome
    (if fault env (clock h) e then Throw (ExternalError (clock h)) else Val tt)
    (tick h) [e].

(** [texture.createView()] *)
Definition createView (t : GPUTexture) : M GPUTextureView :=
  id <- fresh ;;
  let v := mkView id t in
  call (CreateView v) ;;;
  ret v.

(** [device.createCommandEncoder()] *)
Definition createCommandEncoder : M N :=
  enc <- fresh ;;
  call (CreateCommandEncoder enc) ;;;
  ret enc.

(** [device.queue.submit([commandEncoder.finish()])] *)
Definition submit (enc : N) : M unit :=
  call (EncoderFinish enc) ;;;
  call (QueueSubmit enc).

End WithEnv.

(** The cache keys both renderers build for textures,
    [`${key}_${width}x${height}_${format}_${usage}`], for the readback
    buffer, [`readbackBuffer${bufferSize}`], and for the render pipeline,
    [`renderPipeline_${width}x${height}`]. *)
Definition textureCacheKey (key : string) (width height : N)
    (format : string) (usage : N) : string :=
  key +:+ "_" +:+ pretty width +:+ "x" +:+ pretty height +:+ "_" +:+ format
      +:+ "_" +:+ pretty usage.

Definition readbackBufferKey (bufferSize : N) : string :=
  "readbackBuffer" +:+ pretty bufferSize.

Definition renderPipelineKey (width height : N) : string :=
  "renderPipeline_" +:+ pretty width +:+ "x" +:+ pretty height.

(** [draw(vertexCount)] leaves [instanceCount] to its default. *)
Definition draw_instances (instanceCount : option N) : N :=
  default 1 instanceCount.

(** The usage both renderers configure the canvas context with. *)
Definition canvas_usage (directOutput : bool) : N :=
  N.lor GPUTextureUsage.RENDER_ATTACHMENT
    (if directOutput
     then N.lor GPUTextureUsage.STORAGE_BINDING GPUTextureUsage.COPY_DST
     else 0).

(** ** The closure-based renderer ([webgpu-renderer.js]) *)

Module Closure.

(** The variables [render] closes over and packs into [params] on every
    call.  [device], [context], [webgpuCanvas], [segmenter] and [blurrer]
    are the environment and the heap. *)
Record Params := mkParams {
  zeroCopy : bool;
  directOutput : bool;
  segmentationWidth : N;
  segmentationHeight : N;
  downscalePipeline : N;
  downscaleSampler : N;
  renderSampler : N;
  outputRendererVertexShader : N
}.

(** [let imageDataCache;] at module level is never assigned. *)
Definition imageDataCache : option ImageData := None.

(** The compute shader's [main], invocation by invocation: the coordinate
    it stores to, if any.  [outputDims] is [textureDimensions(outputTexture)]
    and the comparison is on [u32]. *)
Definition downscale_main (outputDims global_id : N * N) : option (N * N) :=
  if (outputDims.1 <=? global_id.1) || (outputDims.2 <=? global_id.2)
  then None
  else Some global_id.

(** [@workgroup_size(8, 8)] *)
Definition workgroup_size : N * N := (8, 8).

(** The global invocation ids of [dispatchWorkgroups(gx, gy)]. *)
Definition invocations (gx gy : N) : list (N * N) :=
  x ← N.of_nat <$> seq 0 (N.to_nat (workgroup_size.1 * gx));
  y ← N.of_nat <$> seq 0 (N.to_nat (workgroup_size.2 * gy));
  [(x, y)].

(** The [textureStore] coordinates of a whole dispatch. *)
Definition dispatch_stores (outputDims : N * N) (gx gy : N) : list (N * N) :=
  omap (downscale_main outputDims) (invocations gx gy).

Section WithEnv.

Variable env : Env.

Definition getTextureFormat (directOutput : bool) : string :=
  if directOutput then preferredCanvasFormat env else "rgba8unorm".

Definition getOrCreateResource (key : string) (createFn : M Resource)
    : M Resource :=
  c <- gets resourceCache ;;
  match c !! key with
  | Some r => ret r
  | None =>
      emit (ConsoleLog "Creating new resource for " key) ;;;
      r <- createFn ;;
      modify (cache_store key r) ;;;
      ret r
  end.

Definition createTexture (width height : N) (format : string) (usage : N)
    : M GPUTexture :=
  id <- fresh ;;
  let t := mkTexture id width height format usage in
  call env (CreateTexture t) ;;;
  ret t.

(** The cache object is untyped: under a texture key the code would treat a
    buffer as a texture whose [width] is [undefined] (a mismatch, and it has
    a [destroy] method), and a pipeline has no [destroy]. *)
Definition getOrCreateTexture (key : string) (size : N * N)
    (directOutput : bool) (usage : N) : M GPUTexture :=
  let '(width, height) := size in
  let format := getTextureFormat directOutput in
  let cacheKey := textureCacheKey key width height format usage in
  let create :=
    texture <- createTexture width height format usage ;;
    modify (cache_store cacheKey (RTexture texture)) ;;;
    ret texture in
  c <- gets resourceCache ;;
  match c !! cacheKey with
  | None =>
      emit (ConsoleLog "Creating new texture for " cacheKey) ;;;
      create
  | Some (RTexture texture) =>
      if negb (tex_width texture =? width) || negb (tex_height texture =? height)
      then
        emit (ConsoleLog "Creating new texture for " cacheKey) ;;;
        call env (DestroyCached (RTexture texture)) ;;;
        create
      else ret texture
  | Some (RBuffer b) =>
      emit (ConsoleLog "Creating new texture for " cacheKey) ;;;
      call env (DestroyCached (RBuffer b)) ;;;
      create
  | Some (RPipeline _) =>
      emit (ConsoleLog "Creating new texture for " cacheKey) ;;;
      throw (TypeError "texture.destroy is not a function")
  end.

(** The object a cached value is used as. *)
Definition as_buffer (r : Resource) : M GPUBuffer :=
  match r with
  | RBuffer b => ret b
  | _ => throw (TypeError "not a GPUBuffer")
  end.

Definition as_pipeline (r : Resource) : M N :=
  match r with
  | RPipeline p => ret p
  | _ => throw (TypeError "getBindGroupLayout is not a function")
  end.

Definition source_usage : N :=
  N.lor GPUTextureUsage.TEXTURE_BINDING
    (N.lor GPUTextureUsage.COPY_DST GPUTextureUsage.RENDER_ATTACHMENT).

Definition downscale_usage : N :=
  N.lor GPUTextureUsage.STORAGE_BINDING GPUTextureUsage.COPY_SRC.

Definition output_usage : N :=
  N.lor GPUTextureUsage.STORAGE_BINDING
    (N.lor GPUTextureUsage.COPY_SRC GPUTextureUsage.TEXTURE_BINDING).

Definition readback_usage : N :=
  N.lor GPUBufferUsage.COPY_DST GPUBufferUsage.MAP_READ.

(** [renderWithWebGPU], "Import external texture." *)
Definition import_source (params : Params) (videoFrame : VideoFrame)
    : M SourceTexture :=
  if zeroCopy params then
    id <- fresh ;;
    call env (ImportExternalTexture videoFrame id) ;;;
    ret (ExternalTexture id)
  else
    sourceTexture <- getOrCreateTexture "sourceTexture"
      (displayWidth videoFrame, displayHeight videoFrame)
      (directOutput params) source_usage ;;
    call env (CopyExternalImageToTexture videoFrame sourceTexture
      (displayWidth videoFrame) (displayHeight videoFrame)) ;;;
    ret (SourceTexture2D sourceTexture).

(** Binding 0 of the downscale bind group:
    [params.zeroCopy ? sourceTexture : sourceTexture.createView()]. *)
Definition source_binding (zeroCopy : bool) (sourceTexture : SourceTexture)
    : M BindingResource :=
  match sourceTexture with
  | ExternalTexture id =>
      if zeroCopy then ret (BindExternalTexture id)
      else throw (TypeError "sourceTexture.createView is not a function")
  | SourceTexture2D t =>
      if zeroCopy then ret (BindTexture t)
      else v <- createView env t ;; ret (BindTextureView v)
  end.

(** [renderWithWebGPU], "Scale down input, segment, read back and upload." *)
Definition scale_down_and_segment (params : Params)
    (sourceTexture : SourceTexture) : M GPUTexture :=
  let segmentationWidth := segmentationWidth params in
  let segmentationHeight := segmentationHeight params in
  destTexture <- getOrCreateTexture "downscaleDest"
    (segmentationWidth, segmentationHeight) (directOutput params)
    downscale_usage ;;
  downscaleBindGroup <- try_catch
    (layout <- fresh ;;
     call env (GetBindGroupLayout (downscalePipeline params) 0 layout) ;;;
     b0 <- source_binding (zeroCopy params) sourceTexture ;;
     v2 <- createView env destTexture ;;
     group <- fresh ;;
     call env (CreateBindGroup layout
       [(0, b0); (1, BindSampler (downscaleSampler params));
        (2, BindTextureView v2)] group) ;;;
     ret (Some group))
    (fun error => emit (ConsoleWarn "bind failed:" error) ;;; ret None) ;;
  commandEncoder <- createCommandEncoder env ;;
  computePass <- fresh ;;
  call env (BeginComputePass commandEncoder computePass) ;;;
  call env (SetPipeline computePass (downscalePipeline params)) ;;;
  call env (SetBindGroup computePass 0 downscaleBindGroup) ;;;
  call env (DispatchWorkgroups computePass
    (Math_ceil_div segmentationWidth 8) (Math_ceil_div segmentationHeight 8)) ;;;
  call env (PassEnd computePass) ;;;
  let bufferSize := segmentationWidth * segmentationHeight * 4 in
  r <- getOrCreateResource (readbackBufferKey bufferSize)
    (id <- fresh ;;
     let b := mkBuffer id bufferSize readback_usage in
     call env (CreateBuffer b) ;;;
     ret (RBuffer b)) ;;
  readbackBuffer <- as_buffer r ;;
  call env (CopyTextureToBuffer commandEncoder destTexture readbackBuffer
    (segmentationWidth * 4) segmentationWidth segmentationHeight) ;;;
  submit env commandEncoder ;;;
  call env (MapAsync readbackBuffer GPUMapMode.READ) ;;;
  downscaledImageData <-
    match imageDataCache with
    | Some img => ret img
    | None =>
        call env (NewImageData segmentationWidth segmentationHeight) ;;;
        ret (mkImageData segmentationWidth segmentationHeight)
    end ;;
  call env (GetMappedRange readbackBuffer) ;;;
  call env (ImageDataSet downscaledImageData) ;;;
  call env (Unmap readbackBuffer) ;;;
  now <- gets clock ;;
  call env (SegmenterCall downscaledImageData) ;;;
  let maskImageData := segmenterOutput env now in
  maskTexture <- getOrCreateTexture "maskTexture"
    (img_width maskImageData, img_height maskImageData)
    (directOutput params) source_usage ;;
  call env (QueueWriteTexture maskTexture (img_width maskImageData * 4)
    (img_width maskImageData) (img_height maskImageData)) ;;;
  ret maskTexture.

(** [renderWithWebGPU], "Update canvas size only if video resolution
    actually changed".  The identifier [context] is bound neither in
    [renderWithWebGPU] nor at module level (the context is [params.context]),
    so evaluating [context.configure] raises a ReferenceError before its
    argument is built. *)
Definition update_canvas_size (processingWidth processingHeight : N)
    : M unit :=
  w <- gets canvas_width ;;
  h <- gets canvas_height ;;
  if negb (w =? processingWidth) || negb (h =? processingHeight) then
    emit (CanvasSetWidth processingWidth) ;;;
    modify (set_canvas_width processingWidth) ;;;
    emit (CanvasSetHeight processingHeight) ;;;
    modify (set_canvas_height processingHeight) ;;;
    throw (ReferenceError "context")
  else ret tt.

(** The fragment shader source with the literal size substituted. *)
Definition fragmentShaderCode (width height : N) : string :=
  "@group(0) @binding(0) var inputTexture: texture_2d<f32>;
   @group(0) @binding(1) var textureSampler: sampler;
   @fragment
   fn main(@builtin(position) coord: vec4<f32>) -> @location(0) vec4<f32> {
     let uv = coord.xy / vec2<f32>(" +:+ pretty width +:+ ".0, "
     +:+ pretty height +:+ ".0);
     return textureSample(inputTexture, textureSampler, uv);
   }".

Definition getOutputRendererFragmentShader (width height : N) : M N :=
  current <- gets outputRendererFragmentShader ;;
  last <- gets lastDim ;;
  let dim := pretty width +:+ "x" +:+ pretty height in
  let create :=
    id <- fresh ;;
    call env (CreateShaderModule (InlineCode (fragmentShaderCode width height)) id) ;;;
    modify (fun h =>
      set_fragmentShader (Some id) (Some dim) (lastDimArray h) h) ;;;
    ret id in
  match current with
  | None => create
  | Some m => if bool_decide (last = Some dim) then ret m else create
  end.

(** The colour attachment of the render pass that resolves to the canvas. *)
Definition canvas_attachment (view : GPUTextureView) : ColorAttachment :=
  mkColorAttachment view (0, 0, 0, 1) "clear" "store".

(** [renderWithWebGPU], from [getCurrentTexture] to the final submit.
    [width] and [height] are the canvas size read at the top of the
    function, before any resize. *)
Definition blur_and_render_to_canvas (params : Params) (width height : N)
    (processingWidth processingHeight : N)
    (sourceTexture : SourceTexture) (maskTexture : GPUTexture) : M unit :=
  cw <- gets canvas_width ;;
  ch <- gets canvas_height ;;
  id <- fresh ;;
  let canvasTexture :=
    mkTexture id cw ch (preferredCanvasFormat env)
      (canvas_usage (directOutput params)) in
  call env (GetCurrentTexture canvasTexture) ;;;
  outputTexture <- getOrCreateTexture "outputTexture" (width, height)
    (directOutput params) output_usage ;;
  commandEncoder <- createCommandEncoder env ;;
  call env (SetInputDimensions processingWidth processingHeight) ;;;
  call env (Blur commandEncoder sourceTexture maskTexture
    (if directOutput params then canvasTexture else outputTexture) 360) ;;;
  (if negb (directOutput params) then
     r <- getOrCreateResource (renderPipelineKey width height)
       (fragment <- getOutputRendererFragmentShader width height ;;
        id <- fresh ;;
        call env (CreateRenderPipeline
          (mkRenderPipelineDescriptor "auto"
             (outputRendererVertexShader params) fragment
             (preferredCanvasFormat env) "triangle-list") id) ;;;
        ret (RPipeline id)) ;;
     renderPipeline <- as_pipeline r ;;
     layout <- fresh ;;
     call env (GetBindGroupLayout renderPipeline 0 layout) ;;;
     outputView <- createView env outputTexture ;;
     renderBindGroup <- fresh ;;
     call env (CreateBindGroup layout
       [(0, BindTextureView outputView);
        (1, BindSampler (renderSampler params))] renderBindGroup) ;;;
     canvasView <- createView env canvasTexture ;;
     renderPass <- fresh ;;
     call env (BeginRenderPass commandEncoder
       [canvas_attachment canvasView] renderPass) ;;;
     call env (SetPipeline renderPass renderPipeline) ;;;
     call env (SetBindGroup renderPass 0 (Some renderBindGroup)) ;;;
     call env (Draw renderPass 6 None) ;;;
     call env (PassEnd renderPass)
   else ret tt) ;;;
  submit env commandEncoder.

Definition renderWithWebGPU (params : Params) (videoFrame : VideoFrame)
    : M VideoFrame :=
  width <- gets canvas_width ;;
  height <- gets canvas_height ;;
  sourceTexture <- import_source params videoFrame ;;
  maskTexture <- scale_down_and_segment params sourceTexture ;;
  let processingWidth := js_or (displayWidth videoFrame) 1280 in
  let processingHeight := js_or (displayHeight videoFrame) 720 in
  update_canvas_size processingWidth processingHeight ;;;
  blur_and_render_to_canvas params width height
    processingWidth processingHeight sourceTexture maskTexture ;;;
  cw <- gets canvas_width ;;
  ch <- gets canvas_height ;;
  let processedVideoFrame :=
    mkVideoFrame cw ch (timestamp videoFrame) (duration videoFrame) in
  call env (NewVideoFrameFromCanvas processedVideoFrame) ;;;
  ret processedVideoFrame.

(** The [render] method of the object [createWebGPUBlurRenderer] returns:
    [undefined] (here [None]) when anything inside threw. *)
Definition render (params : Params) (videoFrame : VideoFrame)
    : M (option VideoFrame) :=
  try_catch
    (out <- renderWithWebGPU params videoFrame ;; ret (Some out))
    (fun error =>
       emit (ConsoleWarn "WebGPU rendering failed:" error) ;;; ret None).

(** The downscale shader text [createWebGPUBlurRenderer] compiles. *)
Definition downscaleShaderCode (zeroCopy directOutput : bool) : string :=
  "@group(0) @binding(0) var inputTexture: "
  +:+ (if zeroCopy then "texture_external" else "texture_2d<f32>") +:+ ";
   @group(0) @binding(1) var textureSampler: sampler;
   @group(0) @binding(2) var outputTexture: texture_storage_2d<"
  +:+ getTextureFormat directOutput +:+ ", write>;
   @compute @workgroup_size(8, 8)
   fn main(@builtin(global_invocation_id) global_id: vec3<u32>) {
     let outputDims = textureDimensions(outputTexture);
     if (global_id.x >= outputDims.x || global_id.y >= outputDims.y) {
         return;
     }
     let uv = (vec2<f32>(global_id.xy) + vec2<f32>(0.5, 0.5)) / vec2<f32>(outputDims);
     let color = textureSampleBaseClampToEdge(inputTexture, textureSampler, uv);
     textureStore(outputTexture, global_id.xy, color);
   }".

Definition vertexShaderCode : string :=
  "@vertex
   fn main(@builtin(vertex_index) vertexIndex: u32) -> @builtin(position) vec4<f32> {
     var pos = array<vec2<f32>, 6>(
       vec2<f32>(-1.0, -1.0), vec2<f32>( 1.0, -1.0), vec2<f32>(-1.0,  1.0),
       vec2<f32>( 1.0, -1.0), vec2<f32>( 1.0,  1.0), vec2<f32>(-1.0,  1.0));
     return vec4<f32>(pos[vertexIndex], 0.0, 1.0);
   }".

Definition createWebGPUBlurRenderer (zeroCopy directOutput : bool)
    : M Params :=
  emit (ConsoleLog "createWebGPUBlurRenderer zeroCopy: " "") ;;;
  call env (NewOffscreenCanvas 1280 720) ;;;
  modify (set_canvas_width 1280) ;;;
  modify (set_canvas_height 720) ;;;
  call env RequestAdapter ;;;
  if negb (adapterAvailable env) then
    throw (Error "WebGPU adapter not available")
  else
    emit (ConsoleLog "Adapter features:" "") ;;;
    foldr (fun feature k => emit (ConsoleLog "- " feature) ;;; k) (ret tt)
      (adapterFeatures env) ;;;
    (if bool_decide ("bgra8unorm-storage" ∈ adapterFeatures env) then ret tt
     else emit (ConsoleLog "BGRA8UNORM-STORAGE not supported" "")) ;;;
    call env (RequestDevice ["bgra8unorm-storage"]) ;;;
    call env GetContext ;;;
    if negb (contextAvailable env) then
      throw (Error "WebGPU context not available")
    else
      call env (ContextConfigure (preferredCanvasFormat env)
        (canvas_usage directOutput)) ;;;
      downscaleShader <- fresh ;;
      call env (CreateShaderModule
        (InlineCode (downscaleShaderCode zeroCopy directOutput))
        downscaleShader) ;;;
      downscalePipeline <- fresh ;;
      call env (CreateComputePipeline downscaleShader downscalePipeline) ;;;
      downscaleSampler <- fresh ;;
      call env (CreateSampler downscaleSampler) ;;;
      call env (NewWebGPUBlur zeroCopy directOutput) ;;;
      call env BlurInit ;;;
      vertexShader <- fresh ;;
      call env (CreateShaderModule (InlineCode vertexShaderCode)
        vertexShader) ;;;
      renderSampler <- fresh ;;
      call env (CreateSampler renderSampler) ;;;
      modify (set_resourceCache ∅) ;;;
      modify (fun h => set_fragmentShader None None (lastDimArray h) h) ;;;
      ret (mkParams zeroCopy directOutput 256 144 downscalePipeline
             downscaleSampler renderSampler vertexShader).

End WithEnv.

End Closure.

(** ** The class-based renderer ([WebGPURenderer]) *)

Module Class.

(** The fields of [this] that are assigned once, in the constructor.
    [downscalePipeline] and [outputRendererVertexShader] are promises: the
    handle is what they resolve to, and whether awaiting one of them rejects
    is the environment's choice at the await. *)
Record WebGPURenderer := mkWebGPURenderer {
  zeroCopy : bool;
  directOutput : bool;
  format : string;
  segmentationWidth : N;
  segmentationHeight : N;
  downscaledImageData : ImageData;
  downscaleSampler : N;
  packShaderUrl : string;
  packShaderSubstitution : list (string * string);
  downscalePipeline : N;
  outputRendererVertexShader : N;
  renderSampler : N
}.

(** The object literal [{ buffer: ... }] or [{ texture: ... }] that
    [segment] builds. *)
Inductive DownscaledResource :=
| WithBuffer (buffer : N)
| WithTexture (texture : GPUTexture).

(** [downscaledResource.texture]: [undefined] when the literal only has a
    [buffer] member. *)
Definition texture_member (r : DownscaledResource) : BindingResource :=
  match r with
  | WithTexture t => BindTexture t
  | WithBuffer _ => BindUndefined
  end.

(** [this.lastDim !== [width, height]] compares a stored array with a new
    array literal: two distinct objects. *)
Definition array_not_identical (stored : option (N * N)) (literal : N * N)
    : bool := true.

Section WithEnv.

Variable env : Env.

(** [this.segmenter.segmentGPUBuffer && this.segmenter.deviceType === 'gpu'] *)
Definition gpu_interop (sg : Segmenter) : bool :=
  segmentGPUBuffer sg && bool_decide (deviceType sg = "gpu").

(** The constructor.  The shader fetches are started here; the modules and
    the compute pipeline are built in promise callbacks, so a failure there
    does not throw here but rejects the await in [segment] or [render]. *)
Definition constructor (zeroCopy directOutput : bool) : M WebGPURenderer :=
  emit (ConsoleLog "createWebGPUBlurRenderer zeroCopy:" "") ;;;
  call env (NewOffscreenCanvas 1280 720) ;;;
  modify (set_canvas_width 1280) ;;;
  modify (set_canvas_height 720) ;;;
  call env GetContext ;;;
  if negb (contextAvailable env) then
    throw (Error "WebGPU context not available")
  else
    let format :=
      if directOutput then preferredCanvasFormat env else "rgba8unorm" in
    call env (ContextConfigure (preferredCanvasFormat env)
      (canvas_usage directOutput)) ;;;
    let segmentationWidth := 256 in
    let segmentationHeight := 144 in
    call env (NewImageData segmentationWidth segmentationHeight) ;;;
    downscaleSampler <- fresh ;;
    call env (CreateSampler downscaleSampler) ;;;
    sg <- gets segmenter ;;
    let packShaderUrl :=
      if gpu_interop sg
      then "blur4/shaders/downscale-and-convert-to-rgb16float.wgsl"
      else "blur4/shaders/downscale-and-convert-to-rgba8uint.wgsl" in
    let substitution :=
      [("inputTextureType",
        if zeroCopy then "texture_external" else "texture_2d<f32>");
       ("outputTextureFormat", format)] in
    call env (Fetch packShaderUrl) ;;;
    downscaleModule <- fresh ;;
    emit (CreateShaderModule (FetchedCode packShaderUrl substitution)
      downscaleModule) ;;;
    downscalePipeline <- fresh ;;
    emit (CreateComputePipeline downscaleModule downscalePipeline) ;;;
    call env (Fetch "blur4/shaders/render.vertex.wgsl") ;;;
    vertexShader <- fresh ;;
    emit (CreateShaderModule
      (FetchedCode "blur4/shaders/render.vertex.wgsl" []) vertexShader) ;;;
    modify (fun h => set_fragmentShader None (lastDim h) None h) ;;;
    renderSampler <- fresh ;;
    call env (CreateSampler renderSampler) ;;;
    modify (set_resourceCache ∅) ;;;
    ret (mkWebGPURenderer zeroCopy directOutput format
           segmentationWidth segmentationHeight
           (mkImageData segmentationWidth segmentationHeight)
           downscaleSampler packShaderUrl substitution downscalePipeline
           vertexShader renderSampler).

Definition getOrCreateResource (key : string) (createFn : M Resource)
    : M Resource :=
  c <- gets resourceCache ;;
  match c !! key with
  | Some r => ret r
  | None =>
      emit (ConsoleLog "Creating new resource" key) ;;;
      r <- createFn ;;
      modify (cache_store key r) ;;;
      ret r
  end.

(** As in the closure-based renderer, a cached value that is not a texture
    has no [width]; a buffer can be destroyed, a pipeline cannot. *)
Definition getOrCreateTexture (this : WebGPURenderer) (key : string)
    (size : N * N) (usage : N) : M GPUTexture :=
  let '(width, height) := size in
  let cacheKey := textureCacheKey key width height (format this) usage in
  let create :=
    id <- fresh ;;
    let texture := mkTexture id width height (format this) usage in
    call env (CreateTexture texture) ;;;
    modify (cache_store cacheKey (RTexture texture)) ;;;
    ret texture in
  c <- gets resourceCache ;;
  match c !! cacheKey with
  | None =>
      emit (ConsoleLog "Creating new texture" cacheKey) ;;;
      create
  | Some (RTexture texture) =>
      if negb (tex_width texture =? width) || negb (tex_height texture =? height)
      then
        emit (ConsoleLog "Creating new texture" cacheKey) ;;;
        emit (ConsoleLog "Destroying old texture" cacheKey) ;;;
        call env (DestroyCached (RTexture texture)) ;;;
        create
      else ret texture
  | Some (RBuffer b) =>
      emit (ConsoleLog "Creating new texture" cacheKey) ;;;
      emit (ConsoleLog "Destroying old texture" cacheKey) ;;;
      call env (DestroyCached (RBuffer b)) ;;;
      create
  | Some (RPipeline _) =>
      emit (ConsoleLog "Creating new texture" cacheKey) ;;;
      emit (ConsoleLog "Destroying old texture" cacheKey) ;;;
      throw (TypeError "texture.destroy is not a function")
  end.

Definition getOutputRendererFragmentShader (width height : N) : M N :=
  current <- gets outputRendererFragmentShader ;;
  last <- gets lastDimArray ;;
  let create :=
    call env (Fetch "blur4/shaders/render.fragment.wgsl") ;;;
    id <- fresh ;;
    call env (CreateShaderModule
      (FetchedCode "blur4/shaders/render.fragment.wgsl"
         [("width", pretty width); ("height", pretty height)]) id) ;;;
    modify (fun h =>
      set_fragmentShader (Some id) (lastDim h) (Some (width, height)) h) ;;;
    ret id in
  match current with
  | None => create
  | Some m =>
      if array_not_identical last (width, height) then create else ret m
  end.

(** Binding 0 of the pack bind group:
    [this.zeroCopy ? sourceTexture : sourceTexture.createView()]. *)
Definition source_binding (zeroCopy : bool) (sourceTexture : SourceTexture)
    : M BindingResource :=
  match sourceTexture with
  | ExternalTexture id =>
      if zeroCopy then ret (BindExternalTexture id)
      else throw (TypeError "sourceTexture.createView is not a function")
  | SourceTexture2D t =>
      if zeroCopy then ret (BindTexture t)
      else v <- createView env t ;; ret (BindTextureView v)
  end.

Definition downscaled_usage : N :=
  N.lor GPUTextureUsage.STORAGE_BINDING
    (N.lor GPUTextureUsage.COPY_SRC GPUTextureUsage.RENDER_ATTACHMENT).

Definition texture_usage : N :=
  N.lor GPUTextureUsage.TEXTURE_BINDING
    (N.lor GPUTextureUsage.COPY_DST GPUTextureUsage.RENDER_ATTACHMENT).

Definition output_usage : N :=
  N.lor GPUTextureUsage.STORAGE_BINDING
    (N.lor GPUTextureUsage.COPY_SRC GPUTextureUsage.TEXTURE_BINDING).

Definition readback_usage : N :=
  N.lor GPUBufferUsage.COPY_DST GPUBufferUsage.MAP_READ.

Definition as_buffer (r : Resource) : M GPUBuffer :=
  match r with
  | RBuffer b => ret b
  | _ => throw (TypeError "not a GPUBuffer")
  end.

Definition as_pipeline (r : Resource) : M N :=
  match r with
  | RPipeline p => ret p
  | _ => throw (TypeError "getBindGroupLayout is not a function")
  end.

(** [segment], after the pack pass, when [useInterop] holds. *)
Definition segment_interop (this : WebGPURenderer) (commandEncoder : N)
    (downscaledResource : DownscaledResource) : M GPUTexture :=
  submit env commandEncoder ;;;
  match downscaledResource with
  | WithBuffer b => call env (BufferDestroy b)
  | WithTexture _ =>
      throw (TypeError "downscaledResource.buffer is undefined")
  end ;;;
  call env SegmenterSegmentGPUBuffer ;;;
  outputBuffer <- fresh ;;
  call env (SegmenterGetOutputBuffer outputBuffer) ;;;
  current <- gets maskTexture ;;
  mask <-
    match current with
    | Some t => ret t
    | None =>
        id <- fresh ;;
        let t := mkTexture id (segmentationWidth this)
                   (segmentationHeight this) "r16float" texture_usage in
        call env (CreateTexture t) ;;;
        modify (set_maskTexture (Some t)) ;;;
        ret t
    end ;;
  copyCommandEncoder <- createCommandEncoder env ;;
  call env (CopyBufferToTexture copyCommandEncoder outputBuffer
    (segmentationWidth this * 2) mask
    (segmentationWidth this) (segmentationHeight this)) ;;;
  submit env copyCommandEncoder ;;;
  call env (BufferDestroy outputBuffer) ;;;
  ret mask.

(** [segment], after the pack pass, otherwise. *)
Definition segment_readback (this : WebGPURenderer) (commandEncoder : N)
    (downscaledResource : DownscaledResource) : M GPUTexture :=
  let bufferSize := segmentationWidth this * segmentationHeight this * 4 in
  r <- getOrCreateResource (readbackBufferKey bufferSize)
    (id <- fresh ;;
     let b := mkBuffer id bufferSize readback_usage in
     call env (CreateBuffer b) ;;;
     ret (RBuffer b)) ;;
  readbackBuffer <- as_buffer r ;;
  match downscaledResource with
  | WithTexture t =>
      call env (CopyTextureToBuffer commandEncoder t readbackBuffer
        (segmentationWidth this * 4)
        (segmentationWidth this) (segmentationHeight this))
  | WithBuffer _ => throw (TypeError "copyTextureToBuffer: no texture")
  end ;;;
  submit env commandEncoder ;;;
  call env (MapAsync readbackBuffer GPUMapMode.READ) ;;;
  call env (GetMappedRange readbackBuffer) ;;;
  call env (ImageDataSet (downscaledImageData this)) ;;;
  call env (Unmap readbackBuffer) ;;;
  emit (ConsoleLog "downscaledImageData" "") ;;;
  now <- gets clock ;;
  call env (SegmenterSegment (downscaledImageData this)) ;;;
  let maskImageData := segmenterOutput env now in
  emit (ConsoleLog "maskImageData" "") ;;;
  maskTexture <- getOrCreateTexture this "maskTexture"
    (img_width maskImageData, img_height maskImageData) texture_usage ;;
  call env (QueueWriteTexture maskTexture (img_width maskImageData * 4)
    (img_width maskImageData) (img_height maskImageData)) ;;;
  ret maskTexture.

Definition segment (this : WebGPURenderer) (sourceTexture : SourceTexture)
    : M GPUTexture :=
  commandEncoder <- createCommandEncoder env ;;
  sg <- gets segmenter ;;
  let useInterop := gpu_interop sg in
  downscaledResource <-
    (if useInterop then
       b <- fresh ;;
       call env (SegmenterGetInputBuffer b) ;;;
       ret (WithBuffer b)
     else
       t <- getOrCreateTexture this "downscaledTexture"
         (segmentationWidth this, segmentationHeight this)
         downscaled_usage ;;
       ret (WithTexture t)) ;;
  call env (AwaitPromise "downscalePipeline") ;;;
  layout <- fresh ;;
  call env (GetBindGroupLayout (downscalePipeline this) 0 layout) ;;;
  b0 <- source_binding (zeroCopy this) sourceTexture ;;
  packBindGroup <- fresh ;;
  call env (CreateBindGroup layout
    [(0, b0); (1, BindSampler (downscaleSampler this));
     (2, texture_member downscaledResource)] packBindGroup) ;;;
  packPass <- fresh ;;
  call env (BeginComputePass commandEncoder packPass) ;;;
  call env (AwaitPromise "downscalePipeline") ;;;
  call env (SetPipeline packPass (downscalePipeline this)) ;;;
  call env (SetBindGroup packPass 0 (Some packBindGroup)) ;;;
  call env (DispatchWorkgroups packPass
    (Math_ceil_div (segmentationWidth this) 8)
    (Math_ceil_div (segmentationHeight this) 8)) ;;;
  call env (PassEnd packPass) ;;;
  if useInterop
  then segment_interop this commandEncoder downscaledResource
  else segment_readback this commandEncoder downscaledResource.

(** [render], "Import external texture." *)
Definition import_source (this : WebGPURenderer) (videoFrame : VideoFrame)
    : M SourceTexture :=
  if zeroCopy this then
    id <- fresh ;;
    call env (ImportExternalTexture videoFrame id) ;;;
    ret (ExternalTexture id)
  else
    sourceTexture <- getOrCreateTexture this "sourceTexture"
      (displayWidth videoFrame, displayHeight videoFrame) texture_usage ;;
    call env (CopyExternalImageToTexture videoFrame sourceTexture
      (displayWidth videoFrame) (displayHeight videoFrame)) ;;;
    ret (SourceTexture2D sourceTexture).

(** [render], "Update canvas size only if video resolution actually
    changed". *)
Definition update_canvas_size (this : WebGPURenderer)
    (processingWidth processingHeight : N) : M unit :=
  w <- gets canvas_width ;;
  h <- gets canvas_height ;;
  if negb (w =? processingWidth) || negb (h =? processingHeight) then
    emit (CanvasSetWidth processingWidth) ;;;
    modify (set_canvas_width processingWidth) ;;;
    emit (CanvasSetHeight processingHeight) ;;;
    modify (set_canvas_height processingHeight) ;;;
    call env (ContextConfigure (preferredCanvasFormat env)
      (canvas_usage (directOutput this)))
  else ret tt.

Definition canvas_attachment (view : GPUTextureView) : ColorAttachment :=
  mkColorAttachment view (0, 0, 0, 1) "clear" "store".

(** [render], from [getCurrentTexture] to the final submit. *)
Definition blur_and_render_to_canvas (this : WebGPURenderer)
    (processingWidth processingHeight : N)
    (sourceTexture : SourceTexture) (maskTexture : GPUTexture) : M unit :=
  width <- gets canvas_width ;;
  height <- gets canvas_height ;;
  id <- fresh ;;
  let canvasTexture :=
    mkTexture id width height (preferredCanvasFormat env)
      (canvas_usage (directOutput this)) in
  call env (GetCurrentTexture canvasTexture) ;;;
  outputTexture <- getOrCreateTexture this "outputTexture" (width, height)
    output_usage ;;
  commandEncoder <- createCommandEncoder env ;;
  call env (SetInputDimensions processingWidth processingHeight) ;;;
  call env (Blur commandEncoder sourceTexture maskTexture
    (if directOutput this then canvasTexture else outputTexture) 360) ;;;
  (if negb (directOutput this) then
     r <- getOrCreateResource (renderPipelineKey width height)
       (call env (AwaitPromise "outputRendererVertexShader") ;;;
        fragment <- getOutputRendererFragmentShader width height ;;
        id <- fresh ;;
        call env (CreateRenderPipeline
          (mkRenderPipelineDescriptor "auto"
             (outputRendererVertexShader this) fragment
             (preferredCanvasFormat env) "triangle-list") id) ;;;
        ret (RPipeline id)) ;;
     renderPipeline <- as_pipeline r ;;
     layout <- fresh ;;
     call env (GetBindGroupLayout renderPipeline 0 layout) ;;;
     outputView <- createView env outputTexture ;;
     renderBindGroup <- fresh ;;
     call env (CreateBindGroup layout
       [(0, BindTextureView outputView);
        (1, BindSampler (renderSampler this))] renderBindGroup) ;;;
     canvasView <- createView env canvasTexture ;;
     renderPass <- fresh ;;
     call env (BeginRenderPass commandEncoder
       [canvas_attachment canvasView] renderPass) ;;;
     call env (SetPipeline renderPass renderPipeline) ;;;
     call env (SetBindGroup renderPass 0 (Some renderBindGroup)) ;;;
     call env (Draw renderPass 6 None) ;;;
     call env (PassEnd renderPass)
   else ret tt) ;;;
  submit env commandEncoder.

Definition render (this : WebGPURenderer) (videoFrame : VideoFrame)
    : M VideoFrame :=
  sourceTexture <- import_source this videoFrame ;;
  maskTexture <- segment this sourceTexture ;;
  let processingWidth := js_or (displayWidth videoFrame) 1280 in
  let processingHeight := js_or (displayHeight videoFrame) 720 in
  update_canvas_size this processingWidth processingHeight ;;;
  blur_and_render_to_canvas this processingWidth processingHeight
    sourceTexture maskTexture ;;;
  cw <- gets canvas_width ;;
  ch <- gets canvas_height ;;
  let out := mkVideoFrame cw ch (timestamp videoFrame) (duration videoFrame) in
  call env (NewVideoFrameFromCanvas out) ;;;
  ret out.

(** [createWebGPUBlurRenderer(device, segmenter, zeroCopy, directOutput)] *)
Definition createWebGPUBlurRenderer (zeroCopy directOutput : bool)
    : M WebGPURenderer :=
  call env (NewWebGPUBlur zeroCopy directOutput) ;;;
  call env BlurInit ;;;
  constructor zeroCopy directOutput.

End WithEnv.

End Class.

(** ** The settings menu of the page (the script of the third source file)

    The script is one closure over two variables, [hideTimer] and
    [videoRunning]; what it changes besides them are the class lists of the
    settings form and of the float button, and the timeouts of the window.
    Its listeners are the inputs of a state machine. *)

Module Menu.

(** [startButton], [stopButton] and [processedVideo] are looked up by id
    and may be missing: their listeners are registered under [if]. *)
Record Page := mkPage {
  has_startButton : bool;
  has_stopButton : bool;
  has_processedVideo : bool
}.

(** [form_hidden]: the settings form has the class [hidden];
    [float_visible]: the float button has the class [visible];
    [timers]: the timeouts of the window that have neither fired nor been
    cleared, with their delay in milliseconds; [next_timer]: the handle the
    next [setTimeout] returns (handles are positive integers). *)
Record State := mkState {
  form_hidden : bool;
  float_visible : bool;
  hideTimer : option positive;
  videoRunning : bool;
  timers : gmap positive N;
  next_timer : positive
}.

Definition set_form_hidden (b : bool) (s : State) : State :=
  mkState b (float_visible s) (hideTimer s) (videoRunning s) (timers s)
    (next_timer s).

Definition set_float_visible (b : bool) (s : State) : State :=
  mkState (form_hidden s) b (hideTimer s) (videoRunning s) (timers s)
    (next_timer s).

Definition set_hideTimer (t : option positive) (s : State) : State :=
  mkState (form_hidden s) (float_visible s) t (videoRunning s) (timers s)
    (next_timer s).

Definition set_videoRunning (b : bool) (s : State) : State :=
  mkState (form_hidden s) (float_visible s) (hideTimer s) b (timers s)
    (next_timer s).

(** [setTimeout(callback, delay)]: the only callback of the script is the
    one of [resetHideTimer]. *)
Definition setTimeout (delay : N) (s : State) : positive * State :=
  (next_timer s,
   mkState (form_hidden s) (float_visible s) (hideTimer s) (videoRunning s)
     (<[next_timer s := delay]> (timers s)) (Pos.succ (next_timer s))).

(** [clearTimeout(id)]: nothing happens for a handle that is not pending. *)
Definition clearTimeout (id : positive) (s : State) : State :=
  mkState (form_hidden s) (float_visible s) (hideTimer s) (videoRunning s)
    (delete id (timers s)) (next_timer s).

(** A timeout that fires is no longer pending. *)
Definition expire (id : positive) (s : State) : State :=
  mkState (form_hidden s) (float_visible s) (hideTimer s) (videoRunning s)
    (delete id (timers s)) (next_timer s).

Definition showMenu (s : State) : State :=
  set_float_visible false (set_form_hidden false s).

Definition hideMenu (s : State) : State := set_form_hidden true s.

Definition showFloatBtn (s : State) : State := set_float_visible true s.

Definition hideFloatBtn (s : State) : State := set_float_visible false s.

(** [if (hideTimer) { clearTimeout(hideTimer); hideTimer = null; }] *)
Definition clearHideTimer (s : State) : State :=
  match hideTimer s with
  | Some id => set_hideTimer None (clearTimeout id s)
  | None => s
  end.

Definition resetHideTimer (s : State) : State :=
  if negb (videoRunning s) then s
  else
    let s := clearHideTimer (showMenu s) in
    let '(id, s) := setTimeout 5000 s in
    set_hideTimer (Some id) s.

(** The callback of the timeout; it leaves [hideTimer] as it is. *)
Definition hide_callback (s : State) : State := showFloatBtn (hideMenu s).

(** The listeners, in the order of the script. *)
Definition on_start (s : State) : State :=
  resetHideTimer (set_videoRunning true s).

Definition on_stop (s : State) : State :=
  hideFloatBtn (showMenu (clearHideTimer (set_videoRunning false s))).

Definition on_playing : State → State := on_start.
Definition on_pause : State → State := on_stop.
Definition on_ended : State → State := on_stop.

Definition on_mouseenter (s : State) : State := clearHideTimer s.

Definition on_mouseleave (s : State) : State :=
  if videoRunning s then resetHideTimer s else s.

Definition on_mousemove (s : State) : State :=
  if negb (videoRunning s) then s
  else if form_hidden s then showFloatBtn s
  else resetHideTimer s.

Definition on_float_click (s : State) : State :=
  resetHideTimer (hideFloatBtn (showMenu s)).

(** The click listener of the document; the two flags are
    [settingsForm.contains(e.target)] and [floatBtn.contains(e.target)]. *)
Definition on_document_click (in_form in_float : bool) (s : State) : State :=
  if negb (videoRunning s) then s
  else if in_form || in_float then s
  else clearHideTimer (showFloatBtn (hideMenu s)).

Definition on_load (page : Page) (paused ended : bool) (s : State) : State :=
  if has_processedVideo page && negb paused && negb ended
  then resetHideTimer (set_videoRunning true s)
  else hideFloatBtn (showMenu (set_videoRunning false s)).

(** The elements a click can pass on its way up to the document. *)
Inductive Element :=
| StartButton | StopButton | FloatBtn | SettingsForm | ProcessedVideo
| OtherElement.

Definition is_form (el : Element) : bool :=
  match el with SettingsForm => true | _ => false end.

Definition is_float (el : Element) : bool :=
  match el with FloatBtn => true | _ => false end.

(** The click listener registered on an element, if any, and whether it
    calls [e.stopPropagation()]. *)
Definition click_listener (page : Page) (el : Element) (s : State)
    : State * bool :=
  match el with
  | StartButton => (if has_startButton page then on_start s else s, false)
  | StopButton => (if has_stopButton page then on_stop s else s, false)
  | FloatBtn => (on_float_click s, true)
  | SettingsForm => (s, true)
  | ProcessedVideo | OtherElement => (s, false)
  end.

(** A click bubbles from its target through the ancestors [rest] still
    ahead; the document comes last.  [path] is the whole way, target
    first: an element contains the target when it is on it. *)
Fixpoint bubble (page : Page) (path rest : list Element) (s : State)
    : State :=
  match rest with
  | [] =>
      on_document_click (existsb is_form path) (existsb is_float path) s
  | el :: rest' =>
      let '(s', stop) := click_listener page el s in
      if stop then s' else bubble page path rest' s'
  end.

Definition click (page : Page) (path : list Element) (s : State) : State :=
  bubble page path path s.

(** What can happen to the page.  The media events reach a listener only
    when the video element exists; a timeout fires only while pending. *)
Inductive Input :=
| Click (path : list Element)
| Playing | Pause | Ended
| MouseEnter | MouseLeave | MouseMove
| Load (paused ended : bool)
| TimerFires (id : positive).

Definition step (page : Page) (i : Input) (s : State) : State :=
  match i with
  | Click path => click page path s
  | Playing => if has_processedVideo page then on_playing s else s
  | Pause => if has_processedVideo page then on_pause s else s
  | Ended => if has_processedVideo page then on_ended s else s
  | MouseEnter => on_mouseenter s
  | MouseLeave => on_mouseleave s
  | MouseMove => on_mousemove s
  | Load paused ended => on_load page paused ended s
  | TimerFires id =>
      match timers s !! id with
      | Some _ => hide_callback (expire id s)
      | None => s
      end
  end.

Definition run (page : Page) (inputs : list Input) (s : State) : State :=
  foldl (λ s i, step page i s) s inputs.

(** The state when the script has run: no timer, the video taken as not
    running, and the class lists as the page's markup has them. *)
Definition init (hidden visible : bool) : State :=
  mkState hidden visible None false ∅ 1.

End Menu.

Local Open Scope js_scope.

(** * Specifications *)

(** ** Vocabulary of the specifications *)

(** How often a character occurs in a string. *)
Fixpoint occurs (c : ascii) (s : string) : nat :=
  match s with
  | EmptyString => 0%nat
  | String a s' => ((if Ascii.eqb a c then 1 else 0) + occurs c s')%nat
  end.

Definition is_digit (c : ascii) : bool :=
  bool_decide (c ∈ ["0"; "1"; "2"; "3"; "4"; "5"; "6"; "7"; "8"; "9"]%char).

(** The cache discipline: a texture sits under a texture key that spells its
    own size, a buffer under a readback key, a pipeline under a pipeline
    key. *)
Definition key_ok (k : string) (r : Resource) : Prop :=
  match r with
  | RTexture t =>
      ∃ name fmt u, occurs "_" name = 0%nat ∧
        k = textureCacheKey name (tex_width t) (tex_height t) fmt u
  | RBuffer b => ∃ n, k = readbackBufferKey n
  | RPipeline p => ∃ w h, k = renderPipelineKey w h
  end.

Definition cache_wf (c : gmap string Resource) : Prop :=
  ∀ k r, c !! k = Some r → key_ok k r.

(** The postcondition [Q] holds of the outcome of [m] run on [h]. *)
Definition wp {A} (m : M A) (h : Heap)
    (Q : Result A → Heap → list Event → Prop) : Prop :=
  Q (result (m h)) (heap (m h)) (events (m h)).

(** No external call fails from time [t] on. *)
Definition nofault_from (env : Env) (t : nat) : Prop :=
  ∀ t' e, (t ≤ t')%nat → fault env t' e = false.

(** The key a creation message announces: both renderers log the key
    before they invoke a constructor for it. *)
Definition created_key (e : Event) : option string :=
  match e with
  | ConsoleLog msg k =>
      if bool_decide (msg ∈ ["Creating new resource for ";
                             "Creating new texture for ";
                             "Creating new resource";
                             "Creating new texture"])
      then Some k else None
  | _ => None
  end.

Definition logs_fresh (c : gmap string Resource) (e : Event) : Prop :=
  ∀ k, created_key e = Some k → c !! k = None.

Definition destroys_cached (e : Event) : bool :=
  match e with DestroyCached _ => true | _ => false end.

(** What is the same before and after every part of a frame but the
    canvas resize. *)
Definition steady (h h' : Heap) : Prop :=
  (clock h ≤ clock h')%nat ∧ segmenter h' = segmenter h ∧
  canvas_width h' = canvas_width h ∧ canvas_height h' = canvas_height h.

(** Under the cache discipline nothing cached is lost, replaced or
    destroyed, and constructors run only for keys not yet cached. *)
Definition cache_kept (h h' : Heap) (evs : list Event) : Prop :=
  cache_wf (resourceCache h) →
    cache_wf (resourceCache h') ∧ resourceCache h ⊆ resourceCache h' ∧
    Forall (λ e, destroys_cached e = false) evs ∧
    Forall (logs_fresh (resourceCache h)) evs.

(** ** Classes of events *)

Definition cache_event (e : Event) : bool :=
  match e with
  | ConsoleLog _ _ | CreateTexture _ | DestroyCached _ => true
  | _ => false
  end.

(** What [getOrCreateTexture] guarantees for the request
    [(key, w, ht, fmt, usage)]. *)
Definition texture_post (env : Env) (key : string) (w ht : N) (fmt : string)
    (usage : N) (h : Heap) (r : Result GPUTexture) (h' : Heap)
    (evs : list Event) : Prop :=
  steady h h' ∧
  Forall (λ e, cache_event e = true) evs ∧
  (∀ t, r = Val t →
     resourceCache h' !! textureCacheKey key w ht fmt usage
       = Some (RTexture t) ∧
     tex_width t = w ∧ tex_height t = ht) ∧
  (occurs "_" key = 0%nat →
     cache_kept h h' evs ∧
     (cache_wf (resourceCache h) → nofault_from env (clock h) →
      ∃ t, r = Val t)).

(** What a use of [getOrCreateResource] guarantees. *)
Definition resource_post (env : Env) (cls : Event → bool) (key : string)
    (h : Heap) (r : Result Resource) (h' : Heap) (evs : list Event) : Prop :=
  steady h h' ∧
  Forall (λ e, cls e = true) evs ∧
  (∀ a, r = Val a → resourceCache h' !! key = Some a) ∧
  cache_kept h h' evs ∧
  (cache_wf (resourceCache h) → nofault_from env (clock h) → ∃ a, r = Val a).

(** What such a use asks of the constructor it is given. *)
Definition constructor_post (env : Env) (cls : Event → bool) (key : string)
    (h : Heap) (r : Result Resource) (h' : Heap) (evs : list Event) : Prop :=
  steady h h' ∧ resourceCache h' = resourceCache h ∧
  Forall (λ e, cls e = true) evs ∧
  Forall (λ e, destroys_cached e = false) evs ∧
  Forall (λ e, created_key e = None) evs ∧
  (∀ a, r = Val a → key_ok key a) ∧
  (nofault_from env (clock h) → ∃ a, r = Val a).

(** What every part of a frame guarantees: its events are of the class
    [cls] and the cache is kept. *)
Definition phase_post (cls : Event → bool) {A} (h : Heap) (r : Result A)
    (h' : Heap) (evs : list Event) : Prop :=
  steady h h' ∧ Forall (λ e, cls e = true) evs ∧ cache_kept h h' evs.

Definition import_event (e : Event) : bool :=
  match e with
  | ConsoleLog _ _ | CreateTexture _ | DestroyCached _
  | ImportExternalTexture _ _ | CopyExternalImageToTexture _ _ _ _ => true
  | _ => false
  end.

Definition segment_event (e : Event) : bool :=
  match e with
  | ConsoleLog _ _ | ConsoleWarn _ _ | CreateTexture _ | DestroyCached _
  | GetBindGroupLayout _ _ _ | CreateView _ | CreateBindGroup _ _ _
  | CreateCommandEncoder _ | BeginComputePass _ _ | SetPipeline _ _
  | SetBindGroup _ _ _ | DispatchWorkgroups _ _ _ | PassEnd _
  | CreateBuffer _ | CopyTextureToBuffer _ _ _ _ _ _ | EncoderFinish _
  | QueueSubmit _ | MapAsync _ _ | NewImageData _ _ | GetMappedRange _
  | ImageDataSet _ | Unmap _ | SegmenterCall _ | QueueWriteTexture _ _ _ _
  | AwaitPromise _ | SegmenterSegment _ | SegmenterGetInputBuffer _
  | BufferDestroy _ | SegmenterSegmentGPUBuffer | SegmenterGetOutputBuffer _
  | CopyBufferToTexture _ _ _ _ _ _ => true
  | _ => false
  end.

Definition blur_event (e : Event) : bool :=
  match e with
  | ConsoleLog _ _ | CreateTexture _ | DestroyCached _ | GetCurrentTexture _
  | CreateCommandEncoder _ | SetInputDimensions _ _ | Blur _ _ _ _ _
  | CreateShaderModule _ _ | CreateRenderPipeline _ _
  | GetBindGroupLayout _ _ _ | CreateView _ | CreateBindGroup _ _ _
  | BeginRenderPass _ _ _ | SetPipeline _ _ | SetBindGroup _ _ _
  | Draw _ _ _ | PassEnd _ | EncoderFinish _ | QueueSubmit _
  | AwaitPromise _ | Fetch _ => true
  | _ => false
  end.

(** A block that leaves the cache alone. *)
Definition quiet_post (cls : Event → bool) {A} (h : Heap) (r : Result A)
    (h' : Heap) (evs : list Event) : Prop :=
  steady h h' ∧ resourceCache h' = resourceCache h ∧
  Forall (λ e, cls e = true) evs ∧
  Forall (λ e, destroys_cached e = false) evs ∧
  Forall (λ e, created_key e = None) evs.

Definition resize_event (e : Event) : bool :=
  match e with
  | CanvasSetWidth _ | CanvasSetHeight _ | ContextConfigure _ _ => true
  | _ => false
  end.

(** What the canvas resize guarantees: the cache is untouched and, when it
    returns, the canvas has the processing size. *)
Definition resize_post (pw ph : N) (h : Heap) (r : Result unit) (h' : Heap)
    (evs : list Event) : Prop :=
  (clock h ≤ clock h')%nat ∧ segmenter h' = segmenter h ∧
  resourceCache h' = resourceCache h ∧
  Forall (λ e, resize_event e = true) evs ∧
  (r = Val tt → canvas_width h' = pw ∧ canvas_height h' = ph).

(** What a whole frame guarantees about the heap. *)
Definition frame_post {A} (h : Heap) (r : Result A) (h' : Heap)
    (evs : list Event) : Prop :=
  (clock h ≤ clock h')%nat ∧ segmenter h' = segmenter h ∧
  cache_kept h h' evs.

Definition buffer_event (e : Event) : bool :=
  match e with ConsoleLog _ _ | CreateBuffer _ => true | _ => false end.

Definition pipeline_event (e : Event) : bool :=
  match e with
  | ConsoleLog _ _ | AwaitPromise _ | Fetch _ | CreateShaderModule _ _
  | CreateRenderPipeline _ _ => true
  | _ => false
  end.

Definition bind_event (e : Event) : bool :=
  match e with
  | ConsoleWarn _ _ | GetBindGroupLayout _ _ _ | CreateView _
  | CreateBindGroup _ _ _ => true
  | _ => false
  end.

(** ** What the properties observe in the events of a frame *)

(** The CPU readback of the downscaled frame. *)
Definition is_readback (e : Event) : bool :=
  match e with
  | CopyTextureToBuffer _ _ _ _ _ _ | MapAsync _ _ | GetMappedRange _
  | Unmap _ => true
  | _ => false
  end.

(** The GPU-native exchange with the segmenter. *)
Definition is_interop (e : Event) : bool :=
  match e with
  | SegmenterGetInputBuffer _ | SegmenterSegmentGPUBuffer
  | SegmenterGetOutputBuffer _ | CopyBufferToTexture _ _ _ _ _ _ => true
  | _ => false
  end.

Definition is_dispatch (e : Event) : bool :=
  match e with DispatchWorkgroups _ _ _ => true | _ => false end.

Definition is_bind_group (e : Event) : bool :=
  match e with CreateBindGroup _ _ _ => true | _ => false end.

(** The bind group of the downscale pass is the one with a binding 2, the
    storage destination; the composite pass binds 0 and 1 only. *)
Definition is_pack_bind_group (e : Event) : bool :=
  match e with
  | CreateBindGroup _ entries _ => existsb (λ entry, entry.1 =? 2) entries
  | _ => false
  end.

(** The steps of the segmentation bridge the properties speak of. *)
Definition is_segment_step (e : Event) : bool :=
  is_dispatch e || is_readback e || is_interop e.

Definition is_draw (e : Event) : bool :=
  match e with Draw _ _ _ => true | _ => false end.

Definition is_render_pass (e : Event) : bool :=
  match e with BeginRenderPass _ _ _ => true | _ => false end.

Definition is_blur_engine (e : Event) : bool :=
  match e with SetInputDimensions _ _ | Blur _ _ _ _ _ => true | _ => false end.

Definition is_surface (e : Event) : bool :=
  match e with GetCurrentTexture _ => true | _ => false end.

(** The steps of the blur and composite stage the properties speak of. *)
Definition is_output_step (e : Event) : bool :=
  is_surface e || is_blur_engine e || is_render_pass e || is_draw e.

(** The output steps of a frame that completes: the surface texture [ct]
    is acquired, the blur engine is told the processing size and run once
    into [ct] (direct output) or [out], and only without direct output one
    render pass on a view [vid] of [ct] draws six vertices. *)
Definition output_steps (directOutput : bool) (pw ph : N)
    (src : SourceTexture) (mask ct out : GPUTexture) (enc vid pass : N)
    : list Event :=
  [GetCurrentTexture ct; SetInputDimensions pw ph;
   Blur enc src mask (if directOutput then ct else out) 360] ++
  (if directOutput then []
   else [BeginRenderPass enc
           [mkColorAttachment (mkView vid ct) (0, 0, 0, 1) "clear" "store"]
           pass;
         Draw pass 6 None]).

(** The source a frame was imported as agrees with [zeroCopy]. *)
Definition source_ok (zeroCopy : bool) (src : SourceTexture) : Prop :=
  match src with
  | ExternalTexture _ => zeroCopy = true
  | SourceTexture2D _ => zeroCopy = false
  end.

(** What the blur and composite stage guarantees: the output steps it has
    taken are an initial part of [output_steps], all of them when it
    returns; [out] has the requested size [(kw, kh)] and is the object
    cached under the output texture key. *)
Definition blur_detail (d : bool) (kw kh : N) (fmt : string) (pw ph : N)
    (src : SourceTexture) (mask : GPUTexture) (h : Heap) (r : Result unit)
    (h' : Heap) (evs : list Event) : Prop :=
  ∃ ct out enc vid pass,
    List.filter is_output_step evs
      `prefix_of` output_steps d pw ph src mask ct out enc vid pass ∧
    tex_width ct = canvas_width h ∧ tex_height ct = canvas_height h ∧
    (r = Val tt →
       List.filter is_output_step evs
         = output_steps d pw ph src mask ct out enc vid pass ∧
       tex_width out = kw ∧ tex_height out = kh ∧
       (cache_wf (resourceCache h) →
          resourceCache h' !!
            textureCacheKey "outputTexture" kw kh fmt
              (N.lor GPUTextureUsage.STORAGE_BINDING
                 (N.lor GPUTextureUsage.COPY_SRC
                    GPUTextureUsage.TEXTURE_BINDING))
            = Some (RTexture out) ∧
          (d = false →
             ∃ p, resourceCache h' !! renderPipelineKey kw kh
                    = Some (RPipeline p)))).

Definition default_texture : GPUTexture := mkTexture 0 0 0 "" 0.

(** What importing the frame guarantees about the source it returns:
    it agrees with [zeroCopy] and, when copied, it is the texture cached
    under the source key of the frame's size. *)
Definition import_detail (zeroCopy : bool) (fmt : string)
    (f : VideoFrame) {A} (h : Heap) (r : Result SourceTexture) (h' : Heap)
    (evs : A) : Prop :=
  ∀ src, r = Val src →
    source_ok zeroCopy src ∧
    (zeroCopy = false →
       ∃ t, src = SourceTexture2D t ∧
         resourceCache h' !!
           textureCacheKey "sourceTexture" (displayWidth f) (displayHeight f)
             fmt
             (N.lor GPUTextureUsage.TEXTURE_BINDING
                (N.lor GPUTextureUsage.COPY_DST
                   GPUTextureUsage.RENDER_ATTACHMENT))
           = Some (RTexture t) ∧
         tex_width t = displayWidth f ∧ tex_height t = displayHeight f).

(** What a frame guarantees about its output: the output steps taken are
    an initial part of [output_steps] at the processing size, and all of
    them when a frame is returned; that frame has the processing size and
    the timestamp and duration of the incoming one; the surface texture
    and the intermediate texture have the processing size; and the source,
    the intermediate texture and the pipeline are the cached objects. *)
Definition frame_output (d z : bool) (fmt : string) (f : VideoFrame)
    (h : Heap) (returned : VideoFrame → Prop) (h' : Heap)
    (evs : list Event) : Prop :=
  let pw := js_or (displayWidth f) 1280 in
  let ph := js_or (displayHeight f) 720 in
  ∃ src mask ct out enc vid pass,
    List.filter is_output_step evs
      `prefix_of` output_steps d pw ph src mask ct out enc vid pass ∧
    ∀ frame, returned frame →
      List.filter is_output_step evs
        = output_steps d pw ph src mask ct out enc vid pass ∧
      frame = mkVideoFrame pw ph (timestamp f) (duration f) ∧
      canvas_width h' = pw ∧ canvas_height h' = ph ∧
      tex_width ct = pw ∧ tex_height ct = ph ∧
      tex_width out = pw ∧ tex_height out = ph ∧
      source_ok z src ∧
      (cache_wf (resourceCache h) →
         resourceCache h' !!
           textureCacheKey "outputTexture" pw ph fmt
             (N.lor GPUTextureUsage.STORAGE_BINDING
                (N.lor GPUTextureUsage.COPY_SRC
                   GPUTextureUsage.TEXTURE_BINDING))
           = Some (RTexture out) ∧
         (d = false →
            ∃ p, resourceCache h' !! renderPipelineKey pw ph
                   = Some (RPipeline p)) ∧
         (z = false →
            ∃ t, src = SourceTexture2D t ∧
              resourceCache h' !!
                textureCacheKey "sourceTexture" (displayWidth f)
                  (displayHeight f) fmt
                  (N.lor GPUTextureUsage.TEXTURE_BINDING
                     (N.lor GPUTextureUsage.COPY_DST
                        GPUTextureUsage.RENDER_ATTACHMENT))
                = Some (RTexture t) ∧
              tex_width t = displayWidth f ∧
              tex_height t = displayHeight f)).

Definition default_source : SourceTexture := ExternalTexture 0.

(** The segmentation steps of a frame that completes on the CPU path: one
    dispatch, then the readback of the downscaled texture. *)
Definition readback_steps (sw sh pass enc : N) (dest : GPUTexture)
    (buf : GPUBuffer) : list Event :=
  [DispatchWorkgroups pass (Math_ceil_div sw 8) (Math_ceil_div sh 8);
   CopyTextureToBuffer enc dest buf (sw * 4) sw sh;
   MapAsync buf GPUMapMode.READ; GetMappedRange buf; Unmap buf].

(** And on the GPU-native path: the segmenter's input buffer is fetched,
    one dispatch, inference, and the output buffer copied into the mask. *)
Definition interop_steps (sw sh inbuf pass outbuf enc : N)
    (mask : GPUTexture) : list Event :=
  [SegmenterGetInputBuffer inbuf;
   DispatchWorkgroups pass (Math_ceil_div sw 8) (Math_ceil_div sh 8);
   SegmenterSegmentGPUBuffer; SegmenterGetOutputBuffer outbuf;
   CopyBufferToTexture enc outbuf (sw * 2) mask sw sh].

(** What a frame guarantees about segmentation: the steps taken are an
    initial part of the steps of the selected path, all of them when the
    computation returns. *)
Definition segment_detail (interop : bool) (sw sh : N) (returned : Prop)
    (evs : list Event) : Prop :=
  ∃ pass enc dest buf inbuf outbuf enc2 mask,
    let steps :=
      if interop then interop_steps sw sh inbuf pass outbuf enc2 mask
      else readback_steps sw sh pass enc dest buf in
    List.filter is_segment_step evs `prefix_of` steps ∧
    (returned → List.filter is_segment_step evs = steps).

Definition default_buffer : GPUBuffer := mkBuffer 0 0 0.

(** What [segment] guarantees about the pack bind group: it is created at
    most once, with the [texture] member of the downscale resource as
    binding 2, and exactly once when [segment] returns. *)
Definition pack_bind_group_detail (interop : bool) (sampler : N)
    (returned : Prop) (evs : list Event) : Prop :=
  ∃ layout b0 t group,
    let created :=
      [CreateBindGroup layout
         [(0, b0); (1, BindSampler sampler);
          (2, if interop then BindUndefined else BindTexture t)] group] in
    List.filter is_pack_bind_group evs `prefix_of` created ∧
    (returned → List.filter is_pack_bind_group evs = created).

(** ** Concrete frames, segmenters and environments *)

(** An environment in which nothing fails: the browser prefers
    [bgra8unorm] and the CPU segmenter answers with a 64 by 36 mask. *)
Definition calm : Env :=
  mkEnv (λ _ _, false) "bgra8unorm" true ["bgra8unorm-storage"] true
    (λ _, mkImageData 64 36).

(** An environment in which [createBindGroup] throws until time [t]. *)
Definition bind_groups_fail_until (t : nat) : Env :=
  mkEnv (λ now e, (now <? t)%nat && is_bind_group e) "bgra8unorm" true
    ["bgra8unorm-storage"] true (λ _, mkImageData 64 36).

Definition cpu_segmenter : Segmenter := mkSegmenter false "cpu".
Definition gpu_segmenter : Segmenter := mkSegmenter true "gpu".

Definition frame_720p : VideoFrame :=
  mkVideoFrame 1280 720 0 (Some 33333%Z).
Definition frame_1080p : VideoFrame :=
  mkVideoFrame 1920 1080 33333 (Some 33333%Z).

(** A renderer right after construction: the canvas is 1280 by 720 and
    the cache is empty. *)
Definition started (sg : Segmenter) : Heap :=
  mkHeap 0 10 1280 720 sg ∅ None None None None.

Definition closure_params (zeroCopy directOutput : bool) : Closure.Params :=
  Closure.mkParams zeroCopy directOutput 256 144 1 2 3 4.

Definition class_renderer (zeroCopy directOutput : bool)
    : Class.WebGPURenderer :=
  Class.mkWebGPURenderer zeroCopy directOutput
    (if directOutput then "bgra8unorm" else "rgba8unorm") 256 144
    (mkImageData 256 144) 1
    "blur4/shaders/downscale-and-convert-to-rgba8uint.wgsl"
    [("inputTextureType",
      if zeroCopy then "texture_external" else "texture_2d<f32>");
     ("outputTextureFormat",
      if directOutput then "bgra8unorm" else "rgba8unorm")]
    2 3 4.

(** The value a computation returned, if it returned. *)
Definition returned {A} (r : Result A) : option A :=
  match r with Val a => Some a | Throw _ => None end.

(** A texture of the segmentation size or a buffer is created. *)
Definition creates_segmentation_resource (e : Event) : bool :=
  match e with
  | CreateTexture t => (tex_width t =? 256) && (tex_height t =? 144)
  | CreateBuffer _ => true
  | _ => false
  end.

(** ** The properties, as predicates on one frame *)

Definition is_composite (e : Event) : bool := is_render_pass e || is_draw e.

(** Compositing in one frame: nothing with direct output; otherwise at
    most one draw, and when a frame is returned exactly one render pass on
    a view of the surface texture acquired in this frame, clearing to
    opaque black, followed by one draw of six vertices. *)
Definition composite_draws (directOutput : bool) (returned : Prop)
    (evs : list Event) : Prop :=
  if directOutput then List.filter is_composite evs = []
  else
    (length (List.filter is_draw evs) ≤ 1)%nat ∧
    (returned →
       ∃ ct enc vid pass,
         List.filter is_surface evs = [GetCurrentTexture ct] ∧
         List.filter is_composite evs =
           [BeginRenderPass enc
              [mkColorAttachment (mkView vid ct) (0, 0, 0, 1) "clear" "store"]
              pass;
            Draw pass 6 None]).

(** The blur engine in one frame: told the processing size, then run at
    most once, with kernel parameter 360; when a frame is returned it ran
    exactly once, into the surface texture acquired in this frame (direct
    output) or into the texture cached under the output key, which has the
    processing size. *)
Definition blur_invocation (directOutput : bool) (fmt : string)
    (f : VideoFrame) (returned : Prop) (h h' : Heap) (evs : list Event)
    : Prop :=
  let pw := js_or (displayWidth f) 1280 in
  let ph := js_or (displayHeight f) 720 in
  ∃ src mask ct out enc,
    let invoked :=
      [SetInputDimensions pw ph;
       Blur enc src mask (if directOutput then ct else out) 360] in
    List.filter is_blur_engine evs `prefix_of` invoked ∧
    (returned →
       List.filter is_blur_engine evs = invoked ∧
       List.filter is_surface evs = [GetCurrentTexture ct] ∧
       tex_width out = pw ∧ tex_height out = ph ∧
       (cache_wf (resourceCache h) →
          resourceCache h' !!
            textureCacheKey "outputTexture" pw ph fmt
              (N.lor GPUTextureUsage.STORAGE_BINDING
                 (N.lor GPUTextureUsage.COPY_SRC
                    GPUTextureUsage.TEXTURE_BINDING))
            = Some (RTexture out))).

(** The downscale dispatch in one frame: at most one, always on the grid
    of the segmentation size, and exactly one when a frame is returned. *)
Definition dispatch_grid (sw sh : N) (returned : Prop) (evs : list Event)
    : Prop :=
  (length (List.filter is_dispatch evs) ≤ 1)%nat ∧
  (∀ pass x y, DispatchWorkgroups pass x y ∈ evs →
     x = Math_ceil_div sw 8 ∧ y = Math_ceil_div sh 8) ∧
  (returned →
     ∃ pass, List.filter is_dispatch evs =
       [DispatchWorkgroups pass (Math_ceil_div sw 8) (Math_ceil_div sh 8)]).

(** The size-dependent resources of frame [f], cached under the keys that
    spell its size. *)
Definition sized_resources (d z : bool) (fmt : string) (f : VideoFrame)
    (c : gmap string Resource) : Prop :=
  let pw := js_or (displayWidth f) 1280 in
  let ph := js_or (displayHeight f) 720 in
  (∃ out,
     c !! textureCacheKey "outputTexture" pw ph fmt
            (N.lor GPUTextureUsage.STORAGE_BINDING
               (N.lor GPUTextureUsage.COPY_SRC GPUTextureUsage.TEXTURE_BINDING))
       = Some (RTexture out) ∧
     tex_width out = pw ∧ tex_height out = ph) ∧
  (d = false →
     ∃ p, c !! renderPipelineKey pw ph = Some (RPipeline p)) ∧
  (z = false →
     ∃ t,
       c !! textureCacheKey "sourceTexture" (displayWidth f)
              (displayHeight f) fmt
              (N.lor GPUTextureUsage.TEXTURE_BINDING
                 (N.lor GPUTextureUsage.COPY_DST
                    GPUTextureUsage.RENDER_ATTACHMENT))
         = Some (RTexture t) ∧
       tex_width t = displayWidth f ∧ tex_height t = displayHeight f).

(** Nothing cached in [c] is lost, replaced, destroyed or constructed
    again on the way to [c'] through the events [evs]. *)
Definition nothing_reallocated (c c' : gmap string Resource)
    (evs : list Event) : Prop :=
  cache_wf c' ∧ c ⊆ c' ∧
  Forall (λ e, destroys_cached e = false) evs ∧
  Forall (logs_fresh c) evs.

(** Two frames blurred the same objects: the same output texture, and the
    same source texture when frames are copied rather than imported. *)
Definition same_objects (d z : bool) (f : VideoFrame)
    (evs1 evs2 : list Event) : Prop :=
  let pw := js_or (displayWidth f) 1280 in
  let ph := js_or (displayHeight f) 720 in
  ∃ src1 src2 mask1 mask2 ct1 ct2 out enc1 enc2 vid1 vid2 pass1 pass2,
    List.filter is_output_step evs1
      = output_steps d pw ph src1 mask1 ct1 out enc1 vid1 pass1 ∧
    List.filter is_output_step evs2
      = output_steps d pw ph src2 mask2 ct2 out enc2 vid2 pass2 ∧
    (z = false → src1 = src2).

(** The events of a cache miss: the creation is announced, then the
    texture is made with the requested size, format and usage. *)
Definition miss_events (msg key : string) (t : GPUTexture)
    (evs : list Event) : Prop :=
  evs = [ConsoleLog msg key] ∨ evs = [ConsoleLog msg key; CreateTexture t].

(** The events of a size mismatch: after the announcement [logs] the old
    texture is destroyed, and only then the new one is made. *)
Definition release_then_allocate (logs : list Event) (t t' : GPUTexture)
    (evs : list Event) : Prop :=
  evs = logs ++ [DestroyCached (RTexture t)] ∨
  evs = logs ++ [DestroyCached (RTexture t); CreateTexture t'].

(** A texture of the segmentation size is created. *)
Definition creates_downscale_target (e : Event) : bool :=
  match e with
  | CreateTexture t => (tex_width t =? 256) && (tex_height t =? 144)
  | _ => false
  end.

(** A constructor is announced. *)
Definition announces_creation (e : Event) : bool :=
  bool_decide (is_Some (created_key e)).

(** ** Vocabulary for the further properties *)

(** The string [`${width}x${height}`] the closure-based renderer keeps in
    [lastDim]. *)
Definition dim_string (width height : N) : string :=
  pretty width +:+ "x" +:+ pretty height.

(** The bind group of the downscale pass failed, or a pass was given its
    bind group. *)
Definition is_bind_step (e : Event) : bool :=
  match e with
  | ConsoleWarn msg _ => String.eqb msg "bind failed:"
  | SetBindGroup _ _ _ => true
  | _ => false
  end.

(** What the downscale pass of the closure-based renderer binds: the
    group that was made, or nothing after the failure [x] was logged. *)
Definition bind_steps (group : option N) (x : Exn) (pass : N) : list Event :=
  match group with
  | Some g => [SetBindGroup pass 0 (Some g)]
  | None => [ConsoleWarn "bind failed:" x; SetBindGroup pass 0 None]
  end.

(** The time of the [createBindGroup] call of the closure's downscale
    pass, the clock counting external calls: before it the frame calls
    [createTexture] when the downscale destination is not cached yet,
    [getBindGroupLayout], [createView] on the source unless frames are
    imported without a copy, and [createView] on the destination. *)
Definition bind_group_time (env : Env) (params : Closure.Params) (h : Heap)
    : nat :=
  ((match resourceCache h !!
           textureCacheKey "downscaleDest" (Closure.segmentationWidth params)
             (Closure.segmentationHeight params)
             (Closure.getTextureFormat env (Closure.directOutput params))
             Closure.downscale_usage with
    | Some _ => 0
    | None => 1
    end) + (if Closure.zeroCopy params then 2 else 3) + clock h)%nat.

(** An environment in which the external call made at time [t] fails and
    no other. *)
Definition fails_at (t : nat) : Env :=
  mkEnv (λ now _, (now =? t)%nat) "bgra8unorm" true ["bgra8unorm-storage"]
    true (λ _, mkImageData 64 36).

(** The exchange of buffers with a GPU segmenter. *)
Definition is_buffer_step (e : Event) : bool :=
  match e with
  | BufferDestroy _ | SegmenterSegmentGPUBuffer | SegmenterGetOutputBuffer _
  | CopyBufferToTexture _ _ _ _ _ _ => true
  | _ => false
  end.

Definition creates_texture (e : Event) : bool :=
  match e with CreateTexture _ => true | _ => false end.

Definition is_feature_log (e : Event) : bool :=
  match e with ConsoleLog msg _ => String.eqb msg "- " | _ => false end.

(** What [createWebGPUBlurRenderer] of the closure-based renderer says
    about the adapter, and its request for a device. *)
Definition is_adapter_step (e : Event) : bool :=
  match e with
  | ConsoleLog msg _ =>
      String.eqb msg "- " || String.eqb msg "BGRA8UNORM-STORAGE not supported"
  | RequestDevice _ => true
  | _ => false
  end.

Definition adapter_steps (features : list string) : list Event :=
  (ConsoleLog "- " <$> features) ++
  (if bool_decide ("bgra8unorm-storage" ∈ features) then []
   else [ConsoleLog "BGRA8UNORM-STORAGE not supported" ""]) ++
  [RequestDevice ["bgra8unorm-storage"]].

(** A renderer as its constructor leaves it: nothing cached, the canvas
    1280 by 720. *)
Definition fresh_renderer (h h' : Heap) : Prop :=
  (clock h ≤ clock h')%nat ∧ resourceCache h' = ∅ ∧
  canvas_width h' = 1280 ∧ canvas_height h' = 720 ∧
  segmenter h' = segmenter h.

(** What passes between the renderer and a CPU segmenter. *)
Definition is_cpu_flow (e : Event) : bool :=
  match e with
  | NewImageData _ _ | ImageDataSet _ | SegmenterCall _ | SegmenterSegment _
  | QueueWriteTexture _ _ _ _ => true
  | _ => false
  end.

(** In the closure-based renderer: a new image of the segmentation size
    is filled from the readback buffer and given to the segmenter, whose
    answer is written into [mask] with four bytes per pixel. *)
Definition closure_cpu_flow (sw sh : N) (answer : ImageData)
    (mask : GPUTexture) : list Event :=
  [NewImageData sw sh; ImageDataSet (mkImageData sw sh);
   SegmenterCall (mkImageData sw sh);
   QueueWriteTexture mask (img_width answer * 4) (img_width answer)
     (img_height answer)].

(** In the class-based renderer the image is the one the constructor
    made. *)
Definition class_cpu_flow (img answer : ImageData) (mask : GPUTexture)
    : list Event :=
  [ImageDataSet img; SegmenterSegment img;
   QueueWriteTexture mask (img_width answer * 4) (img_width answer)
     (img_height answer)].

(** ** Vocabulary for the settings menu *)

(** Every pending timeout is the one [hideTimer] holds and was set for
    five seconds. *)
Definition menu_tracked (s : Menu.State) : Prop :=
  ∀ id d, Menu.timers s !! id = Some d →
    Menu.hideTimer s = Some id ∧ d = 5000.

(** Moreover a timeout is pending only while the menu is shown. *)
Definition menu_timer_inv (s : Menu.State) : Prop :=
  menu_tracked s ∧ (Menu.timers s ≠ ∅ → Menu.form_hidden s = false).

(** Exactly one of the menu and the float button is shown. *)
Definition menu_exclusive (s : Menu.State) : Prop :=
  Menu.float_visible s = Menu.form_hidden s.

(** A timeout is pending only while the video is taken as running, and
    while it is not the menu is shown and the float button is not. *)
Definition menu_idle_inv (s : Menu.State) : Prop :=
  (Menu.timers s ≠ ∅ → Menu.videoRunning s = true) ∧
  (Menu.videoRunning s = false →
   Menu.form_hidden s = false ∧ Menu.float_visible s = false).

Definition is_load (i : Menu.Input) : bool :=
  match i with Menu.Load _ _ => true | _ => false end.

Definition is_stop (el : Menu.Element) : bool :=
  match el with Menu.StopButton => true | _ => false end.

(** * Proofs *)

(** ** Cache keys *)

Lemma occurs_app c s1 s2 :
  occurs c (s1 +:+ s2) = (occurs c s1 + occurs c s2)%nat.
Proof. induction s1 as [|a s1 IH]; simpl; [done|]. rewrite IH. lia. Qed.

Lemma split_at_char c a1 a2 r1 r2 :
  occurs c a1 = 0%nat → occurs c a2 = 0%nat →
  a1 +:+ String c r1 = a2 +:+ String c r2 → a1 = a2 ∧ r1 = r2.
Proof.
  revert a2. induction a1 as [|x a1 IH]; intros [|y a2]; simpl.
  - intros _ _ [= ->]. done.
  - intros _ Hy [= <- _]. rewrite Ascii.eqb_refl in Hy. lia.
  - intros Hx _ [= -> _]. rewrite Ascii.eqb_refl in Hx. lia.
  - intros Hx Hy [= -> Hr].
    destruct (IH a2) as [-> ->]; [| |done..].
    + destruct (Ascii.eqb y c); simpl in *; lia.
    + destruct (Ascii.eqb y c); simpl in *; lia.
Qed.

Lemma pretty_N_char_digit x c :
  is_digit c = false → Ascii.eqb (pretty_N_char x) c = false.
Proof.
  intros Hc. apply Ascii.eqb_neq. intros <-.
  revert Hc. unfold pretty_N_char. by repeat case_match.
Qed.

Lemma occurs_pretty_N_go c x s :
  is_digit c = false → occurs c (pretty_N_go x s) = occurs c s.
Proof.
  intros Hc. revert s. induction (N.lt_wf_0 x) as [x _ IH]; intros s.
  destruct (decide (x = 0)) as [->|Hx].
  - by rewrite pretty_N_go_0.
  - rewrite pretty_N_go_step by lia. rewrite IH.
    + simpl. by rewrite pretty_N_char_digit.
    + apply N.div_lt; lia.
Qed.

Lemma occurs_pretty c (n : N) :
  is_digit c = false → occurs c (pretty n) = 0%nat.
Proof.
  intros Hc. unfold pretty, pretty_N. case_decide.
  - cbn [occurs]. destruct (Ascii.eqb_spec "0"%char c) as [<-|]; done.
  - by rewrite occurs_pretty_N_go.
Qed.

Lemma textureCacheKey_inj k1 k2 w1 w2 h1 h2 f1 f2 u1 u2 :
  occurs "_" k1 = 0%nat → occurs "_" k2 = 0%nat →
  textureCacheKey k1 w1 h1 f1 u1 = textureCacheKey k2 w2 h2 f2 u2 →
  k1 = k2 ∧ w1 = w2 ∧ h1 = h2.
Proof.
  unfold textureCacheKey. intros H1 H2 E.
  apply (split_at_char "_") in E as [-> E]; [|done..].
  apply (split_at_char "x") in E as [Ew E]; [|by apply occurs_pretty..].
  apply (split_at_char "_") in E as [Eh E]; [|by apply occurs_pretty..].
  by simplify_eq.
Qed.

Lemma occurs_textureCacheKey k w h f u :
  (3 ≤ occurs "_" (textureCacheKey k w h f u))%nat.
Proof.
  unfold textureCacheKey. rewrite !occurs_app.
  rewrite !(occurs_pretty "_") by done. simpl. lia.
Qed.

Lemma occurs_readbackBufferKey n : occurs "_" (readbackBufferKey n) = 0%nat.
Proof.
  unfold readbackBufferKey. rewrite occurs_app, occurs_pretty by done. done.
Qed.

Lemma occurs_renderPipelineKey w h :
  occurs "_" (renderPipelineKey w h) = 1%nat.
Proof.
  unfold renderPipelineKey. rewrite !occurs_app, !occurs_pretty by done. done.
Qed.

(** ** Rules of the weakest precondition *)

Section Rules.
Context {A B : Type}.
Implicit Types (h : Heap) (Q : Result B → Heap → list Event → Prop).

Lemma wp_mono (m : M A) h (P Q' : Result A → Heap → list Event → Prop) :
  wp m h P → (∀ r h' e, P r h' e → Q' r h' e) → wp m h Q'.
Proof. unfold wp. auto. Qed.

Lemma wp_bind (m : M A) (f : A → M B) h Q :
  wp m h (λ r h1 e1,
    match r with
    | Val a => wp (f a) h1 (λ r2 h2 e2, Q r2 h2 (e1 ++ e2))
    | Throw x => Q (Throw x) h1 e1
    end) →
  wp (bind m f) h Q.
Proof. unfold wp, bind. by destruct (result (m h)). Qed.

Lemma wp_use (m : M A) (f : A → M B) h P Q :
  wp m h P →
  (∀ r h1 e1, P r h1 e1 →
    match r with
    | Val a => wp (f a) h1 (λ r2 h2 e2, Q r2 h2 (e1 ++ e2))
    | Throw x => Q (Throw x) h1 e1
    end) →
  wp (bind m f) h Q.
Proof. intros Hm HP. apply wp_bind. eapply wp_mono; [exact Hm|]. exact HP. Qed.

Lemma wp_bind_ret (a : A) (f : A → M B) h Q :
  wp (f a) h Q → wp (bind (ret a) f) h Q.
Proof. unfold wp, bind, ret. simpl. by destruct (f a h). Qed.

Lemma wp_bind_throw (x : Exn) (f : A → M B) h Q :
  Q (Throw x) h [] → wp (bind (throw x) f) h Q.
Proof. done. Qed.

Lemma wp_bind_gets (g : Heap → A) (f : A → M B) h Q :
  wp (f (g h)) h Q → wp (bind (gets g) f) h Q.
Proof. unfold wp, bind, gets. simpl. by destruct (f (g h) h). Qed.

Lemma wp_bind_gets_as (g : Heap → A) (v : A) (f : A → M B) h Q :
  g h = v → wp (f v) h Q → wp (bind (gets g) f) h Q.
Proof. intros <-. apply wp_bind_gets. Qed.
End Rules.

Section Rules1.
Context {B : Type}.
Implicit Types (h : Heap) (Q : Result B → Heap → list Event → Prop).

Lemma wp_ret (a : B) h Q : Q (Val a) h [] → wp (ret a) h Q.
Proof. done. Qed.

Lemma wp_throw (x : Exn) h Q : Q (Throw x) h [] → wp (throw x) h Q.
Proof. done. Qed.

Lemma wp_bind_modify (g : Heap → Heap) (f : unit → M B) h Q :
  wp (f tt) (g h) Q → wp (bind (modify g) f) h Q.
Proof. unfold wp, bind, modify. simpl. by destruct (f tt (g h)). Qed.

Lemma wp_bind_fresh (f : N → M B) h Q :
  wp (f (next_id h)) (bump h) Q → wp (bind fresh f) h Q.
Proof. unfold wp, bind, fresh. simpl. by destruct (f _ _). Qed.

Lemma wp_bind_emit (e : Event) (f : unit → M B) h Q :
  wp (f tt) h (λ r h' es, Q r h' (e :: es)) → wp (bind (emit e) f) h Q.
Proof. done. Qed.

Lemma wp_bind_call env (e : Event) (f : unit → M B) h Q :
  (fault env (clock h) e = true → Q (Throw (ExternalError (clock h))) (tick h) [e]) →
  (fault env (clock h) e = false →
     wp (f tt) (tick h) (λ r h' es, Q r h' (e :: es))) →
  wp (bind (call env e) f) h Q.
Proof.
  unfold wp, bind, call. simpl. destruct (fault env (clock h) e); auto.
Qed.

Lemma wp_call env (e : Event) h (Q : Result unit → Heap → list Event → Prop) :
  (fault env (clock h) e = true → Q (Throw (ExternalError (clock h))) (tick h) [e]) →
  (fault env (clock h) e = false → Q (Val tt) (tick h) [e]) →
  wp (call env e) h Q.
Proof. unfold wp, call. simpl. destruct (fault env (clock h) e); auto. Qed.

Lemma wp_emit (e : Event) h (Q : Result unit → Heap → list Event → Prop) :
  Q (Val tt) h [e] → wp (emit e) h Q.
Proof. done. Qed.

Lemma wp_try_catch (m : M B) (handler : Exn → M B) h Q :
  wp m h (λ r h1 e1,
    match r with
    | Val a => Q (Val a) h1 e1
    | Throw x => wp (handler x) h1 (λ r2 h2 e2, Q r2 h2 (e1 ++ e2))
    end) →
  wp (try_catch m handler) h Q.
Proof. unfold wp, try_catch. by destruct (m h) as [[a|x] h1 e1]. Qed.
End Rules1.

Lemma wp_bind_assoc {A B C} (m : M A) (f : A → M B) (g : B → M C) h Q :
  wp (bind m (λ x, bind (f x) g)) h Q → wp (bind (bind m f) g) h Q.
Proof.
  unfold wp, bind. destruct (m h) as [[a|x] h1 e1]; simpl; [|done].
  destruct (f a h1) as [[b|x] h2 e2]; simpl; [|done].
  by rewrite app_assoc.
Qed.

(** Reading a field through the heap updates made so far. *)
Ltac heap_read :=
  cbn [clock next_id canvas_width canvas_height segmenter resourceCache
       outputRendererFragmentShader lastDim lastDimArray maskTexture
       tick bump set_canvas_width set_canvas_height set_segmenter
       set_resourceCache cache_store set_fragmentShader set_maskTexture].

Ltac wp_beta :=
  cbv beta iota zeta;
  try change (negb true) with false; try change (negb false) with true;
  cbv beta iota zeta.

(** One step of symbolic execution.  At an exit the goal is the
    postcondition itself and no step applies. *)
Ltac wp_step :=
  wp_beta;
  lazymatch goal with
  | |- wp (bind (bind _ _) _) _ _ => apply wp_bind_assoc
  | |- wp (bind (ret _) _) _ _ => apply wp_bind_ret
  | |- wp (bind (throw _) _) _ _ => apply wp_bind_throw
  | |- wp (bind (gets _) _) _ _ =>
      eapply wp_bind_gets_as; [heap_read; reflexivity|]
  | |- wp (bind (modify _) _) _ _ => apply wp_bind_modify
  | |- wp (bind fresh _) _ _ => apply wp_bind_fresh
  | |- wp (bind (emit _) _) _ _ => apply wp_bind_emit
  | |- wp (bind (call _ _) _) _ _ => apply wp_bind_call; intros ?
  | |- wp (bind (try_catch _ _) _) _ _ => apply wp_bind; apply wp_try_catch
  | |- wp (try_catch _ _) _ _ => apply wp_try_catch
  | |- wp (bind (createView _ _) _) _ _ => unfold createView at 1
  | |- wp (bind (createCommandEncoder _) _) _ _ =>
      unfold createCommandEncoder at 1
  | |- wp (bind (submit _ _) _) _ _ => unfold submit at 1
  | |- wp (submit _ _) _ _ => unfold submit at 1
  | |- wp (ret _) _ _ => apply wp_ret
  | |- wp (throw _) _ _ => apply wp_throw
  | |- wp (emit _) _ _ => apply wp_emit
  | |- wp (call _ _) _ _ => apply wp_call; intros ?
  | |- wp (bind (if ?b then _ else _) _) _ _ => destruct b eqn:?
  | |- wp (if ?b then _ else _) _ _ => destruct b eqn:?
  | |- wp (bind (match ?x with _ => _ end) _) _ _ => destruct x eqn:?
  | |- wp (match ?x with _ => _ end) _ _ => destruct x eqn:?
  end.

Ltac wp_run fin := repeat wp_step; wp_beta; fin.

(** ** The cache discipline *)

Lemma cache_wf_empty : cache_wf ∅.
Proof. intros k r. by rewrite lookup_empty. Qed.

Lemma cache_wf_insert c k r :
  cache_wf c → key_ok k r → cache_wf (<[k:=r]> c).
Proof.
  intros Hc Hk k' r'. rewrite lookup_insert.
  case_decide; [intros [= <-]; by subst|]. apply Hc.
Qed.

Lemma wf_lookup_texture c name w ht f u r :
  cache_wf c → occurs "_" name = 0%nat →
  c !! textureCacheKey name w ht f u = Some r →
  ∃ t, r = RTexture t ∧ tex_width t = w ∧ tex_height t = ht.
Proof.
  intros Hc Hn Hl. specialize (Hc _ _ Hl). destruct r as [t|b|p]; simpl in Hc.
  - destruct Hc as (n' & f' & u' & Hn' & E).
    apply textureCacheKey_inj in E as (_ & -> & ->); eauto.
  - destruct Hc as [n E]. apply (f_equal (occurs "_")) in E.
    pose proof (occurs_textureCacheKey name w ht f u).
    rewrite occurs_readbackBufferKey in E. lia.
  - destruct Hc as (w' & h' & E). apply (f_equal (occurs "_")) in E.
    pose proof (occurs_textureCacheKey name w ht f u).
    rewrite occurs_renderPipelineKey in E. lia.
Qed.

Lemma wf_lookup_buffer c n r :
  cache_wf c → c !! readbackBufferKey n = Some r → ∃ b, r = RBuffer b.
Proof.
  intros Hc Hl. specialize (Hc _ _ Hl). destruct r as [t|b|p]; simpl in Hc.
  - destruct Hc as (n' & f' & u' & Hn' & E).
    apply (f_equal (occurs "_")) in E.
    pose proof (occurs_textureCacheKey n' (tex_width t) (tex_height t) f' u').
    rewrite occurs_readbackBufferKey in E. lia.
  - eauto.
  - destruct Hc as (w' & h' & E). apply (f_equal (occurs "_")) in E.
    rewrite occurs_readbackBufferKey, occurs_renderPipelineKey in E. lia.
Qed.

Lemma wf_lookup_pipeline c w ht r :
  cache_wf c → c !! renderPipelineKey w ht = Some r → ∃ p, r = RPipeline p.
Proof.
  intros Hc Hl. specialize (Hc _ _ Hl). destruct r as [t|b|p]; simpl in Hc.
  - destruct Hc as (n' & f' & u' & Hn' & E).
    apply (f_equal (occurs "_")) in E.
    pose proof (occurs_textureCacheKey n' (tex_width t) (tex_height t) f' u').
    rewrite occurs_renderPipelineKey in E. lia.
  - destruct Hc as [n E]. apply (f_equal (occurs "_")) in E.
    rewrite occurs_readbackBufferKey, occurs_renderPipelineKey in E. lia.
  - eauto.
Qed.

Lemma steady_refl h : steady h h.
Proof. by repeat split. Qed.

Lemma steady_trans h1 h2 h3 : steady h1 h2 → steady h2 h3 → steady h1 h3.
Proof.
  intros (?&?&?&?) (?&?&?&?). repeat split; [lia|congruence..].
Qed.

Lemma logs_fresh_weaken c c' e : c ⊆ c' → logs_fresh c' e → logs_fresh c e.
Proof.
  intros Hs Hf k Hk. specialize (Hf k Hk).
  destruct (c !! k) eqn:E; [|done].
  eapply lookup_weaken in E; [|done]. congruence.
Qed.

Lemma cache_kept_refl h : cache_kept h h [].
Proof. intros Hwf. repeat split; auto. Qed.

Lemma cache_kept_trans h1 h2 h3 e1 e2 :
  cache_kept h1 h2 e1 → cache_kept h2 h3 e2 → cache_kept h1 h3 (e1 ++ e2).
Proof.
  intros H1 H2 Hwf. destruct (H1 Hwf) as (Hwf2 & Hs1 & Hd1 & Hl1).
  destruct (H2 Hwf2) as (Hwf3 & Hs2 & Hd2 & Hl2).
  split_and!; [done|by etrans|by apply Forall_app|].
  apply Forall_app. split; [done|].
  eapply Forall_impl; [exact Hl2|]. intros e. by apply logs_fresh_weaken.
Qed.

(** A step that neither touches the cache nor logs a creation. *)
Lemma cache_kept_step h h' e :
  resourceCache h' = resourceCache h → destroys_cached e = false →
  created_key e = None → cache_kept h h' [e].
Proof.
  intros Hc Hd Hk Hwf. rewrite Hc. split_and!; [done|done|by constructor|].
  constructor; [|done]. intros k. by rewrite Hk.
Qed.

Lemma cache_kept_silent h h' :
  resourceCache h' = resourceCache h → cache_kept h h' [].
Proof. intros Hc Hwf. rewrite Hc. by split_and!. Qed.

Lemma steady_step h h' :
  (clock h ≤ clock h')%nat → segmenter h' = segmenter h →
  canvas_width h' = canvas_width h → canvas_height h' = canvas_height h →
  steady h h'.
Proof. by repeat split. Qed.

(** A texture freshly stored under its own key. *)
Lemma cache_kept_create h h' key w ht fmt usage id msg :
  occurs "_" key = 0%nat →
  resourceCache h !! textureCacheKey key w ht fmt usage = None →
  created_key (ConsoleLog msg (textureCacheKey key w ht fmt usage))
    = Some (textureCacheKey key w ht fmt usage) →
  resourceCache h' =
    <[textureCacheKey key w ht fmt usage :=
        RTexture (mkTexture id w ht fmt usage)]> (resourceCache h) →
  cache_kept h h'
    [ConsoleLog msg (textureCacheKey key w ht fmt usage);
     CreateTexture (mkTexture id w ht fmt usage)].
Proof.
  intros Hk Hnone Hmsg Hc Hwf. rewrite Hc. split_and!.
  - apply cache_wf_insert; [done|]. simpl. eauto.
  - by apply insert_subseteq.
  - by repeat constructor.
  - repeat constructor; [|done]. intros k. rewrite Hmsg. by intros [= <-].
Qed.

Lemma cache_kept_attempt h h' k msg t :
  resourceCache h !! k = None → created_key (ConsoleLog msg k) = Some k →
  resourceCache h' = resourceCache h →
  cache_kept h h' [ConsoleLog msg k; CreateTexture t].
Proof.
  intros Hnone Hmsg Hc Hwf. rewrite Hc.
  split_and!; [done|done|by repeat constructor|].
  repeat constructor; [|done]. intros k'. rewrite Hmsg. by intros [= <-].
Qed.

Ltac steady_tac :=
  first [apply steady_refl | apply steady_step; simpl; [lia|done..]].

Ltac nofault_contra :=
  lazymatch goal with
  | Hf : fault ?env ?t ?e = true, Hn : nofault_from ?env _ |- _ =>
      exfalso; rewrite Hn in Hf by (simpl; lia); discriminate
  end.

Lemma closure_getOrCreateTexture_spec env key w ht d usage h :
  wp (Closure.getOrCreateTexture env key (w, ht) d usage) h
     (texture_post env key w ht (Closure.getTextureFormat env d) usage h).
Proof.
  unfold Closure.getOrCreateTexture, Closure.createTexture, texture_post.
  set (k := textureCacheKey _ _ _ _ _).
  apply wp_bind_gets. destruct (resourceCache h !! k) as [r|] eqn:Hl.
  - assert (Hwf : cache_wf (resourceCache h) → occurs "_" key = 0%nat →
             ∃ t, r = RTexture t ∧ tex_width t = w ∧ tex_height t = ht).
    { intros. by eapply wf_lookup_texture. }
    destruct r as [t|b|p].
    + destruct (negb (tex_width t =? w) || negb (tex_height t =? ht)) eqn:Hm.
      * wp_run ltac:(idtac).
        all: split_and!;
          [steady_tac|by repeat constructor|
           try (by intros ? [=])|].
        all: try (intros Hk; split; [intros Hc|intros Hc];
          destruct (Hwf Hc Hk) as (? & [= <-] & <- & <-);
          rewrite !N.eqb_refl in Hm; discriminate).
        intros ? [= <-]. simpl. by rewrite lookup_insert_eq.
      * wp_run ltac:(idtac).
        apply orb_false_elim in Hm as [Hw Hh].
        apply negb_false_iff, N.eqb_eq in Hw, Hh.
        split_and!; [apply steady_refl|constructor|by intros ? [= <-]|].
        intros Hk. split; [apply cache_kept_refl|eauto].
    + wp_run ltac:(idtac).
      all: split_and!;
        [steady_tac|by repeat constructor|
         try (by intros ? [=])|].
      all: try (intros Hk; split; [intros Hc|intros Hc];
        by destruct (Hwf Hc Hk) as (? & [=] & _)).
      intros ? [= <-]. simpl. by rewrite lookup_insert_eq.
    + wp_run ltac:(idtac).
      split_and!; [apply steady_refl|by repeat constructor|by intros ? [=]|].
      intros Hk; split; [intros Hc|intros Hc];
        by destruct (Hwf Hc Hk) as (? & [=] & _).
  - wp_run ltac:(idtac).
    + split_and!; [steady_tac|by repeat constructor|by intros ? [=]|].
      intros Hk. split; [by apply cache_kept_attempt|].
      intros _ Hn. nofault_contra.
    + split_and!; [steady_tac|by repeat constructor| |].
      * intros ? [= <-]. simpl. by rewrite lookup_insert_eq.
      * intros Hk. split; [by apply cache_kept_create|eauto].
Qed.

Lemma nofault_from_mono env t t' :
  nofault_from env t → (t ≤ t')%nat → nofault_from env t'.
Proof. intros H ? t'' e ?. apply H. lia. Qed.

Lemma cache_kept_cons h h' e l :
  destroys_cached e = false → created_key e = None →
  cache_kept h h' l → cache_kept h h' (e :: l).
Proof.
  intros Hd Hk Hl Hwf. destruct (Hl Hwf) as (?&?&?&?).
  split_and!; [done|done|by constructor|].
  constructor; [|done]. intros k. by rewrite Hk.
Qed.

Lemma cache_kept_same h h' h1 h1' evs :
  resourceCache h1 = resourceCache h → resourceCache h1' = resourceCache h' →
  cache_kept h h' evs → cache_kept h1 h1' evs.
Proof. unfold cache_kept. intros -> ->. done. Qed.

(** Facts a texture request leaves in the context. *)
Ltac use_texture_post HP :=
  let Hst := fresh "Hst" in let Hev := fresh "Hev" in
  let Hres := fresh "Hres" in let Hk := fresh "Hk" in
  let Hkept := fresh "Hkept" in let Hsucc := fresh "Hsucc" in
  let H1 := fresh "Hclk" in let H2 := fresh "Hseg" in
  let H3 := fresh "Hcw" in let H4 := fresh "Hch" in
  destruct HP as (Hst & Hev & Hres & Hk);
  destruct (Hk eq_refl) as [Hkept Hsucc]; clear Hk;
  destruct Hst as (H1 & H2 & H3 & H4);
  simpl in H1, H2, H3, H4, Hres, Hsucc.

Ltac wp_texture H :=
  wp_beta;
  lazymatch goal with
  | |- wp (bind _ _) _ _ =>
      eapply wp_use; [eapply H|];
      let r := fresh "r" in let HP := fresh "HP" in
      intros r ? ? HP; use_texture_post HP; destruct r as [?|?]
  end.

Lemma Forall_logs_none c evs :
  Forall (λ e, created_key e = None) evs → Forall (logs_fresh c) evs.
Proof.
  intros H. eapply Forall_impl; [exact H|]. intros e He k. by rewrite He.
Qed.

Lemma closure_getOrCreateResource_spec env cls key createFn h :
  cls (ConsoleLog "Creating new resource for " key) = true →
  wp createFn h (constructor_post env cls key h) →
  wp (Closure.getOrCreateResource key createFn) h
     (resource_post env cls key h).
Proof.
  intros Hcls Hc. unfold Closure.getOrCreateResource.
  apply wp_bind_gets. destruct (resourceCache h !! key) as [r|] eqn:Hl.
  - apply wp_ret. split_and!; eauto using steady_refl, cache_kept_refl.
    by intros ? [= <-].
  - apply wp_bind_emit. eapply wp_use; [exact Hc|].
    intros r h1 e1 (Hst & Hsame & Hev & Hnd & Hnl & Hok & Hsucc).
    destruct r as [a|x].
    + wp_run ltac:(idtac). rewrite app_nil_r. split_and!.
      * destruct Hst as (?&?&?&?). by apply steady_step.
      * by constructor.
      * intros ? [= <-]. simpl. by rewrite lookup_insert_eq.
      * intros Hwf. simpl. rewrite Hsame. split_and!.
        -- apply cache_wf_insert; eauto.
        -- by apply insert_subseteq.
        -- by constructor.
        -- constructor; [|by apply Forall_logs_none].
           intros k. simpl. by intros [= <-].
      * eauto.
    + split_and!; [done|by constructor|by intros ? [=]| |].
      * intros Hwf. rewrite Hsame. split_and!; [done|done|by constructor|].
        constructor; [|by apply Forall_logs_none].
        intros k. simpl. by intros [= <-].
      * intros _ Hn. destruct (Hsucc Hn) as [? [=]].
Qed.

(** ** Automation for the parts of a frame *)

Ltac steady_goal :=
  unfold steady in *; simpl in *; split_and!; first [lia | congruence].

Ltac forall_goal :=
  repeat first
    [ apply Forall_nil_2
    | apply Forall_cons_2; [reflexivity|]
    | apply Forall_app_2
    | assumption
    | match goal with
      | H : Forall _ ?l |- Forall _ ?l =>
          eapply Forall_impl; [exact H|]; by intros []
      end ].

Ltac kept_goal :=
  repeat first
    [ apply cache_kept_cons; [reflexivity|reflexivity|]
    | eapply cache_kept_trans;
        [eapply cache_kept_same; [| |eassumption]; reflexivity|] ];
  first [ apply cache_kept_silent; reflexivity
        | eapply cache_kept_same; [| |eassumption]; reflexivity ].

Ltac phase_fin :=
  unfold phase_post; split_and!; [steady_goal|forall_goal|kept_goal].

Lemma closure_import_source_phase env params f h :
  wp (Closure.import_source env params f) h (phase_post import_event h).
Proof.
  unfold Closure.import_source.
  destruct (Closure.zeroCopy params).
  - wp_run phase_fin.
  - wp_texture closure_getOrCreateTexture_spec; [|phase_fin].
    wp_run phase_fin.
Qed.

Lemma quiet_kept cls {A} h (r : Result A) h' evs :
  quiet_post cls h r h' evs → cache_kept h h' evs.
Proof.
  intros (_ & Hc & _ & Hd & Hl) Hwf. rewrite Hc.
  split_and!; [done|done|done|by apply Forall_logs_none].
Qed.

Ltac quiet_fin :=
  unfold quiet_post;
  split_and!; [steady_goal|reflexivity|forall_goal|forall_goal|forall_goal].

Ltac constructor_fin :=
  unfold constructor_post;
  split_and!;
    [steady_goal|reflexivity|forall_goal|forall_goal|forall_goal
    |try (by intros ? [=]); intros ? [= <-]; simpl; eauto
    |try (intros; nofault_contra); eauto].

Lemma closure_readback_constructor env n h :
  wp (id <- fresh ;;
      call env (CreateBuffer (mkBuffer id n Closure.readback_usage)) ;;;
      ret (RBuffer (mkBuffer id n Closure.readback_usage))) h
    (constructor_post env buffer_event (readbackBufferKey n) h).
Proof. wp_run constructor_fin. Qed.

(** The bind group block of [scale_down_and_segment] never throws. *)
Lemma closure_bind_group_quiet env params src dest h :
  wp (try_catch
    (layout <- fresh ;;
     call env (GetBindGroupLayout (Closure.downscalePipeline params) 0 layout) ;;;
     b0 <- Closure.source_binding env (Closure.zeroCopy params) src ;;
     v2 <- createView env dest ;;
     group <- fresh ;;
     call env (CreateBindGroup layout
       [(0, b0); (1, BindSampler (Closure.downscaleSampler params));
        (2, BindTextureView v2)] group) ;;;
     ret (Some group))
    (fun error => emit (ConsoleWarn "bind failed:" error) ;;; ret None)) h
   (λ r h' evs, quiet_post bind_event h r h' evs ∧ ∃ g, r = Val g).
Proof.
  unfold Closure.source_binding.
  wp_run ltac:(split; [quiet_fin|eauto]).
Qed.

(** Using a specification [H] whose postcondition is [quiet_post] (possibly
    with more) or [resource_post]. *)
Ltac wp_quiet H :=
  wp_beta;
  eapply wp_use; [eapply H|];
  let r := fresh "r" in let HP := fresh "HP" in
  intros r ? ? HP.

Ltac use_resource_post HP :=
  let Hst := fresh "Hst" in let Hev := fresh "Hev" in
  let Hres := fresh "Hres" in
  let Hkept := fresh "Hkept" in let Hsucc := fresh "Hsucc" in
  let H1 := fresh "Hclk" in let H2 := fresh "Hseg" in
  let H3 := fresh "Hcw" in let H4 := fresh "Hch" in
  destruct HP as (Hst & Hev & Hres & Hkept & Hsucc);
  destruct Hst as (H1 & H2 & H3 & H4);
  simpl in H1, H2, H3, H4, Hres, Hsucc.

Ltac wp_resource H C :=
  wp_beta;
  eapply wp_use; [eapply H; [|eapply C]; reflexivity|];
  let r := fresh "r" in let HP := fresh "HP" in
  intros r ? ? HP; use_resource_post HP; destruct r as [?|?].

Lemma closure_scale_down_and_segment_phase env params src h :
  wp (Closure.scale_down_and_segment env params src) h
     (phase_post segment_event h).
Proof.
  unfold Closure.scale_down_and_segment.
  wp_texture closure_getOrCreateTexture_spec; [|phase_fin].
  wp_quiet closure_bind_group_quiet.
  destruct HP as [HP [g ->]]. pose proof (quiet_kept _ _ _ _ _ HP).
  destruct HP as ((?&?&?&?)&?&?&?&?).
  repeat wp_step.
  all: try (wp_beta; phase_fin).
  wp_resource closure_getOrCreateResource_spec closure_readback_constructor;
    [|phase_fin].
  unfold Closure.as_buffer, Closure.imageDataCache.
  repeat wp_step.
  all: try (wp_beta; phase_fin).
  wp_texture closure_getOrCreateTexture_spec; [|phase_fin].
  wp_run phase_fin.
Qed.



Lemma closure_pipeline_constructor env params width height h :
  wp (fragment <- Closure.getOutputRendererFragmentShader env width height ;;
      id <- fresh ;;
      call env (CreateRenderPipeline
        (mkRenderPipelineDescriptor "auto"
           (Closure.outputRendererVertexShader params) fragment
           (preferredCanvasFormat env) "triangle-list") id) ;;;
      ret (RPipeline id)) h
    (constructor_post env pipeline_event (renderPipelineKey width height) h).
Proof.
  unfold Closure.getOutputRendererFragmentShader.
  wp_run constructor_fin.
Qed.

Lemma closure_blur_phase env params width height pw ph src mask h :
  wp (Closure.blur_and_render_to_canvas env params width height pw ph
        src mask) h
     (phase_post blur_event h).
Proof.
  unfold Closure.blur_and_render_to_canvas.
  repeat wp_step. all: try (wp_beta; phase_fin).
  wp_texture closure_getOrCreateTexture_spec; [|phase_fin].
  repeat wp_step. all: try (wp_beta; phase_fin).
  wp_resource closure_getOrCreateResource_spec closure_pipeline_constructor;
    [|phase_fin].
  unfold Closure.as_pipeline.
  wp_run phase_fin.
Qed.

Ltac resize_fin :=
  unfold resize_post; simpl;
  split_and!;
    [lia|done|done|forall_goal
    |try (by intros [=]); intros _;
     repeat match goal with
     | H : negb _ || negb _ = false |- _ =>
         apply orb_false_elim in H as [? ?]
     | H : negb (_ =? _) = false |- _ =>
         apply negb_false_iff, N.eqb_eq in H
     end; auto].

Lemma closure_update_canvas_size_spec pw ph h :
  wp (Closure.update_canvas_size pw ph) h (resize_post pw ph h).
Proof. unfold Closure.update_canvas_size. wp_run resize_fin. Qed.

Lemma resize_kept pw ph h r h' evs :
  resize_post pw ph h r h' evs → cache_kept h h' evs.
Proof.
  intros (_ & _ & Hc & Hev & _) Hwf. rewrite Hc.
  split_and!; [done|done|..].
  - eapply Forall_impl; [exact Hev|]. by intros [].
  - eapply Forall_impl; [exact Hev|]. by intros [] ? ?.
Qed.

Ltac use_phase_post HP :=
  let Hst := fresh "Hst" in let Hev := fresh "Hev" in
  let Hkept := fresh "Hkept" in
  let H1 := fresh "Hclk" in let H2 := fresh "Hseg" in
  let H3 := fresh "Hcw" in let H4 := fresh "Hch" in
  destruct HP as (Hst & Hev & Hkept);
  destruct Hst as (H1 & H2 & H3 & H4);
  simpl in H1, H2, H3, H4.

Ltac wp_phase H :=
  wp_beta;
  let r := fresh "r" in let HP := fresh "HP" in
  lazymatch goal with
  | |- wp (bind _ _) _ _ =>
      eapply wp_use; [eapply H|];
      intros r ? ? HP; use_phase_post HP; destruct r as [?|?]
  | |- wp _ _ _ =>
      eapply wp_mono; [eapply H|];
      intros r ? ? HP; use_phase_post HP
  end.

Ltac use_resize_post HP :=
  let Hkept := fresh "Hkept" in
  let H1 := fresh "Hclk" in let H2 := fresh "Hseg" in
  let H3 := fresh "Hsame" in let Hev := fresh "Hev" in
  let Hres := fresh "Hres" in
  pose proof (resize_kept _ _ _ _ _ _ HP) as Hkept;
  destruct HP as (H1 & H2 & H3 & Hev & Hres);
  simpl in H1, H2, H3.

Ltac wp_resize H :=
  wp_beta;
  eapply wp_use; [eapply H|];
  let r := fresh "r" in let HP := fresh "HP" in
  intros r ? ? HP; use_resize_post HP; destruct r as [[]|?].

Ltac frame_fin :=
  unfold frame_post; split_and!; [simpl; lia|simpl; congruence|kept_goal].

Lemma closure_renderWithWebGPU_frame env params f h :
  wp (Closure.renderWithWebGPU env params f) h (frame_post h).
Proof.
  unfold Closure.renderWithWebGPU.
  do 2 wp_step.
  wp_phase closure_import_source_phase; [|frame_fin].
  wp_phase closure_scale_down_and_segment_phase; [|frame_fin].
  wp_resize closure_update_canvas_size_spec; [|frame_fin].
  wp_phase closure_blur_phase; [|frame_fin].
  wp_run frame_fin.
Qed.

(** [render] never throws: whatever [renderWithWebGPU] raises is caught,
    logged with [console.warn] and answered with no frame. *)
Lemma closure_render_frame env params f h :
  wp (Closure.render env params f) h (λ r h' evs,
    frame_post h r h' evs ∧
    ((∃ out, r = Val (Some out) ∧
        result (Closure.renderWithWebGPU env params f h) = Val out) ∨
     (∃ x pre, r = Val None ∧
        result (Closure.renderWithWebGPU env params f h) = Throw x ∧
        evs = pre ++ [ConsoleWarn "WebGPU rendering failed:" x]))).
Proof.
  unfold Closure.render. apply wp_try_catch. apply wp_bind.
  pose proof (closure_renderWithWebGPU_frame env params f h) as HP.
  unfold wp in *.
  destruct (Closure.renderWithWebGPU env params f h) as [[out|x] h1 e1];
    simpl in *.
  - destruct HP as (?&?&?). split; [|eauto].
    rewrite app_nil_r. by split_and!.
  - destruct HP as (?&?&?). split; [|right; eauto].
    split_and!; [done|done|].
    eapply cache_kept_trans; [done|].
    apply cache_kept_cons; [done|done|apply cache_kept_refl].
Qed.

(** ** The class-based renderer: cache functions and parts of a frame *)

Lemma cache_kept_cons_log h h' msg k l :
  created_key (ConsoleLog msg k) = None →
  cache_kept h h' l → cache_kept h h' (ConsoleLog msg k :: l).
Proof. intros. by apply cache_kept_cons. Qed.

Lemma class_getOrCreateTexture_spec env this key w ht usage h :
  wp (Class.getOrCreateTexture env this key (w, ht) usage) h
     (texture_post env key w ht (Class.format this) usage h).
Proof.
  unfold Class.getOrCreateTexture, texture_post.
  set (k := textureCacheKey _ _ _ _ _).
  apply wp_bind_gets. destruct (resourceCache h !! k) as [r|] eqn:Hl.
  - assert (Hwf : cache_wf (resourceCache h) → occurs "_" key = 0%nat →
             ∃ t, r = RTexture t ∧ tex_width t = w ∧ tex_height t = ht).
    { intros. by eapply wf_lookup_texture. }
    destruct r as [t|b|p].
    + destruct (negb (tex_width t =? w) || negb (tex_height t =? ht)) eqn:Hm.
      * wp_run ltac:(idtac).
        all: split_and!;
          [steady_tac|by repeat constructor|
           try (by intros ? [=])|].
        all: try (intros Hk; split; [intros Hc|intros Hc];
          destruct (Hwf Hc Hk) as (? & [= <-] & <- & <-);
          rewrite !N.eqb_refl in Hm; discriminate).
        intros ? [= <-]. simpl. by rewrite lookup_insert_eq.
      * wp_run ltac:(idtac).
        apply orb_false_elim in Hm as [Hw Hh].
        apply negb_false_iff, N.eqb_eq in Hw, Hh.
        split_and!; [apply steady_refl|constructor|by intros ? [= <-]|].
        intros Hk. split; [apply cache_kept_refl|eauto].
    + wp_run ltac:(idtac).
      all: split_and!;
        [steady_tac|by repeat constructor|
         try (by intros ? [=])|].
      all: try (intros Hk; split; [intros Hc|intros Hc];
        by destruct (Hwf Hc Hk) as (? & [=] & _)).
      intros ? [= <-]. simpl. by rewrite lookup_insert_eq.
    + wp_run ltac:(idtac).
      split_and!; [apply steady_refl|by repeat constructor|by intros ? [=]|].
      intros Hk; split; [intros Hc|intros Hc];
        by destruct (Hwf Hc Hk) as (? & [=] & _).
  - wp_run ltac:(idtac).
    + split_and!; [steady_tac|by repeat constructor|by intros ? [=]|].
      intros Hk. split; [by apply cache_kept_attempt|].
      intros _ Hn. nofault_contra.
    + split_and!; [steady_tac|by repeat constructor| |].
      * intros ? [= <-]. simpl. by rewrite lookup_insert_eq.
      * intros Hk. split; [by apply cache_kept_create|eauto].
Qed.

Lemma class_getOrCreateResource_spec env cls key createFn h :
  cls (ConsoleLog "Creating new resource" key) = true →
  wp createFn h (constructor_post env cls key h) →
  wp (Class.getOrCreateResource key createFn) h
     (resource_post env cls key h).
Proof.
  intros Hcls Hc. unfold Class.getOrCreateResource.
  apply wp_bind_gets. destruct (resourceCache h !! key) as [r|] eqn:Hl.
  - apply wp_ret. split_and!; eauto using steady_refl, cache_kept_refl.
    by intros ? [= <-].
  - apply wp_bind_emit. eapply wp_use; [exact Hc|].
    intros r h1 e1 (Hst & Hsame & Hev & Hnd & Hnl & Hok & Hsucc).
    destruct r as [a|x].
    + wp_run ltac:(idtac). rewrite app_nil_r. split_and!.
      * destruct Hst as (?&?&?&?). by apply steady_step.
      * by constructor.
      * intros ? [= <-]. simpl. by rewrite lookup_insert_eq.
      * intros Hwf. simpl. rewrite Hsame. split_and!.
        -- apply cache_wf_insert; eauto.
        -- by apply insert_subseteq.
        -- by constructor.
        -- constructor; [|by apply Forall_logs_none].
           intros k. simpl. by intros [= <-].
      * eauto.
    + split_and!; [done|by constructor|by intros ? [=]| |].
      * intros Hwf. rewrite Hsame. split_and!; [done|done|by constructor|].
        constructor; [|by apply Forall_logs_none].
        intros k. simpl. by intros [= <-].
      * intros _ Hn. destruct (Hsucc Hn) as [? [=]].
Qed.

Lemma class_import_source_phase env this f h :
  wp (Class.import_source env this f) h (phase_post import_event h).
Proof.
  unfold Class.import_source.
  destruct (Class.zeroCopy this).
  - wp_run phase_fin.
  - wp_texture class_getOrCreateTexture_spec; [|phase_fin].
    wp_run phase_fin.
Qed.

Lemma class_readback_constructor env n h :
  wp (id <- fresh ;;
      call env (CreateBuffer (mkBuffer id n Class.readback_usage)) ;;;
      ret (RBuffer (mkBuffer id n Class.readback_usage))) h
    (constructor_post env buffer_event (readbackBufferKey n) h).
Proof. wp_run constructor_fin. Qed.

Lemma class_segment_readback_phase env this enc res h :
  wp (Class.segment_readback env this enc res) h (phase_post segment_event h).
Proof.
  unfold Class.segment_readback.
  wp_resource class_getOrCreateResource_spec class_readback_constructor;
    [|phase_fin].
  unfold Class.as_buffer.
  repeat wp_step. all: try (wp_beta; phase_fin).
  all: (wp_texture class_getOrCreateTexture_spec; [|phase_fin]);
    wp_run phase_fin.
Qed.

Lemma class_segment_interop_phase env this enc res h :
  wp (Class.segment_interop env this enc res) h (phase_post segment_event h).
Proof.
  unfold Class.segment_interop.
  wp_run phase_fin.
Qed.

Lemma class_segment_phase env this src h :
  wp (Class.segment env this src) h (phase_post segment_event h).
Proof.
  unfold Class.segment, Class.source_binding.
  repeat wp_step. all: try (wp_beta; phase_fin).
  all: try (wp_texture class_getOrCreateTexture_spec; [|phase_fin]).
  all: repeat wp_step. all: try (wp_beta; phase_fin).
  all: first [wp_phase class_segment_interop_phase
             |wp_phase class_segment_readback_phase].
  all: phase_fin.
Qed.

Lemma class_pipeline_constructor env this width height h :
  wp (call env (AwaitPromise "outputRendererVertexShader") ;;;
      fragment <- Class.getOutputRendererFragmentShader env width height ;;
      id <- fresh ;;
      call env (CreateRenderPipeline
        (mkRenderPipelineDescriptor "auto"
           (Class.outputRendererVertexShader this) fragment
           (preferredCanvasFormat env) "triangle-list") id) ;;;
      ret (RPipeline id)) h
    (constructor_post env pipeline_event (renderPipelineKey width height) h).
Proof.
  unfold Class.getOutputRendererFragmentShader.
  wp_run constructor_fin.
Qed.

Lemma class_blur_phase env this pw ph src mask h :
  wp (Class.blur_and_render_to_canvas env this pw ph src mask) h
     (phase_post blur_event h).
Proof.
  unfold Class.blur_and_render_to_canvas.
  repeat wp_step. all: try (wp_beta; phase_fin).
  wp_texture class_getOrCreateTexture_spec; [|phase_fin].
  repeat wp_step. all: try (wp_beta; phase_fin).
  wp_resource class_getOrCreateResource_spec class_pipeline_constructor;
    [|phase_fin].
  unfold Class.as_pipeline.
  wp_run phase_fin.
Qed.

Lemma class_update_canvas_size_spec env this pw ph h :
  wp (Class.update_canvas_size env this pw ph) h (resize_post pw ph h).
Proof. unfold Class.update_canvas_size. wp_run resize_fin. Qed.

Lemma class_render_frame env this f h :
  wp (Class.render env this f) h (frame_post h).
Proof.
  unfold Class.render.
  wp_phase class_import_source_phase; [|frame_fin].
  wp_phase class_segment_phase; [|frame_fin].
  wp_resize class_update_canvas_size_spec; [|frame_fin].
  wp_phase class_blur_phase; [|frame_fin].
  wp_run frame_fin.
Qed.

(** ** What the properties observe, part by part *)

Lemma filter_none (f cls : Event → bool) l :
  (∀ e, cls e = true → f e = false) →
  Forall (λ e, cls e = true) l → List.filter f l = [].
Proof.
  intros Hf. induction 1 as [|e l He _ IH]; simpl; [done|].
  by rewrite (Hf e He).
Qed.

Ltac filter_norm :=
  repeat first
    [ progress simpl
    | rewrite List.filter_app
    | match goal with
      | H : Forall (λ e, ?cls e = true) ?l |- context [List.filter ?f ?l] =>
          rewrite (filter_none f cls l) by first [exact H | by intros []]
      end ].

Ltac prefix_goal := filter_norm; eexists; simpl; reflexivity.

Lemma cache_kept_lookup h h' evs k r :
  cache_kept h h' evs → cache_wf (resourceCache h) →
  resourceCache h !! k = Some r → resourceCache h' !! k = Some r.
Proof. intros Hk Hwf Hl. destruct (Hk Hwf) as (_ & Hs & _). by eapply lookup_weaken. Qed.

Lemma cache_kept_wf h h' evs :
  cache_kept h h' evs → cache_wf (resourceCache h) →
  cache_wf (resourceCache h').
Proof. intros Hk Hwf. by destruct (Hk Hwf). Qed.

(** An exit by exception: what was done is an initial part. *)
Ltac blur_throw_fin :=
  wp_beta; do 5 eexists;
  split_and!; [prefix_goal|done|done|by intros [=]].

(** The exit by return, where [getOrCreateTexture] answered [a]. *)
Ltac blur_return_fin :=
  wp_beta;
  lazymatch goal with
  | Hr : ∀ t : GPUTexture, Val ?a = Val t → _ |- _ =>
      let Hc := fresh "Hc" in
      destruct (Hr a eq_refl) as (Hc & ? & ?);
      eexists; exists a; do 3 eexists;
      split_and!; [prefix_goal|done|done|];
      intros _; split_and!; [by filter_norm|done|done|];
      intros Hwf
  end.

Lemma closure_blur_detail env params width height pw ph src mask h :
  wp (Closure.blur_and_render_to_canvas env params width height pw ph
        src mask) h
     (blur_detail (Closure.directOutput params) width height
        (Closure.getTextureFormat env (Closure.directOutput params))
        pw ph src mask h).
Proof.
  unfold Closure.blur_and_render_to_canvas, blur_detail.
  destruct (Closure.directOutput params) eqn:Hd.
  - repeat wp_step; [blur_throw_fin|].
    wp_texture closure_getOrCreateTexture_spec; [|blur_throw_fin].
    repeat wp_step.
    1-5: blur_throw_fin.
    blur_return_fin. by split.
  - repeat wp_step; [blur_throw_fin|].
    wp_texture closure_getOrCreateTexture_spec; [|blur_throw_fin].
    repeat wp_step.
    1-3: blur_throw_fin.
    wp_resource closure_getOrCreateResource_spec closure_pipeline_constructor;
      [|blur_throw_fin].
    unfold Closure.as_pipeline.
    repeat wp_step.
    all: try blur_throw_fin.
    blur_return_fin.
    pose proof (cache_kept_wf _ _ _ Hkept Hwf) as Hwf1.
    split.
    + simpl. eapply cache_kept_lookup; [exact Hkept0|done|done].
    + intros _. eexists. simpl. by apply Hres0.
  Unshelve. all: first [exact 0 | exact default_texture].
Qed.

Lemma class_blur_detail env this pw ph src mask h :
  wp (Class.blur_and_render_to_canvas env this pw ph src mask) h
     (blur_detail (Class.directOutput this) (canvas_width h) (canvas_height h)
        (Class.format this) pw ph src mask h).
Proof.
  unfold Class.blur_and_render_to_canvas, blur_detail.
  destruct (Class.directOutput this) eqn:Hd.
  - repeat wp_step; [blur_throw_fin|].
    wp_texture class_getOrCreateTexture_spec; [|blur_throw_fin].
    repeat wp_step.
    1-5: blur_throw_fin.
    blur_return_fin. by split.
  - repeat wp_step; [blur_throw_fin|].
    wp_texture class_getOrCreateTexture_spec; [|blur_throw_fin].
    repeat wp_step.
    1-3: blur_throw_fin.
    wp_resource class_getOrCreateResource_spec class_pipeline_constructor;
      [|blur_throw_fin].
    unfold Class.as_pipeline.
    repeat wp_step.
    all: try blur_throw_fin.
    blur_return_fin.
    pose proof (cache_kept_wf _ _ _ Hkept Hwf) as Hwf1.
    split.
    + simpl. eapply cache_kept_lookup; [exact Hkept0|done|done].
    + intros _. eexists. simpl. by apply Hres0.
  Unshelve. all: first [exact 0 | exact default_texture].
Qed.

(** ** Frames during which nothing fails *)

Lemma wp_conj {A} (m : M A) h (P Q : Result A → Heap → list Event → Prop) :
  wp m h P → wp m h Q → wp m h (λ r h' e, P r h' e ∧ Q r h' e).
Proof. unfold wp. auto. Qed.

(** The cache discipline after the latest request. *)
Ltac forward_wf :=
  match goal with
  | Hk : cache_kept _ _ _ |- _ =>
      match goal with
      | Hwf : cache_wf _ |- _ =>
          let H := fresh "Hwf" in
          pose proof (cache_kept_wf _ _ _ Hk Hwf) as H; clear Hk
      end
  end.

(** A request cannot have failed. *)
Ltac absurd_throw :=
  exfalso;
  match goal with
  | Hs : cache_wf _ → nofault_from ?env ?t → _ |- _ =>
      match goal with
      | Hwf : cache_wf _ |- _ =>
          match goal with
          | Hnf : nofault_from env _ |- _ =>
              let Hn := fresh in
              assert (Hn : nofault_from env t)
                by (eapply nofault_from_mono; [exact Hnf|simpl; lia]);
              destruct (Hs Hwf Hn) as [? [=]]
          end
      end
  end.

Ltac ok_run := repeat (wp_step; try nofault_contra).

Ltac ok_texture H := wp_texture H; [forward_wf|absurd_throw].

Ltac ok_resource H C := wp_resource H C; [forward_wf|absurd_throw].

(** The value a readback key holds is a buffer, a pipeline key a
    pipeline. *)
Ltac cached_kind :=
  match goal with
  | Hr : ∀ a : Resource, Val ?r = Val a → _ !! readbackBufferKey _ = _
    |- _ =>
      match goal with
      | Hwf : cache_wf _ |- _ =>
          let b := fresh "b" in
          destruct (wf_lookup_buffer _ _ _ Hwf (Hr r eq_refl)) as [b ->]
      end
  | Hr : ∀ a : Resource, Val ?r = Val a → _ !! renderPipelineKey _ _ = _
    |- _ =>
      match goal with
      | Hwf : cache_wf _ |- _ =>
          let p := fresh "p" in
          destruct (wf_lookup_pipeline _ _ _ _ Hwf (Hr r eq_refl)) as [p ->]
      end
  end.

Lemma closure_import_source_ok env params f h :
  cache_wf (resourceCache h) → nofault_from env (clock h) →
  wp (Closure.import_source env params f) h (λ r h' evs, ∃ src, r = Val src).
Proof.
  intros Hwf Hnf. unfold Closure.import_source.
  destruct (Closure.zeroCopy params).
  - ok_run. wp_beta. eauto.
  - ok_texture closure_getOrCreateTexture_spec.
    ok_run. wp_beta. eauto.
Qed.

Lemma closure_scale_down_and_segment_ok env params src h :
  cache_wf (resourceCache h) → nofault_from env (clock h) →
  wp (Closure.scale_down_and_segment env params src) h
     (λ r h' evs, ∃ mask, r = Val mask).
Proof.
  intros Hwf Hnf. unfold Closure.scale_down_and_segment.
  ok_texture closure_getOrCreateTexture_spec.
  wp_quiet closure_bind_group_quiet.
  destruct HP as [HP [g ->]]. pose proof (quiet_kept _ _ _ _ _ HP).
  destruct HP as ((?&?&?&?)&?&?&?&?). forward_wf.
  ok_run.
  ok_resource closure_getOrCreateResource_spec closure_readback_constructor.
  cached_kind.
  unfold Closure.as_buffer, Closure.imageDataCache.
  ok_run.
  ok_texture closure_getOrCreateTexture_spec.
  ok_run. wp_beta. eauto.
Qed.

Lemma closure_import_source_detail env params f h :
  wp (Closure.import_source env params f) h
     (import_detail (Closure.zeroCopy params)
        (Closure.getTextureFormat env (Closure.directOutput params)) f h).
Proof.
  unfold Closure.import_source, import_detail.
  destruct (Closure.zeroCopy params).
  - wp_run ltac:(try (by intros ? [=]); intros ? [= <-]; by split).
  - wp_texture closure_getOrCreateTexture_spec; [|by intros ? [=]].
    wp_run ltac:(try (by intros ? [=]); intros ? [= <-]).
    split; [done|]. intros _. eexists. split; [done|]. simpl. by apply Hres.
Qed.

Lemma class_import_source_detail env this f h :
  wp (Class.import_source env this f) h
     (import_detail (Class.zeroCopy this) (Class.format this) f h).
Proof.
  unfold Class.import_source, import_detail.
  destruct (Class.zeroCopy this).
  - wp_run ltac:(try (by intros ? [=]); intros ? [= <-]; by split).
  - wp_texture class_getOrCreateTexture_spec; [|by intros ? [=]].
    wp_run ltac:(try (by intros ? [=]); intros ? [= <-]).
    split; [done|]. intros _. eexists. split; [done|]. simpl. by apply Hres.
Qed.

Lemma closure_blur_ok env params width height pw ph src mask h :
  cache_wf (resourceCache h) → nofault_from env (clock h) →
  wp (Closure.blur_and_render_to_canvas env params width height pw ph
        src mask) h (λ r h' evs, r = Val tt).
Proof.
  intros Hwf Hnf. unfold Closure.blur_and_render_to_canvas.
  ok_run.
  ok_texture closure_getOrCreateTexture_spec.
  ok_run.
  - ok_resource closure_getOrCreateResource_spec closure_pipeline_constructor.
    cached_kind. unfold Closure.as_pipeline.
    ok_run. wp_beta. done.
  - wp_beta. done.
Qed.

(** With the canvas already at the processing size the closure-based
    resize does nothing. *)
Lemma closure_update_canvas_size_same pw ph h :
  canvas_width h = pw → canvas_height h = ph →
  Closure.update_canvas_size pw ph h = mkOutcome (Val tt) h [].
Proof.
  intros <- <-. unfold Closure.update_canvas_size, bind, gets. simpl.
  by rewrite !N.eqb_refl.
Qed.

(** With another size it raises the ReferenceError, the canvas already
    resized. *)
Lemma closure_update_canvas_size_differs pw ph h :
  canvas_width h ≠ pw ∨ canvas_height h ≠ ph →
  Closure.update_canvas_size pw ph h =
    mkOutcome (Throw (ReferenceError "context"))
      (set_canvas_height ph (set_canvas_width pw h))
      [CanvasSetWidth pw; CanvasSetHeight ph].
Proof.
  intros Hne. unfold Closure.update_canvas_size, bind, gets. simpl.
  destruct (canvas_width h =? pw) eqn:Ew, (canvas_height h =? ph) eqn:Eh;
    simpl; try done.
  apply N.eqb_eq in Ew, Eh. tauto.
Qed.

(** ** Whole frames *)

(** The closure-based resize returns only when there is nothing to do. *)
Lemma closure_update_canvas_size_unchanged pw ph h :
  wp (Closure.update_canvas_size pw ph) h (λ r h' evs,
    r = Val tt → canvas_width h = pw ∧ canvas_height h = ph).
Proof.
  unfold wp.
  destruct (decide (canvas_width h = pw ∧ canvas_height h = ph)) as [[? ?]|Hn].
  - by rewrite closure_update_canvas_size_same.
  - rewrite closure_update_canvas_size_differs; [done|].
    destruct (decide (canvas_width h = pw)); [|by left].
    destruct (decide (canvas_height h = ph)); [|by right]. tauto.
Qed.

Ltac wp_phase_with Hphase Hdetail :=
  wp_beta;
  eapply wp_use; [apply wp_conj; [eapply Hphase|eapply Hdetail]|];
  let r := fresh "r" in let HP := fresh "HP" in let HD := fresh "HD" in
  intros r ? ? [HP HD]; cbv beta in HD; use_phase_post HP;
  destruct r as [?|?].

Ltac wp_resize_with H Hdetail :=
  wp_beta;
  eapply wp_use; [apply wp_conj; [eapply H|eapply Hdetail]|];
  let r := fresh "r" in let HP := fresh "HP" in let HD := fresh "HD" in
  intros r ? ? [HP HD]; cbv beta in HD; use_resize_post HP;
  destruct r as [[]|?].

Ltac frame_throw_fin :=
  wp_beta; do 7 eexists; split; [prefix_goal|by intros ? [=]].

Lemma closure_renderWithWebGPU_output env params f h :
  wp (Closure.renderWithWebGPU env params f) h
     (λ r, frame_output (Closure.directOutput params)
        (Closure.zeroCopy params)
        (Closure.getTextureFormat env (Closure.directOutput params)) f h
        (λ frame, r = Val frame)).
Proof.
  unfold Closure.renderWithWebGPU, frame_output.
  do 2 wp_step.
  wp_phase_with closure_import_source_phase closure_import_source_detail;
    [|frame_throw_fin].
  wp_phase closure_scale_down_and_segment_phase; [|frame_throw_fin].
  wp_resize_with closure_update_canvas_size_spec
    closure_update_canvas_size_unchanged; [|frame_throw_fin].
  wp_phase_with closure_blur_phase closure_blur_detail.
  2: { destruct HD1 as (ct & out & enc & vid & pass & Hpre & _).
       wp_beta. exists a, a0, ct, out, enc, vid, pass.
       split; [|by intros ? [=]]. by filter_norm. }
  destruct a1.
  destruct HD1 as (ct & out & enc & vid & pass & Hpre & Hct1 & Hct2 & Hval).
  destruct (Hval eq_refl) as (Heq & Ho1 & Ho2 & Hcache).
  destruct (Hres eq_refl) as [Hw Hh].
  destruct (HD0 eq_refl) as [Hw0 Hh0].
  destruct (HD _ eq_refl) as [Hsrc Hsrcc].
  repeat wp_step.
  - wp_beta. exists a, a0, ct, out, enc, vid, pass.
    split; [|by intros ? [=]]. filter_norm. by rewrite app_nil_r, Heq.
  - wp_beta. exists a, a0, ct, out, enc, vid, pass.
    split; [filter_norm; rewrite ?app_nil_r, Heq; reflexivity|].
    intros ? [= <-]. simpl.
    assert (canvas_width h = js_or (displayWidth f) 1280) as Ecw by congruence.
    assert (canvas_height h = js_or (displayHeight f) 720) as Ech by congruence.
    split_and!; try congruence.
    { filter_norm. by rewrite ?app_nil_r, Heq. }
    intros Hwf.
    pose proof (cache_kept_wf _ _ _ Hkept Hwf) as Hwf1.
    pose proof (cache_kept_wf _ _ _ Hkept0 Hwf1) as Hwf2.
    pose proof (cache_kept_wf _ _ _ Hkept1 Hwf2) as Hwf3.
    destruct (Hcache Hwf3) as [Hoc Hpc]. rewrite <-Ecw, <-Ech.
    split_and!; [done|done|].
    intros Hz. destruct (Hsrcc Hz) as (t & -> & Hl & ? & ?).
    exists t. split_and!; [done| |done|done].
    eapply cache_kept_lookup; [exact Hkept2|done|].
    eapply cache_kept_lookup; [exact Hkept1|done|].
    eapply cache_kept_lookup; [exact Hkept0|done|done].
  Unshelve.
  all: first [exact 0 | exact default_texture | exact default_source].
Qed.

Lemma class_render_output env this f h :
  wp (Class.render env this f) h
     (λ r, frame_output (Class.directOutput this) (Class.zeroCopy this)
        (Class.format this) f h (λ frame, r = Val frame)).
Proof.
  unfold Class.render, frame_output.
  wp_phase_with class_import_source_phase class_import_source_detail;
    [|frame_throw_fin].
  wp_phase class_segment_phase; [|frame_throw_fin].
  wp_resize class_update_canvas_size_spec; [|frame_throw_fin].
  wp_phase_with class_blur_phase class_blur_detail.
  2: { destruct HD0 as (ct & out & enc & vid & pass & Hpre & _).
       wp_beta. exists a, a0, ct, out, enc, vid, pass.
       split; [|by intros ? [=]]. by filter_norm. }
  destruct a1.
  destruct HD0 as (ct & out & enc & vid & pass & Hpre & Hct1 & Hct2 & Hval).
  destruct (Hval eq_refl) as (Heq & Ho1 & Ho2 & Hcache).
  destruct (Hres eq_refl) as [Hw Hh].
  destruct (HD _ eq_refl) as [Hsrc Hsrcc].
  repeat wp_step.
  - wp_beta. exists a, a0, ct, out, enc, vid, pass.
    split; [|by intros ? [=]]. filter_norm. by rewrite app_nil_r, Heq.
  - wp_beta. exists a, a0, ct, out, enc, vid, pass.
    split; [filter_norm; rewrite ?app_nil_r, Heq; reflexivity|].
    intros ? [= <-]. simpl.
    split_and!; try congruence.
    { filter_norm. by rewrite ?app_nil_r, Heq. }
    intros Hwf.
    pose proof (cache_kept_wf _ _ _ Hkept Hwf) as Hwf1.
    pose proof (cache_kept_wf _ _ _ Hkept0 Hwf1) as Hwf2.
    pose proof (cache_kept_wf _ _ _ Hkept1 Hwf2) as Hwf3.
    destruct (Hcache Hwf3) as [Hoc Hpc]. rewrite <-Hw, <-Hh.
    split_and!; [done|done|].
    intros Hz. destruct (Hsrcc Hz) as (t & -> & Hl & ? & ?).
    exists t. split_and!; [done| |done|done].
    eapply cache_kept_lookup; [exact Hkept2|done|].
    eapply cache_kept_lookup; [exact Hkept1|done|].
    eapply cache_kept_lookup; [exact Hkept0|done|done].
  Unshelve.
  all: first [exact 0 | exact default_texture | exact default_source].
Qed.

Lemma class_import_source_ok env this f h :
  cache_wf (resourceCache h) → nofault_from env (clock h) →
  wp (Class.import_source env this f) h (λ r h' evs, ∃ src, r = Val src).
Proof.
  intros Hwf Hnf. unfold Class.import_source.
  destruct (Class.zeroCopy this).
  - ok_run. wp_beta. eauto.
  - ok_texture class_getOrCreateTexture_spec.
    ok_run. wp_beta. eauto.
Qed.

Lemma class_segment_readback_ok env this enc t h :
  cache_wf (resourceCache h) → nofault_from env (clock h) →
  wp (Class.segment_readback env this enc (Class.WithTexture t)) h
     (λ r h' evs, ∃ mask, r = Val mask).
Proof.
  intros Hwf Hnf. unfold Class.segment_readback.
  ok_resource class_getOrCreateResource_spec class_readback_constructor.
  cached_kind. unfold Class.as_buffer.
  ok_run.
  ok_texture class_getOrCreateTexture_spec.
  ok_run. wp_beta. eauto.
Qed.

Lemma class_segment_interop_ok env this enc b h :
  nofault_from env (clock h) →
  wp (Class.segment_interop env this enc (Class.WithBuffer b)) h
     (λ r h' evs, ∃ mask, r = Val mask).
Proof.
  intros Hnf. unfold Class.segment_interop.
  ok_run; wp_beta; eauto.
Qed.

Lemma class_segment_ok env this src h :
  cache_wf (resourceCache h) → nofault_from env (clock h) →
  source_ok (Class.zeroCopy this) src →
  wp (Class.segment env this src) h (λ r h' evs, ∃ mask, r = Val mask).
Proof.
  intros Hwf Hnf Hsrc. unfold Class.segment, Class.source_binding.
  ok_run; try (simpl in Hsrc; congruence).
  1-2: (eapply wp_mono;
      [eapply class_segment_interop_ok;
       eapply nofault_from_mono; [exact Hnf|simpl; lia]|];
      by intros ? ? ? ?).
  ok_texture class_getOrCreateTexture_spec.
  ok_run; try (simpl in Hsrc; congruence).
  all: eapply wp_mono;
    [eapply class_segment_readback_ok;
     [done|eapply nofault_from_mono; [exact Hnf|simpl; lia]]|].
  all: by intros ? ? ? ?.
Qed.

Lemma class_blur_ok env this pw ph src mask h :
  cache_wf (resourceCache h) → nofault_from env (clock h) →
  wp (Class.blur_and_render_to_canvas env this pw ph src mask) h
     (λ r h' evs, r = Val tt).
Proof.
  intros Hwf Hnf. unfold Class.blur_and_render_to_canvas.
  ok_run.
  ok_texture class_getOrCreateTexture_spec.
  ok_run.
  - ok_resource class_getOrCreateResource_spec class_pipeline_constructor.
    cached_kind. unfold Class.as_pipeline.
    ok_run. wp_beta. done.
  - wp_beta. done.
Qed.

Lemma class_update_canvas_size_ok env this pw ph h :
  nofault_from env (clock h) →
  wp (Class.update_canvas_size env this pw ph) h (λ r h' evs, r = Val tt).
Proof.
  intros Hnf. unfold Class.update_canvas_size. ok_run; wp_beta; done.
Qed.

Ltac nofault_now :=
  match goal with
  | Hnf : nofault_from ?env _ |- nofault_from ?env _ =>
      eapply nofault_from_mono; [exact Hnf|simpl; lia]
  end.

Lemma closure_renderWithWebGPU_ok env params f h :
  cache_wf (resourceCache h) → nofault_from env (clock h) →
  canvas_width h = js_or (displayWidth f) 1280 →
  canvas_height h = js_or (displayHeight f) 720 →
  wp (Closure.renderWithWebGPU env params f) h (λ r h' evs, ∃ out, r = Val out).
Proof.
  intros Hwf Hnf Hw Hh. unfold Closure.renderWithWebGPU.
  do 2 wp_step.
  eapply wp_use;
    [apply wp_conj;
       [eapply closure_import_source_phase
       |by eapply closure_import_source_ok]|].
  intros r h1 e1 [HP [src ->]]. use_phase_post HP. forward_wf.
  eapply wp_use;
    [apply wp_conj;
       [eapply closure_scale_down_and_segment_phase
       |eapply closure_scale_down_and_segment_ok; [done|nofault_now]]|].
  intros r h2 e2 [HP [mask ->]]. use_phase_post HP. forward_wf.
  wp_beta. apply wp_bind. unfold wp at 1.
  rewrite closure_update_canvas_size_same by congruence. simpl.
  eapply wp_use;
    [apply wp_conj;
       [eapply closure_blur_phase
       |eapply closure_blur_ok; [done|nofault_now]]|].
  intros r h3 e3 [HP ->]. use_phase_post HP.
  ok_run. wp_beta. eauto.
Qed.

Lemma class_render_ok env this f h :
  cache_wf (resourceCache h) → nofault_from env (clock h) →
  wp (Class.render env this f) h (λ r h' evs, ∃ out, r = Val out).
Proof.
  intros Hwf Hnf. unfold Class.render.
  eapply wp_use;
    [apply wp_conj;
       [apply wp_conj;
          [eapply class_import_source_phase
          |eapply class_import_source_detail]
       |by eapply class_import_source_ok]|].
  intros r h1 e1 [[HP HD] [src ->]]. use_phase_post HP. forward_wf.
  destruct (HD _ eq_refl) as [Hsrc _].
  eapply wp_use;
    [apply wp_conj;
       [eapply class_segment_phase
       |eapply class_segment_ok; [done|nofault_now|done]]|].
  intros r h2 e2 [HP [mask ->]]. use_phase_post HP. forward_wf.
  eapply wp_use;
    [apply wp_conj;
       [eapply class_update_canvas_size_spec
       |eapply class_update_canvas_size_ok; nofault_now]|].
  intros r h3 e3 [HP ->]. use_resize_post HP. forward_wf.
  eapply wp_use;
    [apply wp_conj;
       [eapply class_blur_phase
       |eapply class_blur_ok; [done|nofault_now]]|].
  intros r h4 e4 [HP ->]. use_phase_post HP.
  ok_run. wp_beta. eauto.
Qed.

(** ** Segmentation, step by step *)

Ltac seg_defaults :=
  first [exact 0 | exact default_texture | exact default_buffer
        | exact default_source | exact BindUndefined].

(** Witnesses are found by unification; one the goal does not mention
    gets a default. *)
Ltac ex_all :=
  repeat lazymatch goal with
  | |- ex _ => first [eexists; [] | unshelve eexists; [seg_defaults|]]
  end.

Ltac seg_fin :=
  wp_beta; ex_all;
  split; [prefix_goal|first [by intros [? [=]]|by intros _; filter_norm]].

Lemma closure_segment_detail env params src h :
  wp (Closure.scale_down_and_segment env params src) h (λ r h' evs,
    segment_detail false (Closure.segmentationWidth params)
      (Closure.segmentationHeight params) (∃ a, r = Val a) evs).
Proof.
  unfold Closure.scale_down_and_segment, segment_detail.
  wp_texture closure_getOrCreateTexture_spec. 2: seg_fin.
  wp_quiet closure_bind_group_quiet.
  destruct HP as [HP [g ->]]. destruct HP as (_&_&?&_&_).
  repeat wp_step. all: try seg_fin.
  wp_resource closure_getOrCreateResource_spec closure_readback_constructor;
    [|seg_fin].
  unfold Closure.as_buffer, Closure.imageDataCache.
  repeat wp_step. all: try seg_fin.
  wp_texture closure_getOrCreateTexture_spec; [|seg_fin].
  repeat wp_step. all: seg_fin.
  Unshelve. all: seg_defaults.
Qed.

Lemma class_segment_detail env this src h :
  wp (Class.segment env this src) h (λ r h' evs,
    segment_detail (Class.gpu_interop (segmenter h))
      (Class.segmentationWidth this) (Class.segmentationHeight this)
      (∃ a, r = Val a) evs).
Proof.
  unfold Class.segment, Class.source_binding, Class.segment_interop,
    Class.segment_readback, segment_detail.
  repeat wp_step. all: try seg_fin.
  wp_texture class_getOrCreateTexture_spec; [|seg_fin].
  repeat wp_step. all: try seg_fin.
  all: (wp_resource class_getOrCreateResource_spec class_readback_constructor;
    [|seg_fin]).
  all: unfold Class.as_buffer.
  all: repeat wp_step. all: try seg_fin.
  all: (wp_texture class_getOrCreateTexture_spec; [|seg_fin]).
  all: repeat wp_step. all: seg_fin.
  Unshelve. all: seg_defaults.
Qed.

Ltac bg_fin :=
  wp_beta; ex_all;
  split; [prefix_goal|first [by intros [? [=]]|by intros _; filter_norm]].

Lemma class_segment_bind_group env this src h :
  wp (Class.segment env this src) h (λ r h' evs,
    pack_bind_group_detail (Class.gpu_interop (segmenter h))
      (Class.downscaleSampler this) (∃ a, r = Val a) evs).
Proof.
  unfold Class.segment, Class.source_binding, Class.segment_interop,
    Class.segment_readback, pack_bind_group_detail.
  repeat wp_step. all: try bg_fin.
  wp_texture class_getOrCreateTexture_spec; [|bg_fin].
  repeat wp_step. all: try bg_fin.
  all: (wp_resource class_getOrCreateResource_spec class_readback_constructor;
    [|bg_fin]).
  all: unfold Class.as_buffer.
  all: repeat wp_step. all: try bg_fin.
  all: (wp_texture class_getOrCreateTexture_spec; [|bg_fin]).
  all: repeat wp_step. all: bg_fin.
  Unshelve. all: seg_defaults.
Qed.

(** ** Segmentation in a whole frame *)

Ltac frame_seg_fin :=
  wp_beta;
  first
    [ lazymatch goal with
      | HD : segment_detail _ _ _ _ _ |- _ =>
          let Hpre := fresh "Hpre" in let Heq := fresh "Heq" in
          let x1 := fresh "x" in let x2 := fresh "x" in
          let x3 := fresh "x" in let x4 := fresh "x" in
          let x5 := fresh "x" in let x6 := fresh "x" in
          let x7 := fresh "x" in let x8 := fresh "x" in
          destruct HD as (x1&x2&x3&x4&x5&x6&x7&x8&Hpre&Heq);
          exists x1, x2, x3, x4, x5, x6, x7, x8;
          split;
            [filter_norm; rewrite ?app_nil_r;
             first [exact Hpre
                   |rewrite (Heq (ex_intro _ _ eq_refl)); reflexivity]
            |first [by intros [? [=]]
                   |intros _; filter_norm; rewrite ?app_nil_r;
                    by rewrite (Heq (ex_intro _ _ eq_refl))]]
      end
    | seg_fin ].

Lemma closure_renderWithWebGPU_segment env params f h :
  wp (Closure.renderWithWebGPU env params f) h (λ r h' evs,
    segment_detail false (Closure.segmentationWidth params)
      (Closure.segmentationHeight params) (∃ a, r = Val a) evs).
Proof.
  unfold Closure.renderWithWebGPU.
  do 2 wp_step.
  wp_phase closure_import_source_phase; [|unfold segment_detail; seg_fin].
  wp_phase_with closure_scale_down_and_segment_phase closure_segment_detail;
    [|frame_seg_fin].
  wp_resize closure_update_canvas_size_spec; [|frame_seg_fin].
  wp_phase closure_blur_phase; [|frame_seg_fin].
  repeat wp_step. all: frame_seg_fin.
  Unshelve. all: seg_defaults.
Qed.

Lemma class_render_segment env this f h :
  wp (Class.render env this f) h (λ r h' evs,
    segment_detail (Class.gpu_interop (segmenter h))
      (Class.segmentationWidth this) (Class.segmentationHeight this)
      (∃ a, r = Val a) evs).
Proof.
  unfold Class.render.
  wp_phase class_import_source_phase; [|unfold segment_detail; seg_fin].
  rewrite <-Hseg.
  wp_phase_with class_segment_phase class_segment_detail; [|frame_seg_fin].
  wp_resize class_update_canvas_size_spec; [|frame_seg_fin].
  wp_phase class_blur_phase; [|frame_seg_fin].
  repeat wp_step. all: frame_seg_fin.
  Unshelve. all: seg_defaults.
Qed.

(** ** The dispatch grid and the compute shader *)

Lemma Math_ceil_div_bounds x d :
  0 < d → x ≤ d * Math_ceil_div x d ∧ d * Math_ceil_div x d < x + d.
Proof.
  intros Hd. unfold Math_ceil_div.
  pose proof (N.div_mod x d ltac:(lia)) as Hdm.
  pose proof (N.mod_lt x d ltac:(lia)) as Hlt.
  destruct (x mod d =? 0) eqn:E.
  - apply N.eqb_eq in E.
    remember (d * (x / d)) as p. remember (x mod d) as m. lia.
  - apply N.eqb_neq in E. rewrite N.mul_add_distr_l, N.mul_1_r.
    remember (d * (x / d)) as p. remember (x mod d) as m. lia.
Qed.

Lemma elem_of_invocations gx gy x y :
  (x, y) ∈ Closure.invocations gx gy ↔ x < 8 * gx ∧ y < 8 * gy.
Proof.
  unfold Closure.invocations, Closure.workgroup_size. simpl fst. simpl snd.
  rewrite list_elem_of_bind. split.
  - intros (x' & Hy & Hx). apply list_elem_of_bind in Hy as (y' & Hxy & Hy).
    apply list_elem_of_singleton in Hxy as [= -> ->].
    apply list_elem_of_fmap in Hx as (i & -> & Hi).
    apply list_elem_of_fmap in Hy as (j & -> & Hj).
    apply elem_of_seq in Hi, Hj. lia.
  - intros [Hx Hy]. exists x. split.
    + apply list_elem_of_bind. exists y. split; [by apply list_elem_of_singleton|].
      apply list_elem_of_fmap. exists (N.to_nat y).
      split; [by rewrite N2Nat.id|]. apply elem_of_seq. lia.
    + apply list_elem_of_fmap. exists (N.to_nat x).
      split; [by rewrite N2Nat.id|]. apply elem_of_seq. lia.
Qed.

Lemma downscale_main_Some dims gid c :
  Closure.downscale_main dims gid = Some c ↔
  c = gid ∧ gid.1 < dims.1 ∧ gid.2 < dims.2.
Proof.
  unfold Closure.downscale_main.
  destruct (dims.1 <=? gid.1) eqn:E1, (dims.2 <=? gid.2) eqn:E2; simpl;
    rewrite ?N.leb_le, ?N.leb_gt in *; split;
    try (intros [=]; subst; split_and!; done || lia);
    try (intros (-> & ? & ?); done || lia).
Qed.

Lemma downscale_main_None dims gid :
  Closure.downscale_main dims gid = None ↔
  dims.1 ≤ gid.1 ∨ dims.2 ≤ gid.2.
Proof.
  unfold Closure.downscale_main.
  destruct (dims.1 <=? gid.1) eqn:E1, (dims.2 <=? gid.2) eqn:E2; simpl;
    rewrite ?N.leb_le, ?N.leb_gt in *; split; try done; try lia; auto.
Qed.

Lemma elem_of_dispatch_stores w ht gx gy x y :
  (x, y) ∈ Closure.dispatch_stores (w, ht) gx gy ↔
  x < w ∧ y < ht ∧ x < 8 * gx ∧ y < 8 * gy.
Proof.
  unfold Closure.dispatch_stores. rewrite list_elem_of_omap. split.
  - intros ([x' y'] & Hin & Hs). apply downscale_main_Some in Hs as ([= -> ->] & ? & ?).
    apply elem_of_invocations in Hin. simpl in *. lia.
  - intros (?&?&?&?). exists (x, y). split; [apply elem_of_invocations; lia|].
    apply downscale_main_Some. simpl. done.
Qed.

(** ** Lists of events *)

Lemma filter_filter_sub (f g : Event → bool) l :
  (∀ e, f e = true → g e = true) →
  List.filter f (List.filter g l) = List.filter f l.
Proof.
  intros Hfg. induction l as [|e l IH]; simpl; [done|].
  destruct (g e) eqn:Eg; simpl.
  - by rewrite IH.
  - destruct (f e) eqn:Ef; [|done]. apply Hfg in Ef. congruence.
Qed.

Lemma filter_prefix (f : Event → bool) l1 l2 :
  l1 `prefix_of` l2 → List.filter f l1 `prefix_of` List.filter f l2.
Proof. intros [k ->]. rewrite List.filter_app. by eexists. Qed.

Lemma prefix_nil_eq (l : list Event) : l `prefix_of` [] → l = [].
Proof. intros [k Hk]. symmetry in Hk. by apply app_eq_nil in Hk as [-> _]. Qed.

(** ** The closure-based [render] and the function it wraps *)

Lemma closure_render_inner env params f h :
  let inner := Closure.renderWithWebGPU env params f h in
  let o := Closure.render env params f h in
  result o = match result inner with
             | Val out => Val (Some out)
             | Throw _ => Val None
             end ∧
  heap o = heap inner ∧
  events o = events inner ++
    match result inner with
    | Val _ => []
    | Throw x => [ConsoleWarn "WebGPU rendering failed:" x]
    end.
Proof.
  cbv zeta. unfold Closure.render, try_catch, bind, ret, emit.
  destruct (Closure.renderWithWebGPU env params f h) as [[out|x] h1 e1];
    simpl; by rewrite ?app_nil_r.
Qed.

(** ** The cache functions, case by case *)

Lemma size_mismatch t w ht :
  tex_width t ≠ w ∨ tex_height t ≠ ht →
  negb (tex_width t =? w) || negb (tex_height t =? ht) = true.
Proof.
  intros [H|H]; apply N.eqb_neq in H; rewrite H; simpl; [done|].
  by destruct (tex_width t =? w).
Qed.

Lemma size_match t w ht :
  tex_width t = w → tex_height t = ht →
  negb (tex_width t =? w) || negb (tex_height t =? ht) = false.
Proof. intros <- <-. by rewrite !N.eqb_refl. Qed.

(** A hit returns the cached object and does nothing else. *)
Lemma closure_getOrCreateTexture_hit env key w ht d usage h t :
  let o := Closure.getOrCreateTexture env key (w, ht) d usage h in
  resourceCache h !!
    textureCacheKey key w ht (Closure.getTextureFormat env d) usage
    = Some (RTexture t) →
  tex_width t = w → tex_height t = ht →
  result o = Val t ∧ heap o = h ∧ events o = [].
Proof.
  intros o Hl Hw Hh. subst o.
  change (wp (Closure.getOrCreateTexture env key (w, ht) d usage) h
            (λ r h' evs, r = Val t ∧ h' = h ∧ evs = [])).
  unfold Closure.getOrCreateTexture.
  apply wp_bind_gets. rewrite Hl, (size_match _ _ _ Hw Hh). by apply wp_ret.
Qed.

Lemma class_getOrCreateTexture_hit env this key w ht usage h t :
  let o := Class.getOrCreateTexture env this key (w, ht) usage h in
  resourceCache h !! textureCacheKey key w ht (Class.format this) usage
    = Some (RTexture t) →
  tex_width t = w → tex_height t = ht →
  result o = Val t ∧ heap o = h ∧ events o = [].
Proof.
  intros o Hl Hw Hh. subst o.
  change (wp (Class.getOrCreateTexture env this key (w, ht) usage) h
            (λ r h' evs, r = Val t ∧ h' = h ∧ evs = [])).
  unfold Class.getOrCreateTexture.
  apply wp_bind_gets. rewrite Hl, (size_match _ _ _ Hw Hh). by apply wp_ret.
Qed.

(** On a size mismatch the old texture is destroyed first, and the new one
    is stored under the same key. *)
Lemma closure_getOrCreateTexture_mismatch env key w ht d usage h t :
  let k := textureCacheKey key w ht (Closure.getTextureFormat env d) usage in
  let t' := mkTexture (next_id h) w ht (Closure.getTextureFormat env d) usage in
  let o := Closure.getOrCreateTexture env key (w, ht) d usage h in
  resourceCache h !! k = Some (RTexture t) →
  tex_width t ≠ w ∨ tex_height t ≠ ht →
  (events o = [ConsoleLog "Creating new texture for " k;
               DestroyCached (RTexture t)] ∨
   events o = [ConsoleLog "Creating new texture for " k;
               DestroyCached (RTexture t); CreateTexture t']) ∧
  (∀ r, result o = Val r →
     r = t' ∧ resourceCache (heap o) = <[k := RTexture t']> (resourceCache h)).
Proof.
  intros k t' o Hl Hm. subst o.
  change (wp (Closure.getOrCreateTexture env key (w, ht) d usage) h
    (λ r h' evs,
       (evs = [ConsoleLog "Creating new texture for " k;
               DestroyCached (RTexture t)] ∨
        evs = [ConsoleLog "Creating new texture for " k;
               DestroyCached (RTexture t); CreateTexture t']) ∧
       (∀ r', r = Val r' →
          r' = t' ∧ resourceCache h' = <[k := RTexture t']> (resourceCache h)))).
  unfold Closure.getOrCreateTexture, Closure.createTexture. fold k.
  apply wp_bind_gets. rewrite Hl, (size_mismatch _ _ _ Hm).
  wp_run ltac:(split; [by (left + right)|
                       try (by intros ? [=]); by intros ? [= <-]]).
Qed.

Lemma class_getOrCreateTexture_mismatch env this key w ht usage h t :
  let k := textureCacheKey key w ht (Class.format this) usage in
  let t' := mkTexture (next_id h) w ht (Class.format this) usage in
  let o := Class.getOrCreateTexture env this key (w, ht) usage h in
  resourceCache h !! k = Some (RTexture t) →
  tex_width t ≠ w ∨ tex_height t ≠ ht →
  (events o = [ConsoleLog "Creating new texture" k;
               ConsoleLog "Destroying old texture" k;
               DestroyCached (RTexture t)] ∨
   events o = [ConsoleLog "Creating new texture" k;
               ConsoleLog "Destroying old texture" k;
               DestroyCached (RTexture t); CreateTexture t']) ∧
  (∀ r, result o = Val r →
     r = t' ∧ resourceCache (heap o) = <[k := RTexture t']> (resourceCache h)).
Proof.
  intros k t' o Hl Hm. subst o.
  change (wp (Class.getOrCreateTexture env this key (w, ht) usage) h
    (λ r h' evs,
       (evs = [ConsoleLog "Creating new texture" k;
               ConsoleLog "Destroying old texture" k;
               DestroyCached (RTexture t)] ∨
        evs = [ConsoleLog "Creating new texture" k;
               ConsoleLog "Destroying old texture" k;
               DestroyCached (RTexture t); CreateTexture t']) ∧
       (∀ r', r = Val r' →
          r' = t' ∧ resourceCache h' = <[k := RTexture t']> (resourceCache h)))).
  unfold Class.getOrCreateTexture. fold k.
  apply wp_bind_gets. rewrite Hl, (size_mismatch _ _ _ Hm).
  wp_run ltac:(split; [by (left + right)|
                       try (by intros ? [=]); by intros ? [= <-]]).
Qed.

(** ** The class constructor *)

Lemma class_constructor_spec env z d h :
  wp (Class.constructor env z d) h (λ r h' evs,
    ∀ this, r = Val this →
      Class.packShaderUrl this =
        (if Class.gpu_interop (segmenter h)
         then "blur4/shaders/downscale-and-convert-to-rgb16float.wgsl"
         else "blur4/shaders/downscale-and-convert-to-rgba8uint.wgsl") ∧
      Class.format this =
        (if d then preferredCanvasFormat env else "rgba8unorm") ∧
      Class.packShaderSubstitution this =
        [("inputTextureType",
          if z then "texture_external" else "texture_2d<f32>");
         ("outputTextureFormat", Class.format this)] ∧
      Class.zeroCopy this = z ∧ Class.directOutput this = d ∧
      Class.segmentationWidth this = 256 ∧
      Class.segmentationHeight this = 144 ∧
      resourceCache h' = ∅ ∧
      canvas_width h' = 1280 ∧ canvas_height h' = 720 ∧
      segmenter h' = segmenter h).
Proof.
  unfold Class.constructor.
  wp_run ltac:(try (by intros ? [=]); intros ? [= <-]; simpl; by split_and!).
Qed.

(** ** From the steps of a frame to what each claim observes *)

Lemma sub_filter_prefix (f g : Event → bool) evs steps :
  (∀ e, f e = true → g e = true) →
  List.filter g evs `prefix_of` steps →
  List.filter f evs `prefix_of` List.filter f steps.
Proof.
  intros Hfg Hp. rewrite <-(filter_filter_sub f g evs Hfg).
  by apply filter_prefix.
Qed.

Lemma sub_filter_eq (f g : Event → bool) evs steps :
  (∀ e, f e = true → g e = true) →
  List.filter g evs = steps →
  List.filter f evs = List.filter f steps.
Proof. intros Hfg <-. by rewrite filter_filter_sub. Qed.

Lemma prefix_length_le (l1 l2 : list Event) :
  l1 `prefix_of` l2 → (length l1 ≤ length l2)%nat.
Proof. intros [k ->]. rewrite length_app. lia. Qed.

Lemma output_composite d returned pw ph evs src mask ct out enc vid pass :
  List.filter is_output_step evs
    `prefix_of` output_steps d pw ph src mask ct out enc vid pass →
  (returned →
     List.filter is_output_step evs
       = output_steps d pw ph src mask ct out enc vid pass) →
  composite_draws d returned evs.
Proof.
  intros Hpre Heq. unfold composite_draws. destruct d.
  - apply prefix_nil_eq.
    apply (sub_filter_prefix is_composite) in Hpre; [done|by intros []].
  - split.
    + apply (sub_filter_prefix is_draw) in Hpre; [|by intros []].
      by apply prefix_length_le in Hpre.
    + intros Hr. specialize (Heq Hr). exists ct, enc, vid, pass. split.
      * by apply (sub_filter_eq is_surface) in Heq; [|by intros []].
      * by apply (sub_filter_eq is_composite) in Heq; [|by intros []].
Qed.

(** ** The closure's [render] seen through [renderWithWebGPU] *)

Lemma closure_render_filter env params f h (g : Event → bool) :
  (∀ msg x, g (ConsoleWarn msg x) = false) →
  List.filter g (events (Closure.render env params f h))
    = List.filter g (events (Closure.renderWithWebGPU env params f h)).
Proof.
  intros Hg. destruct (closure_render_inner env params f h) as (_ & _ & ->).
  rewrite List.filter_app.
  destruct (result (Closure.renderWithWebGPU env params f h)); simpl.
  - by rewrite app_nil_r.
  - by rewrite Hg, app_nil_r.
Qed.

Lemma closure_render_returned env params f h out :
  result (Closure.render env params f h) = Val (Some out) ↔
  result (Closure.renderWithWebGPU env params f h) = Val out.
Proof.
  destruct (closure_render_inner env params f h) as (-> & _ & _).
  destruct (result (Closure.renderWithWebGPU env params f h)); split;
    congruence.
Qed.

Lemma closure_render_output env params f h :
  wp (Closure.render env params f) h
     (λ r, frame_output (Closure.directOutput params)
        (Closure.zeroCopy params)
        (Closure.getTextureFormat env (Closure.directOutput params)) f h
        (λ frame, r = Val (Some frame))).
Proof.
  unfold wp.
  destruct (closure_renderWithWebGPU_output env params f h)
    as (src & mask & ct & out & enc & vid & pass & Hpre & Hret).
  exists src, mask, ct, out, enc, vid, pass.
  rewrite closure_render_filter by done.
  destruct (closure_render_inner env params f h) as (_ & -> & _).
  split; [done|]. intros frame Hf.
  apply closure_render_returned in Hf. by apply Hret.
Qed.

Lemma closure_render_segment env params f h :
  wp (Closure.render env params f) h (λ r h' evs,
    segment_detail false (Closure.segmentationWidth params)
      (Closure.segmentationHeight params) (∃ out, r = Val (Some out)) evs).
Proof.
  unfold wp.
  destruct (closure_renderWithWebGPU_segment env params f h)
    as (pass & enc & dest & buf & inbuf & outbuf & enc2 & mask & Hpre & Hret).
  exists pass, enc, dest, buf, inbuf, outbuf, enc2, mask.
  rewrite closure_render_filter by done.
  split; [done|]. intros [out Hout].
  apply closure_render_returned in Hout. apply Hret. by exists out.
Qed.

(** ** The properties on a frame, for both renderers *)

Lemma frame_output_composite d z fmt f h (returned : VideoFrame → Prop)
    h' evs :
  frame_output d z fmt f h returned h' evs →
  composite_draws d (∃ frame, returned frame) evs.
Proof.
  intros (src & mask & ct & out & enc & vid & pass & Hpre & Hret).
  eapply output_composite; [exact Hpre|].
  intros [frame Hf]. by destruct (Hret frame Hf) as (? & _).
Qed.

Lemma frame_output_blur d z fmt f h (returned : VideoFrame → Prop) h' evs :
  frame_output d z fmt f h returned h' evs →
  blur_invocation d fmt f (∃ frame, returned frame) h h' evs.
Proof.
  intros (src & mask & ct & out & enc & vid & pass & Hpre & Hret).
  exists src, mask, ct, out, enc. split.
  - apply (sub_filter_prefix is_blur_engine) in Hpre; [|by intros []].
    by destruct d.
  - intros [frame Hf].
    destruct (Hret frame Hf) as (Heq & _ & _ & _ & _ & _ & Hw & Hh & _ & Hc).
    split_and!; [| |done|done|].
    + apply (sub_filter_eq is_blur_engine) in Heq; [|by intros []].
      by destruct d.
    + apply (sub_filter_eq is_surface) in Heq; [|by intros []].
      by destruct d.
    + intros Hwf. by destruct (Hc Hwf) as (? & _).
Qed.

Lemma frame_output_time d z fmt f h (returned : VideoFrame → Prop) h' evs
    frame :
  frame_output d z fmt f h returned h' evs → returned frame →
  frame = mkVideoFrame (js_or (displayWidth f) 1280)
            (js_or (displayHeight f) 720) (timestamp f) (duration f).
Proof.
  intros (src & mask & ct & out & enc & vid & pass & Hpre & Hret) Hf.
  by destruct (Hret frame Hf) as (_ & ? & _).
Qed.

Lemma segment_detail_dispatch interop sw sh returned evs :
  segment_detail interop sw sh returned evs →
  dispatch_grid sw sh returned evs.
Proof.
  intros (pass & enc & dest & buf & inbuf & outbuf & enc2 & mask & Hpre & Hret).
  assert (Hd : List.filter is_dispatch evs `prefix_of`
            [DispatchWorkgroups pass (Math_ceil_div sw 8)
               (Math_ceil_div sh 8)]).
  { apply (sub_filter_prefix is_dispatch) in Hpre; [|by intros []].
    by destruct interop. }
  split_and!.
  - by apply prefix_length_le in Hd.
  - intros p x y Hin.
    assert (Hf : DispatchWorkgroups p x y ∈ List.filter is_dispatch evs).
    { apply list_elem_of_In, List.filter_In. split; [|done].
      by apply list_elem_of_In. }
    destruct Hd as [k Hk].
    assert (Hin' : DispatchWorkgroups p x y ∈
              [DispatchWorkgroups pass (Math_ceil_div sw 8)
                 (Math_ceil_div sh 8)]).
    { rewrite Hk. apply elem_of_app. by left. }
    apply list_elem_of_singleton in Hin'. by inversion Hin'.
  - intros Hr. exists pass. specialize (Hret Hr).
    apply (sub_filter_eq is_dispatch) in Hret; [|by intros []].
    by destruct interop.
Qed.

Lemma segment_detail_paths interop sw sh returned evs :
  segment_detail interop sw sh returned evs →
  (interop = true → List.filter is_readback evs = []) ∧
  (interop = false → List.filter is_interop evs = []).
Proof.
  intros (pass & enc & dest & buf & inbuf & outbuf & enc2 & mask & Hpre & _).
  split; intros ->; apply prefix_nil_eq.
  - by apply (sub_filter_prefix is_readback) in Hpre; [|by intros []].
  - by apply (sub_filter_prefix is_interop) in Hpre; [|by intros []].
Qed.

(** ** More on the cache functions and on the canvas *)

(** The closure's frame returns only when the canvas already has the
    processing size. *)
Lemma closure_renderWithWebGPU_canvas env params f h :
  wp (Closure.renderWithWebGPU env params f) h (λ r h' evs,
    (∃ out, r = Val out) →
    canvas_width h = js_or (displayWidth f) 1280 ∧
    canvas_height h = js_or (displayHeight f) 720).
Proof.
  unfold Closure.renderWithWebGPU.
  do 2 wp_step.
  wp_phase closure_import_source_phase; [|wp_beta; by intros [? [=]]].
  wp_phase closure_scale_down_and_segment_phase;
    [|wp_beta; by intros [? [=]]].
  wp_resize_with closure_update_canvas_size_spec
    closure_update_canvas_size_unchanged; [|wp_beta; by intros [? [=]]].
  wp_phase closure_blur_phase; [|wp_beta; by intros [? [=]]].
  destruct (HD eq_refl) as [Hw0 Hh0].
  repeat wp_step.
  all: wp_beta; first [by intros [? [=]]|intros _; split; congruence].
Qed.

Lemma closure_getOrCreateTexture_miss env key w ht d usage h :
  let k := textureCacheKey key w ht (Closure.getTextureFormat env d) usage in
  let t' := mkTexture (next_id h) w ht (Closure.getTextureFormat env d) usage in
  let o := Closure.getOrCreateTexture env key (w, ht) d usage h in
  resourceCache h !! k = None →
  miss_events "Creating new texture for " k t' (events o) ∧
  (∀ r, result o = Val r →
     r = t' ∧ resourceCache (heap o) = <[k := RTexture t']> (resourceCache h)).
Proof.
  intros k t' o Hl. subst o.
  change (wp (Closure.getOrCreateTexture env key (w, ht) d usage) h
    (λ r h' evs,
       miss_events "Creating new texture for " k t' evs ∧
       (∀ r', r = Val r' →
          r' = t' ∧ resourceCache h' = <[k := RTexture t']> (resourceCache h)))).
  unfold Closure.getOrCreateTexture, Closure.createTexture, miss_events.
  fold k. apply wp_bind_gets. rewrite Hl.
  wp_run ltac:(split; [by (left + right)|
                       try (by intros ? [=]); by intros ? [= <-]]).
Qed.

Lemma class_getOrCreateTexture_miss env this key w ht usage h :
  let k := textureCacheKey key w ht (Class.format this) usage in
  let t' := mkTexture (next_id h) w ht (Class.format this) usage in
  let o := Class.getOrCreateTexture env this key (w, ht) usage h in
  resourceCache h !! k = None →
  miss_events "Creating new texture" k t' (events o) ∧
  (∀ r, result o = Val r →
     r = t' ∧ resourceCache (heap o) = <[k := RTexture t']> (resourceCache h)).
Proof.
  intros k t' o Hl. subst o.
  change (wp (Class.getOrCreateTexture env this key (w, ht) usage) h
    (λ r h' evs,
       miss_events "Creating new texture" k t' evs ∧
       (∀ r', r = Val r' →
          r' = t' ∧ resourceCache h' = <[k := RTexture t']> (resourceCache h)))).
  unfold Class.getOrCreateTexture, miss_events.
  fold k. apply wp_bind_gets. rewrite Hl.
  wp_run ltac:(split; [by (left + right)|
                       try (by intros ? [=]); by intros ? [= <-]]).
Qed.

(** ** The pack bind group in a whole frame *)

Lemma class_blur_no_pack env this pw ph src mask h :
  wp (Class.blur_and_render_to_canvas env this pw ph src mask) h
     (λ r h' evs, List.filter is_pack_bind_group evs = []).
Proof.
  unfold Class.blur_and_render_to_canvas.
  destruct (Class.directOutput this) eqn:Hd.
  - repeat wp_step; [wp_beta; by filter_norm|].
    wp_texture class_getOrCreateTexture_spec; [|wp_beta; by filter_norm].
    repeat wp_step.
    all: wp_beta; by filter_norm.
  - repeat wp_step; [wp_beta; by filter_norm|].
    wp_texture class_getOrCreateTexture_spec; [|wp_beta; by filter_norm].
    repeat wp_step.
    1-3: wp_beta; by filter_norm.
    wp_resource class_getOrCreateResource_spec class_pipeline_constructor;
      [|wp_beta; by filter_norm].
    unfold Class.as_pipeline.
    repeat wp_step.
    all: wp_beta; by filter_norm.
Qed.

Ltac frame_bg_fin :=
  wp_beta;
  first
    [ lazymatch goal with
      | HD : pack_bind_group_detail _ _ _ _ |- _ =>
          let Hpre := fresh "Hpre" in let Heq := fresh "Heq" in
          let x1 := fresh "x" in let x2 := fresh "x" in
          let x3 := fresh "x" in let x4 := fresh "x" in
          destruct HD as (x1&x2&x3&x4&Hpre&Heq);
          exists x1, x2, x3, x4;
          split;
            [filter_norm; rewrite ?app_nil_r;
             repeat match goal with
               | H : List.filter is_pack_bind_group _ = [] |- _ =>
                   rewrite H
               end; rewrite ?app_nil_r;
             first [exact Hpre
                   |rewrite (Heq (ex_intro _ _ eq_refl)); reflexivity]
            |first [by intros [? [=]]
                   |intros _; filter_norm; rewrite ?app_nil_r;
                    repeat match goal with
                      | H : List.filter is_pack_bind_group _ = [] |- _ =>
                          rewrite H
                      end; rewrite ?app_nil_r;
                    by rewrite (Heq (ex_intro _ _ eq_refl))]]
      end
    | bg_fin ].

Lemma class_render_bind_group env this f h :
  wp (Class.render env this f) h (λ r h' evs,
    pack_bind_group_detail (Class.gpu_interop (segmenter h))
      (Class.downscaleSampler this) (∃ a, r = Val a) evs).
Proof.
  unfold Class.render.
  wp_phase class_import_source_phase;
    [|unfold pack_bind_group_detail; bg_fin].
  rewrite <-Hseg.
  wp_phase_with class_segment_phase class_segment_bind_group;
    [|frame_bg_fin].
  wp_resize class_update_canvas_size_spec; [|frame_bg_fin].
  wp_phase_with class_blur_phase class_blur_no_pack; [|frame_bg_fin].
  repeat wp_step. all: frame_bg_fin.
  Unshelve. all: seg_defaults.
Qed.

(** ** Two frames in a row *)

Lemma frame_post_kept {A} h (r : Result A) h' evs :
  frame_post h r h' evs → cache_wf (resourceCache h) →
  nothing_reallocated (resourceCache h) (resourceCache h') evs.
Proof. intros (_ & _ & Hk) Hwf. exact (Hk Hwf). Qed.

Lemma frame_output_resources d z fmt f h (returned : VideoFrame → Prop)
    h' evs frame :
  frame_output d z fmt f h returned h' evs → returned frame →
  cache_wf (resourceCache h) →
  sized_resources d z fmt f (resourceCache h').
Proof.
  intros (src & mask & ct & out & enc & vid & pass & _ & Hret) Hf Hwf.
  destruct (Hret frame Hf) as (_ & _ & _ & _ & _ & _ & Hw & Hh & _ & Hc).
  destruct (Hc Hwf) as (Hout & Hp & Hsrc).
  split_and!; [by exists out|done|].
  intros Hz. destruct (Hsrc Hz) as (t & _ & ? & ? & ?). by exists t.
Qed.

Lemma frame_output_same d z fmt f1 f2 h1 h2 h3 evs1 evs2
    (ret1 ret2 : VideoFrame → Prop) frame1 frame2 :
  displayWidth f1 = displayWidth f2 → displayHeight f1 = displayHeight f2 →
  frame_output d z fmt f1 h1 ret1 h2 evs1 → ret1 frame1 →
  frame_output d z fmt f2 h2 ret2 h3 evs2 → ret2 frame2 →
  cache_wf (resourceCache h1) → cache_wf (resourceCache h2) →
  resourceCache h2 ⊆ resourceCache h3 →
  same_objects d z f1 evs1 evs2.
Proof.
  intros Ew Eh (src1 & mask1 & ct1 & out1 & enc1 & vid1 & pass1 & _ & Hret1)
    Hf1 (src2 & mask2 & ct2 & out2 & enc2 & vid2 & pass2 & _ & Hret2)
    Hf2 Hwf1 Hwf2 Hsub.
  destruct (Hret1 frame1 Hf1) as (Heq1 & _ & _ & _ & _ & _ & _ & _ & _ & Hc1).
  destruct (Hret2 frame2 Hf2) as (Heq2 & _ & _ & _ & _ & _ & _ & _ & _ & Hc2).
  destruct (Hc1 Hwf1) as (Hout1 & _ & Hsrc1).
  destruct (Hc2 Hwf2) as (Hout2 & _ & Hsrc2).
  rewrite <-Ew, <-Eh in *.
  pose proof (lookup_weaken _ _ _ _ Hout1 Hsub) as Hout1'.
  assert (out1 = out2) as <- by congruence.
  exists src1, src2, mask1, mask2, ct1, ct2, out1, enc1, enc2, vid1, vid2,
    pass1, pass2.
  split_and!; [done|done|].
  intros Hz.
  destruct (Hsrc1 Hz) as (t1 & -> & Hl1 & _).
  destruct (Hsrc2 Hz) as (t2 & -> & Hl2 & _).
  pose proof (lookup_weaken _ _ _ _ Hl1 Hsub) as Hl1'.
  congruence.
Qed.

(** After any frame of the closure, a frame of the canvas size during
    which no external call fails is returned. *)
Lemma closure_render_ok env params f h :
  cache_wf (resourceCache h) → nofault_from env (clock h) →
  canvas_width h = js_or (displayWidth f) 1280 →
  canvas_height h = js_or (displayHeight f) 720 →
  ∃ out, result (Closure.render env params f h) = Val (Some out).
Proof.
  intros Hwf Hnf Hw Hh.
  destruct (closure_renderWithWebGPU_ok env params f h Hwf Hnf Hw Hh)
    as [out Hout].
  exists out. by apply closure_render_returned.
Qed.

Lemma closure_render_caught env params f h x :
  result (Closure.renderWithWebGPU env params f h) = Throw x →
  result (Closure.render env params f h) = Val None ∧
  events (Closure.render env params f h) =
    events (Closure.renderWithWebGPU env params f h)
      ++ [ConsoleWarn "WebGPU rendering failed:" x].
Proof.
  intros Hx. destruct (closure_render_inner env params f h) as (-> & _ & ->).
  by rewrite Hx.
Qed.

Lemma closure_render_total env params f h :
  ∃ v, result (Closure.render env params f h) = Val v.
Proof.
  destruct (closure_render_inner env params f h) as (-> & _ & _).
  destruct (result (Closure.renderWithWebGPU env params f h)); by eexists.
Qed.

Lemma closure_render_resize env params f h :
  canvas_width h ≠ js_or (displayWidth f) 1280 ∨
  canvas_height h ≠ js_or (displayHeight f) 720 →
  result (Closure.render env params f h) = Val None.
Proof.
  intros Hne.
  destruct (closure_render_inner env params f h) as (-> & _ & _).
  pose proof (closure_renderWithWebGPU_canvas env params f h) as Hc.
  unfold wp in Hc.
  destruct (result (Closure.renderWithWebGPU env params f h)) as [out|x];
    [|done].
  destruct Hc as [Hw Hh]; [by exists out|]. tauto.
Qed.

(** ** Frames of another size than the canvas *)

(** A cached object is still cached after the parts of a frame that
    followed. *)
Ltac lookup_kept :=
  simpl;
  first
    [ eassumption
    | eapply cache_kept_lookup; [eassumption|eassumption|lookup_kept] ].

(** In the closure-based renderer a frame of another size than the canvas
    gets no further than the resize: it is not returned and takes no step
    of the blur and composite stage. *)
Lemma closure_renderWithWebGPU_dropped env params f h :
  canvas_width h ≠ js_or (displayWidth f) 1280 ∨
  canvas_height h ≠ js_or (displayHeight f) 720 →
  wp (Closure.renderWithWebGPU env params f) h (λ r h' evs,
    (∀ out, r ≠ Val out) ∧ List.filter is_output_step evs = []).
Proof.
  intros Hne. unfold Closure.renderWithWebGPU.
  do 2 wp_step.
  wp_phase closure_import_source_phase;
    [|wp_beta; split; [by intros ? [=]|by filter_norm]].
  wp_phase closure_scale_down_and_segment_phase;
    [|wp_beta; split; [by intros ? [=]|by filter_norm]].
  wp_beta. apply wp_bind. unfold wp at 1.
  rewrite closure_update_canvas_size_differs
    by (destruct Hne; [left|right]; congruence).
  simpl. split; [by intros ? [=]|by filter_norm].
Qed.

Lemma closure_render_dropped env params f h :
  canvas_width h ≠ js_or (displayWidth f) 1280 ∨
  canvas_height h ≠ js_or (displayHeight f) 720 →
  result (Closure.render env params f h) = Val None ∧
  List.filter is_output_step (events (Closure.render env params f h)) = [].
Proof.
  intros Hne. split; [by apply closure_render_resize|].
  rewrite closure_render_filter by done.
  by destruct (closure_renderWithWebGPU_dropped env params f h Hne).
Qed.

(** Without zero copy a frame during which no external call fails leaves
    its source texture cached under the key of its size, also when the
    frame is not returned. *)
Lemma closure_renderWithWebGPU_source env params f h :
  cache_wf (resourceCache h) → nofault_from env (clock h) →
  Closure.zeroCopy params = false →
  wp (Closure.renderWithWebGPU env params f) h (λ r h' evs,
    ∃ t,
      resourceCache h' !!
        textureCacheKey "sourceTexture" (displayWidth f) (displayHeight f)
          (Closure.getTextureFormat env (Closure.directOutput params))
          (N.lor GPUTextureUsage.TEXTURE_BINDING
             (N.lor GPUTextureUsage.COPY_DST
                GPUTextureUsage.RENDER_ATTACHMENT))
        = Some (RTexture t) ∧
      tex_width t = displayWidth f ∧ tex_height t = displayHeight f).
Proof.
  intros Hwf Hnf Hz. unfold Closure.renderWithWebGPU.
  do 2 wp_step.
  eapply wp_use;
    [apply wp_conj;
       [apply wp_conj;
          [eapply closure_import_source_phase
          |eapply closure_import_source_detail]
       |by eapply closure_import_source_ok]|].
  intros r h1 e1 [[HP HD] [src ->]]. use_phase_post HP.
  destruct (HD _ eq_refl) as [_ Hs].
  destruct (Hs Hz) as (t & -> & Hl & Hw & Hh).
  pose proof (cache_kept_wf _ _ _ Hkept Hwf) as Hwf1.
  wp_phase closure_scale_down_and_segment_phase.
  2: { wp_beta. exists t. split_and!; [lookup_kept|done|done]. }
  pose proof (cache_kept_wf _ _ _ Hkept0 Hwf1) as Hwf2.
  wp_resize closure_update_canvas_size_spec.
  2: { wp_beta. exists t. split_and!; [lookup_kept|done|done]. }
  pose proof (cache_kept_wf _ _ _ Hkept1 Hwf2) as Hwf3.
  wp_phase closure_blur_phase.
  2: { wp_beta. exists t. split_and!; [lookup_kept|done|done]. }
  wp_run ltac:(exists t; split_and!; [lookup_kept|done|done]).
Qed.

Lemma closure_render_source env params f h :
  cache_wf (resourceCache h) → nofault_from env (clock h) →
  Closure.zeroCopy params = false →
  ∃ t,
    resourceCache (heap (Closure.render env params f h)) !!
      textureCacheKey "sourceTexture" (displayWidth f) (displayHeight f)
        (Closure.getTextureFormat env (Closure.directOutput params))
        (N.lor GPUTextureUsage.TEXTURE_BINDING
           (N.lor GPUTextureUsage.COPY_DST
              GPUTextureUsage.RENDER_ATTACHMENT))
      = Some (RTexture t) ∧
    tex_width t = displayWidth f ∧ tex_height t = displayHeight f.
Proof.
  intros Hwf Hnf Hz.
  destruct (closure_render_inner env params f h) as (_ & -> & _).
  exact (closure_renderWithWebGPU_source env params f h Hwf Hnf Hz).
Qed.

(** * The properties of the specification *)

(** C1, amended.  The class-based renderer decides the segmentation path
    on every call from the flags the segmenter has at that call: when it
    offers [segmentGPUBuffer] and reports the device type [gpu] the frame
    takes the GPU-native steps and reads nothing back, otherwise it takes
    the readback steps and exchanges no GPU buffer.  The closure-based
    renderer makes no such check: every frame takes the readback steps,
    whatever the segmenter declares. *)
Theorem segmentation_path_selection env :
  (∀ sg, Class.gpu_interop sg = true ↔
         segmentGPUBuffer sg = true ∧ deviceType sg = "gpu") ∧
  (∀ this f h,
     let o := Class.render env this f h in
     let interop := Class.gpu_interop (segmenter h) in
     segment_detail interop (Class.segmentationWidth this)
       (Class.segmentationHeight this) (∃ out, result o = Val out)
       (events o) ∧
     (interop = true → List.filter is_readback (events o) = []) ∧
     (interop = false → List.filter is_interop (events o) = [])) ∧
  (∀ params f h,
     let o := Closure.render env params f h in
     segment_detail false (Closure.segmentationWidth params)
       (Closure.segmentationHeight params)
       (∃ out, result o = Val (Some out)) (events o) ∧
     List.filter is_interop (events o) = []).
Proof.
  split_and!.
  - intros sg. unfold Class.gpu_interop.
    rewrite andb_true_iff, bool_decide_eq_true. done.
  - intros this f h o interop.
    pose proof (class_render_segment env this f h) as Hs.
    split; [exact Hs|]. by apply segment_detail_paths in Hs.
  - intros params f h o.
    pose proof (closure_render_segment env params f h) as Hs.
    split; [exact Hs|].
    apply segment_detail_paths in Hs. by apply Hs.
Qed.

(** The closure reads the downscaled frame back although the segmenter
    declares GPU buffers and GPU affinity. *)
Lemma closure_reads_back_for_gpu_segmenter :
  let o := Closure.render calm (closure_params false false) frame_720p
             (started gpu_segmenter) in
  segmentGPUBuffer (segmenter (started gpu_segmenter)) = true ∧
  deviceType (segmenter (started gpu_segmenter)) = "gpu" ∧
  (∃ out, result o = Val (Some out)) ∧
  length (List.filter is_readback (events o)) = 4%nat ∧
  List.filter is_interop (events o) = [].
Proof.
  vm_compute. split_and!; try reflexivity. by eexists.
Qed.

Lemma segmentation_path_selection_witness :
  let o := Class.render calm (class_renderer false false) frame_720p
             (started gpu_segmenter) in
  Class.gpu_interop (segmenter (started gpu_segmenter)) = true ∧
  List.filter is_readback (events o) = [].
Proof.
  split; [reflexivity|].
  destruct (segmentation_path_selection calm) as (_ & Hclass & _).
  destruct (Hclass (class_renderer false false) frame_720p
              (started gpu_segmenter)) as (_ & Hgpu & _).
  apply Hgpu. reflexivity.
Defined.




(** C3, amended.  The closure-based renderer catches whatever one
    [render(videoFrame)] raises: the call logs the exception with
    [console.warn], resolves to no frame and never throws; the cache
    discipline survives, so a later frame of the canvas size during which
    no external call fails is returned.  The class-based [render] has no
    handler: what the import of the frame or the segmentation throws
    reaches its caller; its cache survives too, and a later frame during
    which no external call fails is returned. *)
Theorem frame_failure_containment env :
  (∀ params f h,
     let inner := Closure.renderWithWebGPU env params f h in
     let o := Closure.render env params f h in
     (∃ v, result o = Val v) ∧
     (∀ x, result inner = Throw x →
        result o = Val None ∧
        events o = events inner ++ [ConsoleWarn "WebGPU rendering failed:" x]) ∧
     (cache_wf (resourceCache h) →
        cache_wf (resourceCache (heap o)) ∧
        ∀ f', nofault_from env (clock (heap o)) →
          canvas_width (heap o) = js_or (displayWidth f') 1280 →
          canvas_height (heap o) = js_or (displayHeight f') 720 →
          ∃ out, result (Closure.render env params f' (heap o))
                   = Val (Some out))) ∧
  (∀ this f h,
     let o := Class.render env this f h in
     cache_wf (resourceCache h) →
     cache_wf (resourceCache (heap o)) ∧
     ∀ f', nofault_from env (clock (heap o)) →
       ∃ out, result (Class.render env this f' (heap o)) = Val out) ∧
  (∀ this f h x,
     let imported := Class.import_source env this f h in
     (result imported = Throw x ∨
      ∃ src, result imported = Val src ∧
        result (Class.segment env this src (heap imported)) = Throw x) →
     result (Class.render env this f h) = Throw x).
Proof.
  split_and!.
  - intros params f h inner o. split_and!.
    + apply closure_render_total.
    + intros x Hx. by apply closure_render_caught.
    + intros Hwf.
      pose proof (closure_render_frame env params f h) as [Hp _].
      destruct (frame_post_kept h (result o) (heap o) (events o) Hp Hwf)
        as (Hwf' & _).
      split; [done|]. intros f' Hnf Hw Hh. by apply closure_render_ok.
  - intros this f h o Hwf.
    destruct (frame_post_kept h (result o) (heap o) (events o)
                (class_render_frame env this f h) Hwf) as (Hwf' & _).
    split; [done|]. intros f' Hnf.
    exact (class_render_ok env this f' (heap o) Hwf' Hnf).
  - intros this f h x imported Hx.
    change (wp (Class.render env this f) h (λ r _ _, r = Throw x)).
    unfold Class.render. apply wp_bind. unfold wp at 1. fold imported.
    destruct Hx as [->|(src & -> & Hseg)]; [done|].
    apply wp_bind. unfold wp. by rewrite Hseg.
Qed.

(** A bind group that cannot be made: the class-based [render] throws. *)
Lemma class_render_propagates :
  result (Class.render (bind_groups_fail_until 8) (class_renderer false false)
            frame_720p (started cpu_segmenter))
    = Throw (ExternalError 7).
Proof. vm_compute. reflexivity. Qed.

Lemma bind_groups_fail_until_nofault t :
  nofault_from (bind_groups_fail_until t) t.
Proof.
  intros t' e Ht. simpl.
  destruct (Nat.ltb_spec t' t) as [Hlt|_]; [lia|done].
Qed.

Lemma frame_failure_containment_witness :
  let env := bind_groups_fail_until 35 in
  let params := closure_params false false in
  let o := Closure.render env params frame_720p (started cpu_segmenter) in
  cache_wf (resourceCache (started cpu_segmenter)) ∧
  nofault_from env (clock (heap o)) ∧
  result o = Val None ∧
  ∃ out, result (Closure.render env params frame_720p (heap o))
           = Val (Some out).
Proof.
  intros env params o.
  assert (Hwf : cache_wf (resourceCache (started cpu_segmenter)))
    by apply cache_wf_empty.
  assert (Hc : clock (heap o) = 35%nat) by (vm_compute; reflexivity).
  assert (Hnf : nofault_from env (clock (heap o)))
    by (rewrite Hc; apply bind_groups_fail_until_nofault).
  split_and!; [done|done|vm_compute; reflexivity|].
  destruct (frame_failure_containment env) as (Hclosure & _).
  destruct (Hclosure params frame_720p (started cpu_segmenter))
    as (_ & _ & Hnext).
  destruct (Hnext Hwf) as [_ Hok].
  apply Hok; [done|vm_compute; reflexivity|vm_compute; reflexivity].
Defined.






(** C6.  With direct output no frame begins a render pass or draws.
    Without it a frame draws at most once, and a returned frame has exactly
    one render pass, whose single colour attachment is a view of the
    surface texture acquired in that frame, cleared to opaque black with
    load [clear] and store [store], followed by one draw of six vertices
    that leaves the instance count to its default of one (the renderers
    have no indexed draw).  The class-based renderer returns every frame
    during which no external call fails, and so does the closure-based
    one when the canvas has the processing size.  For a frame of another
    size than the canvas the closure-based renderer departs from this: the
    frame is not returned and nothing is drawn, whether or not an
    external call fails. *)
Theorem compositing_draw_calls env :
  (∀ this f h,
     let o := Class.render env this f h in
     composite_draws (Class.directOutput this) (∃ out, result o = Val out)
       (events o) ∧
     (cache_wf (resourceCache h) → nofault_from env (clock h) →
        ∃ out, result o = Val out)) ∧
  (∀ params f h,
     let o := Closure.render env params f h in
     let pw := js_or (displayWidth f) 1280 in
     let ph := js_or (displayHeight f) 720 in
     composite_draws (Closure.directOutput params)
       (∃ out, result o = Val (Some out)) (events o) ∧
     (cache_wf (resourceCache h) → nofault_from env (clock h) →
        canvas_width h = pw → canvas_height h = ph →
        ∃ out, result o = Val (Some out)) ∧
     (canvas_width h ≠ pw ∨ canvas_height h ≠ ph →
        result o = Val None ∧ List.filter is_composite (events o) = [])) ∧
  draw_instances None = 1.
Proof.
  split_and!.
  - intros this f h o. split.
    + exact (frame_output_composite _ _ _ _ _ _ _ _
               (class_render_output env this f h)).
    + intros Hwf Hnf. exact (class_render_ok env this f h Hwf Hnf).
  - intros params f h o pw ph. split_and!.
    + exact (frame_output_composite _ _ _ _ _ _ _ _
               (closure_render_output env params f h)).
    + intros Hwf Hnf Hw Hh. by apply closure_render_ok.
    + intros Hne.
      destruct (closure_render_dropped env params f h Hne) as [Hr Hev].
      split; [exact Hr|].
      apply (sub_filter_eq is_composite) in Hev; [exact Hev|by intros []].
  - reflexivity.
Qed.

Lemma compositing_draw_calls_witness :
  let o := Class.render calm (class_renderer false false) frame_1080p
             (started cpu_segmenter) in
  let o' := Closure.render calm (closure_params false false) frame_1080p
              (started cpu_segmenter) in
  canvas_width (started cpu_segmenter) ≠ js_or (displayWidth frame_1080p) 1280 ∧
  (∃ pass, List.filter is_draw (events o) = [Draw pass 6 None]) ∧
  result o' = Val None ∧ List.filter is_composite (events o') = [].
Proof.
  intros o o'.
  assert (Hwf : cache_wf (resourceCache (started cpu_segmenter)))
    by apply cache_wf_empty.
  assert (Hnf : nofault_from calm (clock (started cpu_segmenter)))
    by (intros ? ? ?; reflexivity).
  assert (Hne : canvas_width (started cpu_segmenter)
                  ≠ js_or (displayWidth frame_1080p) 1280)
    by (vm_compute; discriminate).
  destruct (compositing_draw_calls calm) as (Hclass & Hclosure & _).
  destruct (Hclass (class_renderer false false) frame_1080p
              (started cpu_segmenter)) as [[_ Hdraw] Hret].
  destruct (Hdraw (Hret Hwf Hnf)) as (ct & enc & vid & pass & _ & Hc).
  destruct (Hclosure (closure_params false false) frame_1080p
              (started cpu_segmenter)) as (_ & _ & Hdrop).
  destruct (Hdrop (or_introl Hne)) as [Hr Hev].
  split_and!; [exact Hne| |exact Hr|exact Hev].
  exists pass.
  apply (sub_filter_eq is_draw) in Hc; [exact Hc|by intros []].
Defined.



(** C8.  In every frame the blur engine is first told the processing
    size, the display size of the incoming frame with 1280 by 720 for a
    size not reported, and then run at most once, with kernel parameter
    360; in a returned frame it ran exactly once, into the surface texture
    acquired in that frame with direct output and otherwise into the
    texture cached under the output key, which has the processing size.
    The class-based renderer returns every frame during which no external
    call fails, and so does the closure-based one when the canvas has the
    processing size.  For a frame of another size than the canvas the
    closure-based renderer departs from this: the frame is not returned
    and the blur engine is neither told a size nor run, whether or not an
    external call fails. *)
Theorem blur_engine_invocation env :
  (∀ this f h,
     let o := Class.render env this f h in
     blur_invocation (Class.directOutput this) (Class.format this) f
       (∃ out, result o = Val out) h (heap o) (events o) ∧
     (cache_wf (resourceCache h) → nofault_from env (clock h) →
        ∃ out, result o = Val out)) ∧
  (∀ params f h,
     let o := Closure.render env params f h in
     let pw := js_or (displayWidth f) 1280 in
     let ph := js_or (displayHeight f) 720 in
     blur_invocation (Closure.directOutput params)
       (Closure.getTextureFormat env (Closure.directOutput params)) f
       (∃ out, result o = Val (Some out)) h (heap o) (events o) ∧
     (cache_wf (resourceCache h) → nofault_from env (clock h) →
        canvas_width h = pw → canvas_height h = ph →
        ∃ out, result o = Val (Some out)) ∧
     (canvas_width h ≠ pw ∨ canvas_height h ≠ ph →
        result o = Val None ∧ List.filter is_blur_engine (events o) = [])).
Proof.
  split.
  - intros this f h o. split.
    + exact (frame_output_blur _ _ _ _ _ _ _ _
               (class_render_output env this f h)).
    + intros Hwf Hnf. exact (class_render_ok env this f h Hwf Hnf).
  - intros params f h o pw ph. split_and!.
    + exact (frame_output_blur _ _ _ _ _ _ _ _
               (closure_render_output env params f h)).
    + intros Hwf Hnf Hw Hh. by apply closure_render_ok.
    + intros Hne.
      destruct (closure_render_dropped env params f h Hne) as [Hr Hev].
      split; [exact Hr|].
      apply (sub_filter_eq is_blur_engine) in Hev; [exact Hev|by intros []].
Qed.

Lemma blur_engine_invocation_witness :
  let f := mkVideoFrame 0 0 7 None in
  let o := Closure.render calm (closure_params false false) f
             (started cpu_segmenter) in
  let o' := Closure.render calm (closure_params false false) frame_1080p
              (started cpu_segmenter) in
  canvas_width (started cpu_segmenter) ≠ js_or (displayWidth frame_1080p) 1280 ∧
  (∃ enc src mask out,
     List.filter is_blur_engine (events o)
       = [SetInputDimensions 1280 720; Blur enc src mask out 360]) ∧
  result o' = Val None ∧ List.filter is_blur_engine (events o') = [].
Proof.
  intros f o o'.
  assert (Hwf : cache_wf (resourceCache (started cpu_segmenter)))
    by apply cache_wf_empty.
  assert (Hnf : nofault_from calm (clock (started cpu_segmenter)))
    by (intros ? ? ?; reflexivity).
  assert (Hne : canvas_width (started cpu_segmenter)
                  ≠ js_or (displayWidth frame_1080p) 1280)
    by (vm_compute; discriminate).
  destruct (blur_engine_invocation calm) as [_ Hclosure].
  destruct (Hclosure (closure_params false false) f (started cpu_segmenter))
    as ((src & mask & ct & out & enc & _ & Hret) & Hok & _).
  destruct (Hret (Hok Hwf Hnf eq_refl eq_refl)) as (Heq & _).
  destruct (Hclosure (closure_params false false) frame_1080p
              (started cpu_segmenter)) as (_ & _ & Hdrop).
  destruct (Hdrop (or_introl Hne)) as [Hr Hev].
  split_and!; [exact Hne| |exact Hr|exact Hev].
  by exists enc, src, mask, out.
Defined.

(** C9.  Every downscale dispatch of a frame is on the grid of
    [ceil(segmentationWidth / 8)] by [ceil(segmentationHeight / 8)]
    workgroups, there is at most one, and exactly one in a returned frame.
    The workgroups are 8 by 8, so the grid covers the output; the inline
    shader returns without a store for an invocation at or beyond the
    output dimensions, so a dispatch stores exactly to the coordinates
    within them. *)
Theorem downscale_dispatch_in_bounds env :
  (∀ this f h,
     let o := Class.render env this f h in
     dispatch_grid (Class.segmentationWidth this)
       (Class.segmentationHeight this) (∃ out, result o = Val out)
       (events o)) ∧
  (∀ params f h,
     let o := Closure.render env params f h in
     dispatch_grid (Closure.segmentationWidth params)
       (Closure.segmentationHeight params)
       (∃ out, result o = Val (Some out)) (events o)) ∧
  Closure.workgroup_size = (8, 8) ∧
  (∀ w, w ≤ 8 * Math_ceil_div w 8 ∧ 8 * Math_ceil_div w 8 < w + 8) ∧
  (∀ dims gid,
     dims.1 ≤ gid.1 ∨ dims.2 ≤ gid.2 →
     Closure.downscale_main dims gid = None) ∧
  (∀ w ht x y,
     (x, y) ∈ Closure.dispatch_stores (w, ht) (Math_ceil_div w 8)
                (Math_ceil_div ht 8)
     ↔ x < w ∧ y < ht).
Proof.
  split_and!.
  - intros this f h o.
    pose proof (class_render_segment env this f h) as Hs.
    unfold wp in Hs. exact (segment_detail_dispatch _ _ _ _ _ Hs).
  - intros params f h o.
    pose proof (closure_render_segment env params f h) as Hs.
    unfold wp in Hs. exact (segment_detail_dispatch _ _ _ _ _ Hs).
  - reflexivity.
  - intros w. apply Math_ceil_div_bounds. lia.
  - intros dims gid. apply downscale_main_None.
  - intros w ht x y. rewrite elem_of_dispatch_stores.
    pose proof (Math_ceil_div_bounds w 8 ltac:(lia)).
    pose proof (Math_ceil_div_bounds ht 8 ltac:(lia)).
    split; [tauto|]. intros [? ?]. split_and!; [done|done|lia|lia].
Qed.

Lemma downscale_dispatch_in_bounds_witness :
  let o := Closure.render calm (closure_params false false) frame_720p
             (started cpu_segmenter) in
  (∃ out, result o = Val (Some out)) ∧
  (∃ pass, List.filter is_dispatch (events o)
           = [DispatchWorkgroups pass 32 18]) ∧
  Closure.downscale_main (250, 144) (250, 3) = None.
Proof.
  intros o.
  assert (Hr : ∃ out, result o = Val (Some out)) by (vm_compute; by eexists).
  destruct (downscale_dispatch_in_bounds calm)
    as (_ & Hclosure & _ & _ & Hnone & _).
  split_and!; [exact Hr| |apply Hnone; left; simpl; lia].
  destruct (Hclosure (closure_params false false) frame_720p
              (started cpu_segmenter)) as (_ & _ & Hret).
  exact (Hret Hr).
Defined.

(** C10.  In the class-based renderer, a frame for which the GPU-native
    path is selected makes the bind group of the downscale pass at most
    once, exactly once when the frame is returned, and gives it as
    binding 2 the [texture] member of the destination resource; that
    resource only has a [buffer] member, so the binding is [undefined]
    and the segmenter's input buffer is not bound. *)
Theorem interop_binding_is_undefined env this f h :
  Class.gpu_interop (segmenter h) = true →
  let o := Class.render env this f h in
  (∀ inbuf, Class.texture_member (Class.WithBuffer inbuf) = BindUndefined) ∧
  ∃ layout b0 group,
    let created :=
      [CreateBindGroup layout
         [(0, b0); (1, BindSampler (Class.downscaleSampler this));
          (2, BindUndefined)] group] in
    List.filter is_pack_bind_group (events o) `prefix_of` created ∧
    ((∃ out, result o = Val out) →
     List.filter is_pack_bind_group (events o) = created).
Proof.
  intros Hi o. split; [done|].
  pose proof (class_render_bind_group env this f h) as Hb.
  unfold wp in Hb. rewrite Hi in Hb.
  destruct Hb as (layout & b0 & _ & group & Hpre & Hret).
  by exists layout, b0, group.
Qed.

Lemma interop_binding_is_undefined_witness :
  let o := Class.render calm (class_renderer false false) frame_720p
             (started gpu_segmenter) in
  Class.gpu_interop (segmenter (started gpu_segmenter)) = true ∧
  ∃ layout b0 group,
    List.filter is_pack_bind_group (events o) `prefix_of`
      [CreateBindGroup layout [(0, b0); (1, BindSampler 1); (2, BindUndefined)]
         group].
Proof.
  intros o.
  assert (Hi : Class.gpu_interop (segmenter (started gpu_segmenter)) = true)
    by reflexivity.
  split; [exact Hi|].
  destruct (interop_binding_is_undefined calm (class_renderer false false)
              frame_720p (started gpu_segmenter) Hi)
    as (_ & layout & b0 & group & Hpre & _).
  by exists layout, b0, group.
Defined.

(** * Further properties of the renderers *)

(** ** Cache keys *)

Lemma dim_string_inj (w1 h1 w2 h2 : N) :
  pretty w1 +:+ "x" +:+ pretty h1 = pretty w2 +:+ "x" +:+ pretty h2 →
  w1 = w2 ∧ h1 = h2.
Proof.
  intros E.
  apply (split_at_char "x") in E as [Ew E]; [|by apply occurs_pretty..].
  by simplify_eq.
Qed.

Lemma renderPipelineKey_inj w1 h1 w2 h2 :
  renderPipelineKey w1 h1 = renderPipelineKey w2 h2 → w1 = w2 ∧ h1 = h2.
Proof.
  unfold renderPipelineKey. intros E.
  apply (split_at_char "_" "renderPipeline" "renderPipeline") in E
    as [_ E]; [|done..].
  by apply dim_string_inj.
Qed.

Lemma readbackBufferKey_inj n1 n2 :
  readbackBufferKey n1 = readbackBufferKey n2 → n1 = n2.
Proof.
  unfold readbackBufferKey. intros E. cbn in E.
  repeat apply String_inj in E as [_ E] || injection E as E.
  by apply (inj pretty).
Qed.

(** X1.  Cache keys do not collide: a texture key determines the name
    and the size it was built from (for a name without underscore, as all
    names in the code are), a pipeline key its size and a readback key its
    buffer size, and keys of the three kinds are different strings, so
    the one untyped cache never hands a buffer or a pipeline to a texture
    request. *)
Theorem cache_keys_do_not_collide :
  (∀ name1 name2 w1 h1 w2 h2 fmt1 fmt2 u1 u2,
     occurs "_" name1 = 0%nat → occurs "_" name2 = 0%nat →
     textureCacheKey name1 w1 h1 fmt1 u1 = textureCacheKey name2 w2 h2 fmt2 u2 →
     name1 = name2 ∧ w1 = w2 ∧ h1 = h2) ∧
  (∀ w1 h1 w2 h2,
     renderPipelineKey w1 h1 = renderPipelineKey w2 h2 → w1 = w2 ∧ h1 = h2) ∧
  (∀ n1 n2, readbackBufferKey n1 = readbackBufferKey n2 → n1 = n2) ∧
  (∀ name w ht fmt u n, textureCacheKey name w ht fmt u ≠ readbackBufferKey n) ∧
  (∀ name w ht fmt u w' h',
     textureCacheKey name w ht fmt u ≠ renderPipelineKey w' h') ∧
  (∀ n w ht, readbackBufferKey n ≠ renderPipelineKey w ht).
Proof.
  split_and!.
  - intros. by eapply textureCacheKey_inj.
  - apply renderPipelineKey_inj.
  - apply readbackBufferKey_inj.
  - intros name w ht fmt u n E.
    pose proof (occurs_textureCacheKey name w ht fmt u) as H3.
    rewrite E, occurs_readbackBufferKey in H3. lia.
  - intros name w ht fmt u w' h' E.
    pose proof (occurs_textureCacheKey name w ht fmt u) as H3.
    rewrite E, occurs_renderPipelineKey in H3. lia.
  - intros n w ht E.
    pose proof (occurs_readbackBufferKey n) as H0.
    rewrite E, occurs_renderPipelineKey in H0. lia.
Qed.

Lemma cache_keys_do_not_collide_witness :
  occurs "_" "sourceTexture" = 0%nat ∧
  textureCacheKey "sourceTexture" 1280 720 "rgba8unorm" 22
    ≠ textureCacheKey "sourceTexture" 1920 1080 "rgba8unorm" 22.
Proof.
  split; [reflexivity|]. intros E.
  destruct cache_keys_do_not_collide as (Hinj & _).
  destruct (Hinj "sourceTexture" "sourceTexture" 1280 720 1920 1080
              "rgba8unorm" "rgba8unorm" 22 22 eq_refl eq_refl E)
    as (_ & Hw & _).
  discriminate Hw.
Defined.

(** ** The cache functions used twice *)

Lemma closure_getOrCreateResource_stores key createFn h r :
  result (Closure.getOrCreateResource key createFn h) = Val r →
  resourceCache (heap (Closure.getOrCreateResource key createFn h)) !! key
    = Some r.
Proof.
  unfold Closure.getOrCreateResource, bind, gets, emit, modify, ret. simpl.
  destruct (resourceCache h !! key) as [r'|] eqn:Hl; simpl.
  - by intros [= <-].
  - destruct (createFn h) as [[a|x] h1 e1]; simpl; [|done].
    intros [= <-]. apply lookup_insert_eq.
Qed.

Lemma closure_getOrCreateResource_hit key createFn h r :
  resourceCache h !! key = Some r →
  Closure.getOrCreateResource key createFn h = mkOutcome (Val r) h [].
Proof.
  intros Hl. unfold Closure.getOrCreateResource, bind, gets. simpl.
  by rewrite Hl.
Qed.

Lemma class_getOrCreateResource_stores key createFn h r :
  result (Class.getOrCreateResource key createFn h) = Val r →
  resourceCache (heap (Class.getOrCreateResource key createFn h)) !! key
    = Some r.
Proof.
  unfold Class.getOrCreateResource, bind, gets, emit, modify, ret. simpl.
  destruct (resourceCache h !! key) as [r'|] eqn:Hl; simpl.
  - by intros [= <-].
  - destruct (createFn h) as [[a|x] h1 e1]; simpl; [|done].
    intros [= <-]. apply lookup_insert_eq.
Qed.

Lemma class_getOrCreateResource_hit key createFn h r :
  resourceCache h !! key = Some r →
  Class.getOrCreateResource key createFn h = mkOutcome (Val r) h [].
Proof.
  intros Hl. unfold Class.getOrCreateResource, bind, gets. simpl.
  by rewrite Hl.
Qed.

(** X2.  A request that has been answered is answered again from the
    cache: whatever the cache held before, repeating a request that
    returned gives the same object, runs no constructor, logs nothing and
    leaves the heap as it is.  This holds for [getOrCreateResource] with
    any constructors and for [getOrCreateTexture], in both renderers. *)
Theorem answered_requests_hit :
  (∀ key createFn createFn' h r,
     let o := Closure.getOrCreateResource key createFn h in
     result o = Val r →
     Closure.getOrCreateResource key createFn' (heap o)
       = mkOutcome (Val r) (heap o) []) ∧
  (∀ key createFn createFn' h r,
     let o := Class.getOrCreateResource key createFn h in
     result o = Val r →
     Class.getOrCreateResource key createFn' (heap o)
       = mkOutcome (Val r) (heap o) []) ∧
  (∀ env key w ht d usage h t,
     let o := Closure.getOrCreateTexture env key (w, ht) d usage h in
     result o = Val t →
     let o' := Closure.getOrCreateTexture env key (w, ht) d usage (heap o) in
     result o' = Val t ∧ heap o' = heap o ∧ events o' = []) ∧
  (∀ env this key w ht usage h t,
     let o := Class.getOrCreateTexture env this key (w, ht) usage h in
     result o = Val t →
     let o' := Class.getOrCreateTexture env this key (w, ht) usage (heap o) in
     result o' = Val t ∧ heap o' = heap o ∧ events o' = []).
Proof.
  split_and!.
  - intros key createFn createFn' h r o Hr.
    apply closure_getOrCreateResource_hit.
    by apply closure_getOrCreateResource_stores.
  - intros key createFn createFn' h r o Hr.
    apply class_getOrCreateResource_hit.
    by apply class_getOrCreateResource_stores.
  - intros env key w ht d usage h t o Hr.
    destruct (closure_getOrCreateTexture_spec env key w ht d usage h)
      as (_ & _ & Hres & _).
    destruct (Hres t Hr) as (Hl & Hw & Hh).
    by apply closure_getOrCreateTexture_hit.
  - intros env this key w ht usage h t o Hr.
    destruct (class_getOrCreateTexture_spec env this key w ht usage h)
      as (_ & _ & Hres & _).
    destruct (Hres t Hr) as (Hl & Hw & Hh).
    by apply class_getOrCreateTexture_hit.
Qed.

Lemma answered_requests_hit_witness :
  let o := Closure.getOrCreateTexture calm "outputTexture" (1280, 720) false
             13 (started cpu_segmenter) in
  result o = Val (mkTexture 10 1280 720 "rgba8unorm" 13) ∧
  events (Closure.getOrCreateTexture calm "outputTexture" (1280, 720) false
            13 (heap o)) = [].
Proof.
  intros o.
  assert (Hr : result o = Val (mkTexture 10 1280 720 "rgba8unorm" 13))
    by (vm_compute; reflexivity).
  split; [exact Hr|].
  destruct answered_requests_hit as (_ & _ & Htex & _).
  by destruct (Htex calm "outputTexture" 1280 720 false 13
                 (started cpu_segmenter) _ Hr) as (_ & _ & ?).
Defined.

(** X3.  Under the cache discipline (every cached texture sits under a
    key that spells its own size) a texture request destroys nothing,
    loses nothing and keeps the discipline, so the size check of
    [getOrCreateTexture] never fires; and when no external call fails it
    returns a texture of the requested size. *)
Theorem texture_requests_keep_discipline env key w ht usage h :
  occurs "_" key = 0%nat → cache_wf (resourceCache h) →
  (∀ d,
     let o := Closure.getOrCreateTexture env key (w, ht) d usage h in
     nothing_reallocated (resourceCache h) (resourceCache (heap o))
       (events o) ∧
     (nofault_from env (clock h) →
      ∃ t, result o = Val t ∧ tex_width t = w ∧ tex_height t = ht)) ∧
  (∀ this,
     let o := Class.getOrCreateTexture env this key (w, ht) usage h in
     nothing_reallocated (resourceCache h) (resourceCache (heap o))
       (events o) ∧
     (nofault_from env (clock h) →
      ∃ t, result o = Val t ∧ tex_width t = w ∧ tex_height t = ht)).
Proof.
  intros Hkey Hwf. split.
  - intros d o.
    destruct (closure_getOrCreateTexture_spec env key w ht d usage h)
      as (_ & _ & Hres & Hk).
    destruct (Hk Hkey) as [Hkept Hok]. split; [exact (Hkept Hwf)|].
    intros Hnf. destruct (Hok Hwf Hnf) as [t Ht]. exists t.
    by destruct (Hres t Ht) as (_ & ? & ?).
  - intros this o.
    destruct (class_getOrCreateTexture_spec env this key w ht usage h)
      as (_ & _ & Hres & Hk).
    destruct (Hk Hkey) as [Hkept Hok]. split; [exact (Hkept Hwf)|].
    intros Hnf. destruct (Hok Hwf Hnf) as [t Ht]. exists t.
    by destruct (Hres t Ht) as (_ & ? & ?).
Qed.

Lemma texture_requests_keep_discipline_witness :
  occurs "_" "maskTexture" = 0%nat ∧
  cache_wf (resourceCache (started cpu_segmenter)) ∧
  nofault_from calm (clock (started cpu_segmenter)) ∧
  ∃ t, result (Closure.getOrCreateTexture calm "maskTexture" (64, 36) true
                 22 (started cpu_segmenter)) = Val t ∧
       tex_width t = 64 ∧ tex_height t = 36.
Proof.
  assert (Hwf : cache_wf (resourceCache (started cpu_segmenter)))
    by apply cache_wf_empty.
  assert (Hnf : nofault_from calm (clock (started cpu_segmenter)))
    by (intros ? ? ?; reflexivity).
  split_and!; [reflexivity|done|done|].
  destruct (texture_requests_keep_discipline calm "maskTexture" 64 36 22
              (started cpu_segmenter) eq_refl Hwf) as [Hclosure _].
  destruct (Hclosure true) as [_ Hok]. exact (Hok Hnf).
Defined.

(** ** Resizing the canvas *)

Lemma closure_renderWithWebGPU_resize env params f h :
  cache_wf (resourceCache h) → nofault_from env (clock h) →
  canvas_width h ≠ js_or (displayWidth f) 1280 ∨
  canvas_height h ≠ js_or (displayHeight f) 720 →
  wp (Closure.renderWithWebGPU env params f) h (λ r h' evs,
    r = Throw (ReferenceError "context") ∧
    canvas_width h' = js_or (displayWidth f) 1280 ∧
    canvas_height h' = js_or (displayHeight f) 720 ∧
    (clock h ≤ clock h')%nat ∧ cache_wf (resourceCache h') ∧
    ∃ pre, evs = pre ++ [CanvasSetWidth (js_or (displayWidth f) 1280);
                         CanvasSetHeight (js_or (displayHeight f) 720)]).
Proof.
  intros Hwf Hnf Hne. unfold Closure.renderWithWebGPU.
  do 2 wp_step.
  eapply wp_use;
    [apply wp_conj;
       [eapply closure_import_source_phase
       |by eapply closure_import_source_ok]|].
  intros r h1 e1 [HP [src ->]]. use_phase_post HP. forward_wf.
  eapply wp_use;
    [apply wp_conj;
       [eapply closure_scale_down_and_segment_phase
       |eapply closure_scale_down_and_segment_ok; [done|nofault_now]]|].
  intros r h2 e2 [HP [mask ->]]. use_phase_post HP. forward_wf.
  wp_beta. apply wp_bind. unfold wp at 1.
  rewrite closure_update_canvas_size_differs by (destruct Hne; [left|right]; congruence).
  simpl. split_and!; try done; [lia|].
  eexists. by rewrite !app_assoc.
Qed.

(** X4.  The closure-based renderer drops the first frame of every new
    size: when the processing size differs from the canvas size and no
    external call fails, the frame gets as far as the resize, which gives
    the canvas its new size and then refers to [context], not in scope;
    [render] logs the ReferenceError and resolves to no frame.  As the
    canvas keeps the new size, the next frame of that size is returned. *)
Theorem closure_drops_first_frame_of_new_size env params f h :
  cache_wf (resourceCache h) → nofault_from env (clock h) →
  canvas_width h ≠ js_or (displayWidth f) 1280 ∨
  canvas_height h ≠ js_or (displayHeight f) 720 →
  let pw := js_or (displayWidth f) 1280 in
  let ph := js_or (displayHeight f) 720 in
  let o := Closure.render env params f h in
  result o = Val None ∧
  (∃ pre, events o = pre ++
     [CanvasSetWidth pw; CanvasSetHeight ph;
      ConsoleWarn "WebGPU rendering failed:" (ReferenceError "context")]) ∧
  canvas_width (heap o) = pw ∧ canvas_height (heap o) = ph ∧
  ∀ f', displayWidth f' = displayWidth f → displayHeight f' = displayHeight f →
    ∃ out, result (Closure.render env params f' (heap o)) = Val (Some out).
Proof.
  intros Hwf Hnf Hne pw ph o.
  destruct (closure_renderWithWebGPU_resize env params f h Hwf Hnf Hne)
    as (Hr & Hw & Hh & Hclk & Hwf' & pre & Hev).
  destruct (closure_render_inner env params f h) as (Hres & Hheap & Hevs).
  fold o in Hres, Hheap, Hevs. rewrite Hr in Hres, Hevs.
  rewrite Hheap. split_and!; [done| |done|done|].
  - exists pre. rewrite Hevs, Hev. by rewrite <-app_assoc.
  - intros f' Ew Eh. apply closure_render_ok; [done| | |].
    + eapply nofault_from_mono; [exact Hnf|exact Hclk].
    + by rewrite Ew.
    + by rewrite Eh.
Qed.

Lemma closure_drops_first_frame_of_new_size_witness :
  let o := Closure.render calm (closure_params false false) frame_1080p
             (started cpu_segmenter) in
  cache_wf (resourceCache (started cpu_segmenter)) ∧
  nofault_from calm (clock (started cpu_segmenter)) ∧
  canvas_width (started cpu_segmenter) ≠ js_or (displayWidth frame_1080p) 1280 ∧
  result o = Val None ∧
  ∃ out, result (Closure.render calm (closure_params false false) frame_1080p
                   (heap o)) = Val (Some out).
Proof.
  intros o.
  assert (Hwf : cache_wf (resourceCache (started cpu_segmenter)))
    by apply cache_wf_empty.
  assert (Hnf : nofault_from calm (clock (started cpu_segmenter)))
    by (intros ? ? ?; reflexivity).
  assert (Hne : canvas_width (started cpu_segmenter)
                  ≠ js_or (displayWidth frame_1080p) 1280)
    by (vm_compute; discriminate).
  destruct (closure_drops_first_frame_of_new_size calm
              (closure_params false false) frame_1080p
              (started cpu_segmenter) Hwf Hnf (or_introl Hne))
    as (Hr & _ & _ & _ & Hnext).
  split_and!; [done|done|done|exact Hr|].
  exact (Hnext frame_1080p eq_refl eq_refl).
Defined.

(** ** The class-based resize *)

Lemma class_update_canvas_size_same env this pw ph h :
  canvas_width h = pw → canvas_height h = ph →
  Class.update_canvas_size env this pw ph h = mkOutcome (Val tt) h [].
Proof.
  intros <- <-. unfold Class.update_canvas_size, bind, gets. simpl.
  by rewrite !N.eqb_refl.
Qed.

Lemma class_update_canvas_size_differs env this pw ph h :
  canvas_width h ≠ pw ∨ canvas_height h ≠ ph →
  let e := ContextConfigure (preferredCanvasFormat env)
             (canvas_usage (Class.directOutput this)) in
  Class.update_canvas_size env this pw ph h =
    mkOutcome
      (if fault env (clock h) e then Throw (ExternalError (clock h))
       else Val tt)
      (tick (set_canvas_height ph (set_canvas_width pw h)))
      [CanvasSetWidth pw; CanvasSetHeight ph; e].
Proof.
  intros Hne e. unfold Class.update_canvas_size, bind, gets. simpl.
  destruct (canvas_width h =? pw) eqn:Ew, (canvas_height h =? ph) eqn:Eh;
    simpl; try done.
  apply N.eqb_eq in Ew, Eh. tauto.
Qed.

(** X5.  The class-based resize does nothing when the canvas has the
    processing size; otherwise it sets width and height and then
    reconfigures the context, once.  The canvas has the new size even
    when the reconfiguration throws, so the reconfiguration is not tried
    again: a repeated call does nothing. *)
Theorem class_resize_reconfigures_once env this pw ph h :
  let o := Class.update_canvas_size env this pw ph h in
  let configure := ContextConfigure (preferredCanvasFormat env)
                     (canvas_usage (Class.directOutput this)) in
  (canvas_width h = pw → canvas_height h = ph → events o = []) ∧
  (canvas_width h ≠ pw ∨ canvas_height h ≠ ph →
     events o = [CanvasSetWidth pw; CanvasSetHeight ph; configure] ∧
     result o = (if fault env (clock h) configure
                 then Throw (ExternalError (clock h)) else Val tt)) ∧
  canvas_width (heap o) = pw ∧ canvas_height (heap o) = ph ∧
  resourceCache (heap o) = resourceCache h ∧
  Class.update_canvas_size env this pw ph (heap o)
    = mkOutcome (Val tt) (heap o) [].
Proof.
  intros o configure.
  destruct (decide (canvas_width h = pw ∧ canvas_height h = ph))
    as [[Hw Hh]|Hn].
  - subst o. rewrite (class_update_canvas_size_same env this pw ph h Hw Hh).
    split_and!; try done; [tauto|].
    by apply class_update_canvas_size_same.
  - assert (Hne : canvas_width h ≠ pw ∨ canvas_height h ≠ ph).
    { destruct (decide (canvas_width h = pw)); [|by left].
      destruct (decide (canvas_height h = ph)); [|by right]. tauto. }
    subst o. rewrite (class_update_canvas_size_differs env this pw ph h Hne).
    split_and!; try done; [tauto|].
    by apply class_update_canvas_size_same.
Qed.

Lemma class_resize_reconfigures_once_witness :
  let o := Class.update_canvas_size calm (class_renderer false false)
             1920 1080 (started cpu_segmenter) in
  canvas_width (started cpu_segmenter) ≠ 1920 ∧
  events o = [CanvasSetWidth 1920; CanvasSetHeight 1080;
              ContextConfigure "bgra8unorm" 16] ∧
  result o = Val tt.
Proof.
  intros o.
  assert (Hne : canvas_width (started cpu_segmenter) ≠ 1920)
    by (vm_compute; discriminate).
  split; [exact Hne|].
  destruct (class_resize_reconfigures_once calm (class_renderer false false)
              1920 1080 (started cpu_segmenter)) as (_ & Hd & _).
  exact (Hd (or_introl Hne)).
Defined.

(** ** The fragment shader of the composite pass *)

Lemma closure_fragment_shader_hit env w ht h m :
  outputRendererFragmentShader h = Some m →
  lastDim h = Some (dim_string w ht) →
  Closure.getOutputRendererFragmentShader env w ht h = mkOutcome (Val m) h [].
Proof.
  intros Hm Hl. unfold Closure.getOutputRendererFragmentShader, bind, gets.
  simpl. rewrite Hm, Hl. by rewrite bool_decide_eq_true_2.
Qed.

Lemma closure_fragment_shader_miss env w ht h :
  outputRendererFragmentShader h = None ∨
  lastDim h ≠ Some (dim_string w ht) →
  let o := Closure.getOutputRendererFragmentShader env w ht h in
  events o = [CreateShaderModule
                (InlineCode (Closure.fragmentShaderCode w ht)) (next_id h)] ∧
  (∀ id, result o = Val id →
     id = next_id h ∧ outputRendererFragmentShader (heap o) = Some id ∧
     lastDim (heap o) = Some (dim_string w ht)).
Proof.
  intros Hmiss o. subst o.
  change (wp (Closure.getOutputRendererFragmentShader env w ht) h
    (λ r h' evs,
       evs = [CreateShaderModule
                (InlineCode (Closure.fragmentShaderCode w ht)) (next_id h)] ∧
       (∀ id, r = Val id →
          id = next_id h ∧ outputRendererFragmentShader h' = Some id ∧
          lastDim h' = Some (dim_string w ht)))).
  unfold Closure.getOutputRendererFragmentShader.
  fold (dim_string w ht).
  apply wp_bind_gets. apply wp_bind_gets.
  destruct (outputRendererFragmentShader h) as [m|] eqn:Hm.
  - destruct Hmiss as [?|Hd]; [done|].
    rewrite bool_decide_eq_false_2 by done.
    wp_run ltac:(split; [done|try (by intros ? [=]); by intros ? [= <-]]).
  - wp_run ltac:(split; [done|try (by intros ? [=]); by intros ? [= <-]]).
Qed.

Lemma class_fragment_shader_rebuilt env w ht h :
  let o := Class.getOutputRendererFragmentShader env w ht h in
  let url := "blur4/shaders/render.fragment.wgsl" in
  events o `prefix_of`
    [Fetch url;
     CreateShaderModule
       (FetchedCode url [("width", pretty w); ("height", pretty ht)])
       (next_id h)] ∧
  events o ≠ [] ∧
  (∀ id, result o = Val id →
     id = next_id h ∧
     events o =
       [Fetch url;
        CreateShaderModule
          (FetchedCode url [("width", pretty w); ("height", pretty ht)]) id] ∧
     outputRendererFragmentShader (heap o) = Some id ∧
     lastDimArray (heap o) = Some (w, ht)).
Proof.
  intros o url. subst o.
  change (wp (Class.getOutputRendererFragmentShader env w ht) h
    (λ r h' evs,
       evs `prefix_of`
         [Fetch url;
          CreateShaderModule
            (FetchedCode url [("width", pretty w); ("height", pretty ht)])
            (next_id h)] ∧
       evs ≠ [] ∧
       (∀ id, r = Val id →
          id = next_id h ∧
          evs =
            [Fetch url;
             CreateShaderModule
               (FetchedCode url [("width", pretty w); ("height", pretty ht)])
               id] ∧
          outputRendererFragmentShader h' = Some id ∧
          lastDimArray h' = Some (w, ht)))).
  unfold Class.getOutputRendererFragmentShader, Class.array_not_identical.
  apply wp_bind_gets. apply wp_bind_gets.
  destruct (outputRendererFragmentShader h) as [m|] eqn:Hm.
  all: wp_run ltac:(split_and!;
         [by eexists; simpl|done
         |try (by intros ? [=]); by intros ? [= <-]]).
Qed.

(** X6.  The closure-based renderer keeps one fragment shader module
    with the size it was built for: a request for that size returns it
    and does nothing else; a request for another size (or the first one)
    creates a module from the source with the new size substituted, and
    the same request repeated is then answered from the stored module.
    The class-based renderer compares the stored size with a new array,
    which is never identical: every request fetches the source and
    creates a module, and so does the same request repeated. *)
Theorem fragment_shader_caching env w ht h :
  (let o := Closure.getOutputRendererFragmentShader env w ht h in
   (∀ m, outputRendererFragmentShader h = Some m →
         lastDim h = Some (dim_string w ht) →
         o = mkOutcome (Val m) h []) ∧
   (∀ w' ht', lastDim h = Some (dim_string w' ht') →
      w' ≠ w ∨ ht' ≠ ht →
      events o = [CreateShaderModule
                    (InlineCode (Closure.fragmentShaderCode w ht))
                    (next_id h)]) ∧
   (∀ id, result o = Val id →
      Closure.getOutputRendererFragmentShader env w ht (heap o)
        = mkOutcome (Val id) (heap o) [])) ∧
  (let o := Class.getOutputRendererFragmentShader env w ht h in
   events o ≠ [] ∧
   (∀ id, result o = Val id →
      outputRendererFragmentShader (heap o) = Some id ∧
      lastDimArray (heap o) = Some (w, ht) ∧
      events (Class.getOutputRendererFragmentShader env w ht (heap o))
        ≠ [])).
Proof.
  split.
  - intros o. split_and!.
    + intros m Hm Hl. by apply closure_fragment_shader_hit.
    + intros w' ht' Hl Hne.
      apply closure_fragment_shader_miss. right. rewrite Hl.
      intros [= E]. apply dim_string_inj in E as [-> ->]. tauto.
    + intros id Hr.
      destruct (outputRendererFragmentShader h) as [m|] eqn:Hm.
      * destruct (decide (lastDim h = Some (dim_string w ht))) as [Hl|Hl].
        -- subst o. rewrite (closure_fragment_shader_hit env w ht h m Hm Hl)
             in Hr |- *.
           simpl in Hr |- *. injection Hr as <-.
           by apply closure_fragment_shader_hit.
        -- destruct (closure_fragment_shader_miss env w ht h (or_intror Hl))
             as [_ Hres].
           destruct (Hres id Hr) as (_ & Hm' & Hl').
           by apply closure_fragment_shader_hit.
      * destruct (closure_fragment_shader_miss env w ht h (or_introl Hm))
          as [_ Hres].
        destruct (Hres id Hr) as (_ & Hm' & Hl').
        by apply closure_fragment_shader_hit.
  - intros o.
    destruct (class_fragment_shader_rebuilt env w ht h) as (_ & Hne & Hres).
    split; [exact Hne|]. intros id Hr.
    destruct (Hres id Hr) as (_ & _ & Hm & Hl).
    split_and!; [done|done|].
    by destruct (class_fragment_shader_rebuilt env w ht (heap o)) as (_ & ? & _).
Qed.

Lemma fragment_shader_caching_witness :
  let h := set_fragmentShader (Some 7) (Some (dim_string 1280 720)) None
             (started cpu_segmenter) in
  lastDim h = Some (dim_string 1280 720) ∧
  events (Closure.getOutputRendererFragmentShader calm 1920 1080 h)
    = [CreateShaderModule
         (InlineCode (Closure.fragmentShaderCode 1920 1080)) 10] ∧
  Closure.getOutputRendererFragmentShader calm 1280 720 h
    = mkOutcome (Val 7) h [].
Proof.
  intros h.
  assert (Hl : lastDim h = Some (dim_string 1280 720)) by reflexivity.
  split; [exact Hl|]. split.
  - destruct (fragment_shader_caching calm 1920 1080 h) as [(_ & Hm & _) _].
    apply (Hm 1280 720 Hl). left. discriminate.
  - destruct (fragment_shader_caching calm 1280 720 h) as [(Hh & _) _].
    by apply (Hh 7).
Defined.

(** ** The bind group of the closure's downscale pass *)

Lemma closure_bind_group_outcome env params src dest h :
  wp (try_catch
    (layout <- fresh ;;
     call env (GetBindGroupLayout (Closure.downscalePipeline params) 0 layout) ;;;
     b0 <- Closure.source_binding env (Closure.zeroCopy params) src ;;
     v2 <- createView env dest ;;
     group <- fresh ;;
     call env (CreateBindGroup layout
       [(0, b0); (1, BindSampler (Closure.downscaleSampler params));
        (2, BindTextureView v2)] group) ;;;
     ret (Some group))
    (fun error => emit (ConsoleWarn "bind failed:" error) ;;; ret None)) h
   (λ r h' evs, ∃ g x,
      r = Val g ∧
      List.filter is_bind_step evs =
        match g with
        | Some _ => []
        | None => [ConsoleWarn "bind failed:" x]
        end).
Proof.
  unfold Closure.source_binding.
  wp_run ltac:(first
    [ eexists (Some _), (Error ""); split; reflexivity
    | eexists None, _; split; reflexivity ]).
Qed.

Ltac bind_rew :=
  filter_norm;
  repeat match goal with
    | Hf : List.filter is_bind_step _ = _ |- _ => rewrite Hf
    end;
  rewrite ?app_nil_r; simpl.

Ltac bind_fin_with g x p :=
  exists g, x, p; split;
    [bind_rew; eexists; simpl; reflexivity
    |first [by intros [? [=]]|intros _; bind_rew; reflexivity]].

(** An exit of [scale_down_and_segment]: before the pass is bound any
    pass will do, afterwards the one of the event. *)
Ltac bind_fin g x :=
  wp_beta;
  first
    [ bind_fin_with g x 0
    | lazymatch goal with
      | |- context [SetBindGroup ?p 0 _] => bind_fin_with g x p
      end ].

Ltac bind_run g x :=
  repeat wp_step;
  try bind_fin g x;
  (wp_resource closure_getOrCreateResource_spec
     closure_readback_constructor; [|bind_fin g x]);
  unfold Closure.as_buffer, Closure.imageDataCache;
  repeat wp_step;
  try bind_fin g x;
  (wp_texture closure_getOrCreateTexture_spec; [|bind_fin g x]);
  repeat wp_step;
  bind_fin g x.

Lemma closure_bind_detail env params src h :
  wp (Closure.scale_down_and_segment env params src) h (λ r h' evs,
    ∃ g x pass,
      List.filter is_bind_step evs `prefix_of` bind_steps g x pass ∧
      ((∃ a, r = Val a) → List.filter is_bind_step evs = bind_steps g x pass)).
Proof.
  unfold Closure.scale_down_and_segment.
  wp_texture closure_getOrCreateTexture_spec.
  2: bind_fin (@None N) (Error "").
  wp_beta. eapply wp_use; [eapply closure_bind_group_outcome|].
  intros r hb eb (g & x & -> & Hf).
  destruct g as [gid|].
  - bind_run (Some gid) x.
  - bind_run (@None N) x.
Qed.

(** A texture request under the cache discipline makes one external call
    on a miss and none on a hit. *)
Lemma closure_getOrCreateTexture_clock env key w ht d usage h :
  occurs "_" key = 0%nat → cache_wf (resourceCache h) →
  (∀ e, fault env (clock h) e = false) →
  wp (Closure.getOrCreateTexture env key (w, ht) d usage) h (λ r h' evs,
    (∃ t, r = Val t) ∧
    clock h' =
      ((match resourceCache h !!
               textureCacheKey key w ht (Closure.getTextureFormat env d)
                 usage with
        | Some _ => 0
        | None => 1
        end) + clock h)%nat).
Proof.
  intros Hk Hwf Hf.
  unfold Closure.getOrCreateTexture, Closure.createTexture.
  apply wp_bind_gets.
  destruct (resourceCache h !!
              textureCacheKey key w ht (Closure.getTextureFormat env d) usage)
    as [r|] eqn:Hl.
  - destruct (wf_lookup_texture _ _ _ _ _ _ _ Hwf Hk Hl) as (t & -> & Hw & Hh).
    rewrite (size_match _ _ _ Hw Hh). apply wp_ret. split; [eauto|done].
  - wp_run ltac:(idtac).
    + match goal with H : fault _ _ _ = true |- _ => by rewrite Hf in H end.
    + split; [eauto|done].
Qed.

(** Only the call made at the time [T] can have failed. *)
Ltac only_contra :=
  lazymatch goal with
  | Hf : fault ?env _ _ = true,
    Ho : ∀ t' e', fault ?env t' e' = true → t' = _ |- _ =>
      exfalso; apply Ho in Hf; simpl in Hf; lia
  end.

Ltac only_run := repeat (wp_step; try only_contra).

Ltac swallow_fin HT :=
  wp_beta; do 5 eexists;
  split; [reflexivity|];
  split; [filter_norm; reflexivity|];
  split; [|filter_norm; reflexivity];
  filter_norm; simpl in HT;
  match goal with
  | Hf : fault _ _ (CreateBindGroup _ _ _) = _ |- _ =>
      simpl in Hf; rewrite <-HT in Hf; rewrite <-?HT; rewrite Hf
  end;
  reflexivity.

Lemma closure_bind_swallow env params src h :
  cache_wf (resourceCache h) →
  source_ok (Closure.zeroCopy params) src →
  (∀ t' e, fault env t' e = true → t' = bind_group_time env params h) →
  wp (Closure.scale_down_and_segment env params src) h (λ r h' evs,
    ∃ mask layout entries group pass,
      r = Val mask ∧
      List.filter is_bind_group evs
        = [CreateBindGroup layout entries group] ∧
      List.filter is_bind_step evs =
        bind_steps
          (if fault env (bind_group_time env params h)
                (CreateBindGroup layout entries group)
           then None else Some group)
          (ExternalError (bind_group_time env params h)) pass ∧
      List.filter is_dispatch evs =
        [DispatchWorkgroups pass
           (Math_ceil_div (Closure.segmentationWidth params) 8)
           (Math_ceil_div (Closure.segmentationHeight params) 8)]).
Proof.
  intros Hwf Hsrc Ho. unfold Closure.scale_down_and_segment.
  eapply wp_use;
    [apply wp_conj;
       [eapply closure_getOrCreateTexture_spec
       |eapply closure_getOrCreateTexture_clock; [done|done|]]|].
  { intros e. destruct (fault env (clock h) e) eqn:Hf; [|done].
    apply Ho in Hf. unfold bind_group_time in Hf.
    destruct (Closure.zeroCopy params); lia. }
  intros r h1 e1 [HP [[dest ->] Hc1]]. use_texture_post HP. forward_wf.
  remember (bind_group_time env params h) as T eqn:HT.
  unfold bind_group_time in HT. fold Closure.downscale_usage in Hc1.
  assert (Hnf : nofault_from env (S T)).
  { intros t' e Hle. destruct (fault env t' e) eqn:Hf; [|done].
    apply Ho in Hf. lia. }
  unfold Closure.source_binding.
  destruct (Closure.zeroCopy params) eqn:Hz; destruct src as [xid|st];
    simpl in Hsrc; try discriminate.
  - assert (HT' : T = (2 + clock h1)%nat) by lia. clear HT Hc1.
    only_run.
    all: ok_resource closure_getOrCreateResource_spec
           closure_readback_constructor.
    all: cached_kind.
    all: unfold Closure.as_buffer, Closure.imageDataCache.
    all: only_run.
    all: ok_texture closure_getOrCreateTexture_spec.
    all: only_run.
    all: swallow_fin HT'.
  - assert (HT' : T = (3 + clock h1)%nat) by lia. clear HT Hc1.
    only_run.
    all: ok_resource closure_getOrCreateResource_spec
           closure_readback_constructor.
    all: cached_kind.
    all: unfold Closure.as_buffer, Closure.imageDataCache.
    all: only_run.
    all: ok_texture closure_getOrCreateTexture_spec.
    all: only_run.
    all: swallow_fin HT'.
Qed.

(** X7.  In the closure-based renderer a failing [createBindGroup] for
    the downscale pass is caught and logged, not raised.  Whatever fails,
    the pass is bound at most once, to the group that was made or to
    nothing ([setBindGroup(0, undefined)]) after [bind failed:] was
    logged, and exactly once when a mask is returned.  And when the
    [createBindGroup] call is the only call that may fail, a mask is
    returned either way: if the call fails, its exception is logged as
    [bind failed:], the pass is bound to nothing and the dispatch still
    takes place; if it does not, nothing is logged and the pass is bound
    to the group the call made. *)
Theorem closure_bind_failure_is_swallowed env params src h :
  let o := Closure.scale_down_and_segment env params src h in
  let t := bind_group_time env params h in
  (∃ group x pass,
     List.filter is_bind_step (events o) `prefix_of` bind_steps group x pass ∧
     ((∃ mask, result o = Val mask) →
      List.filter is_bind_step (events o) = bind_steps group x pass)) ∧
  (cache_wf (resourceCache h) →
   source_ok (Closure.zeroCopy params) src →
   (∀ t' e, fault env t' e = true → t' = t) →
   ∃ mask layout entries group pass,
     result o = Val mask ∧
     List.filter is_bind_group (events o)
       = [CreateBindGroup layout entries group] ∧
     List.filter is_bind_step (events o) =
       bind_steps
         (if fault env t (CreateBindGroup layout entries group)
          then None else Some group)
         (ExternalError t) pass ∧
     List.filter is_dispatch (events o) =
       [DispatchWorkgroups pass
          (Math_ceil_div (Closure.segmentationWidth params) 8)
          (Math_ceil_div (Closure.segmentationHeight params) 8)]).
Proof.
  intros o t. split.
  - exact (closure_bind_detail env params src h).
  - intros Hwf Hsrc Ho. exact (closure_bind_swallow env params src h Hwf Hsrc Ho).
Qed.

Lemma closure_bind_failure_is_swallowed_witness :
  let env := fails_at 4 in
  let params := closure_params false true in
  let src := SourceTexture2D (mkTexture 5 1280 720 "bgra8unorm" 22) in
  let o := Closure.scale_down_and_segment env params src
             (started cpu_segmenter) in
  bind_group_time env params (started cpu_segmenter) = 4%nat ∧
  (∃ mask, result o = Val mask) ∧
  (∃ pass,
     List.filter is_bind_step (events o)
       = [ConsoleWarn "bind failed:" (ExternalError 4);
          SetBindGroup pass 0 None]) ∧
  length (List.filter is_dispatch (events o)) = 1%nat.
Proof.
  intros env params src o.
  assert (Ht : bind_group_time env params (started cpu_segmenter) = 4%nat)
    by (vm_compute; reflexivity).
  assert (Hwf : cache_wf (resourceCache (started cpu_segmenter)))
    by apply cache_wf_empty.
  assert (Ho : ∀ t' e, fault env t' e = true →
                 t' = bind_group_time env params (started cpu_segmenter)).
  { intros t' e Hf. rewrite Ht. by apply Nat.eqb_eq in Hf. }
  destruct (closure_bind_failure_is_swallowed env params src
              (started cpu_segmenter)) as [_ Hs].
  destruct (Hs Hwf eq_refl Ho)
    as (mask & layout & entries & group & pass & Hr & _ & Hb & Hd).
  rewrite Ht in Hb.
  split_and!; [exact Ht|by exists mask|by exists pass|].
  change (length (List.filter is_dispatch
    (events (Closure.scale_down_and_segment env params src
               (started cpu_segmenter)))) = 1%nat).
  by rewrite Hd.
Defined.

(** ** The GPU-native exchange with the segmenter *)

Ltac interop_fin :=
  wp_beta; ex_all;
  split;
    [prefix_goal
    |first
       [ by intros ? [=]
       | intros ? [= <-]; split_and!; try done; by filter_norm ]].

Lemma class_segment_interop_detail env this enc b h :
  wp (Class.segment_interop env this enc (Class.WithBuffer b)) h
    (λ r h' evs,
       ∃ ob cenc mask,
         let steps :=
           [BufferDestroy b; SegmenterSegmentGPUBuffer;
            SegmenterGetOutputBuffer ob;
            CopyBufferToTexture cenc ob (Class.segmentationWidth this * 2)
              mask (Class.segmentationWidth this)
              (Class.segmentationHeight this);
            BufferDestroy ob] in
         List.filter is_buffer_step evs `prefix_of` steps ∧
         ∀ returned, r = Val returned →
           returned = mask ∧
           List.filter is_buffer_step evs = steps ∧
           maskTexture h' = Some mask ∧
           resourceCache h' = resourceCache h ∧
           match maskTexture h with
           | Some t => mask = t ∧ List.filter creates_texture evs = []
           | None =>
               List.filter creates_texture evs = [CreateTexture mask] ∧
               tex_width mask = Class.segmentationWidth this ∧
               tex_height mask = Class.segmentationHeight this ∧
               tex_format mask = "r16float"
           end).
Proof.
  unfold Class.segment_interop.
  repeat wp_step.
  all: interop_fin.
  Unshelve. all: seg_defaults.
Qed.

(** X8.  On the GPU-native path the class-based renderer destroys the
    buffers the segmenter hands out: the input buffer right after the
    pack pass is submitted, before inference is awaited, and the output
    buffer after its copy into the mask texture is submitted.  These are
    all the buffer steps of the path, in this order. *)
Theorem interop_destroys_segmenter_buffers env this enc inbuf h :
  let o := Class.segment_interop env this enc (Class.WithBuffer inbuf) h in
  ∃ outbuf cenc mask,
    let steps :=
      [BufferDestroy inbuf; SegmenterSegmentGPUBuffer;
       SegmenterGetOutputBuffer outbuf;
       CopyBufferToTexture cenc outbuf (Class.segmentationWidth this * 2)
         mask (Class.segmentationWidth this) (Class.segmentationHeight this);
       BufferDestroy outbuf] in
    List.filter is_buffer_step (events o) `prefix_of` steps ∧
    (result o = Val mask → List.filter is_buffer_step (events o) = steps) ∧
    (∀ t, result o = Val t → t = mask).
Proof.
  intros o.
  destruct (class_segment_interop_detail env this enc inbuf h)
    as (ob & cenc & mask & Hpre & Hret).
  exists ob, cenc, mask. split_and!; [exact Hpre| |].
  - intros Hr. by destruct (Hret mask Hr) as (_ & ? & _).
  - intros t Hr. by destruct (Hret t Hr) as (? & _).
Qed.

Lemma interop_destroys_segmenter_buffers_witness :
  let o := Class.segment_interop calm (class_renderer false false) 3
             (Class.WithBuffer 4) (started gpu_segmenter) in
  ∃ mask, result o = Val mask ∧
    List.filter is_buffer_step (events o)
      = [BufferDestroy 4; SegmenterSegmentGPUBuffer;
         SegmenterGetOutputBuffer 10;
         CopyBufferToTexture 12 10 512 mask 256 144; BufferDestroy 10].
Proof.
  intros o.
  destruct (interop_destroys_segmenter_buffers calm
              (class_renderer false false) 3 4 (started gpu_segmenter))
    as (ob & cenc & mask & _ & _ & Hsame).
  assert (Hr : ∃ t, result o = Val t) by (vm_compute; by eexists).
  destruct Hr as [t Hr]. exists t. split; [exact Hr|].
  vm_compute in Hr. injection Hr as <-. vm_compute. reflexivity.
Defined.

(** X9.  The mask texture of the GPU-native path is made once: while
    [this.maskTexture] is unset the path creates one [r16float] texture
    of the segmentation size, outside the cache, and keeps it; once it is
    set the path creates no texture and returns the kept one. *)
Theorem interop_mask_texture_is_made_once env this enc inbuf h mask :
  let o := Class.segment_interop env this enc (Class.WithBuffer inbuf) h in
  result o = Val mask →
  maskTexture (heap o) = Some mask ∧
  resourceCache (heap o) = resourceCache h ∧
  match maskTexture h with
  | Some t => mask = t ∧ List.filter creates_texture (events o) = []
  | None =>
      List.filter creates_texture (events o) = [CreateTexture mask] ∧
      tex_width mask = Class.segmentationWidth this ∧
      tex_height mask = Class.segmentationHeight this ∧
      tex_format mask = "r16float"
  end.
Proof.
  intros o Hr.
  destruct (class_segment_interop_detail env this enc inbuf h)
    as (ob & cenc & mask' & _ & Hret).
  by destruct (Hret mask Hr) as (-> & _ & Hm & Hc & Hcase).
Qed.

Lemma interop_mask_texture_is_made_once_witness :
  let this := class_renderer false false in
  let o1 := Class.segment_interop calm this 3 (Class.WithBuffer 4)
              (started gpu_segmenter) in
  let o2 := Class.segment_interop calm this 5 (Class.WithBuffer 6)
              (heap o1) in
  ∃ mask, result o1 = Val mask ∧ result o2 = Val mask ∧
    List.filter creates_texture (events o2) = [].
Proof.
  intros this o1 o2.
  assert (Hr1 : ∃ t, result o1 = Val t) by (vm_compute; by eexists).
  assert (Hr2 : ∃ t, result o2 = Val t) by (vm_compute; by eexists).
  destruct Hr1 as [t1 Hr1], Hr2 as [t2 Hr2].
  destruct (interop_mask_texture_is_made_once calm this 3 4
              (started gpu_segmenter) t1 Hr1) as (Hm1 & _ & _).
  pose proof (interop_mask_texture_is_made_once calm this 5 6
                (heap o1) t2 Hr2) as (_ & _ & Hcase).
  fold o1 in Hm1, Hcase. rewrite Hm1 in Hcase. destruct Hcase as [-> Hno].
  exists t1. by split_and!.
Defined.

(** ** Construction *)

Lemma wp_log_features {B} (features : list string) (k : M B) h Q :
  wp k h (λ r h' evs, Q r h' ((ConsoleLog "- " <$> features) ++ evs)) →
  wp (foldr (fun feature k => emit (ConsoleLog "- " feature) ;;; k) (ret tt)
        features ;;; k) h Q.
Proof.
  revert Q. induction features as [|f features IH]; intros Q Hk; simpl.
  - by apply wp_bind_ret.
  - apply wp_bind_assoc, wp_bind_emit. apply IH.
    eapply wp_mono; [exact Hk|]. by intros r h' evs HQ.
Qed.

Lemma filter_feature_logs (features : list string) :
  List.filter is_adapter_step (ConsoleLog "- " <$> features)
    = (ConsoleLog "- " <$> features).
Proof.
  induction features as [|f l IH]; [done|].
  change (ConsoleLog "- " f :: List.filter is_adapter_step (ConsoleLog "- " <$> l)
          = ConsoleLog "- " f :: (ConsoleLog "- " <$> l)).
  by rewrite IH.
Qed.

Ltac ctor_fin :=
  wp_beta;
  repeat match goal with
    | H : negb ?b = _ |- _ => destruct b eqn:?; simpl in H; try discriminate H
    end;
  split_and!; try done; try (simpl; lia);
  try (intros; discriminate);
  try (intros _; eexists; split; [reflexivity|];
       unfold fresh_renderer; split_and!; try done; simpl; lia).

Lemma class_constructor_ok env z d h :
  nofault_from env (clock h) →
  wp (Class.constructor env z d) h (λ r h' evs,
    (contextAvailable env = false →
       r = Throw (Error "WebGPU context not available")) ∧
    (contextAvailable env = true →
       ∃ this, r = Val this ∧ fresh_renderer h h')).
Proof.
  intros Hnf. unfold Class.constructor.
  ok_run. all: ctor_fin.
Qed.

Lemma class_createWebGPUBlurRenderer_ok env z d h :
  nofault_from env (clock h) →
  wp (Class.createWebGPUBlurRenderer env z d) h (λ r h' evs,
    (contextAvailable env = false →
       r = Throw (Error "WebGPU context not available")) ∧
    (contextAvailable env = true →
       ∃ this, r = Val this ∧ fresh_renderer h h' ∧
         Class.zeroCopy this = z ∧ Class.directOutput this = d)).
Proof.
  intros Hnf. unfold Class.createWebGPUBlurRenderer.
  ok_run.
  eapply wp_mono;
    [apply wp_conj;
       [eapply class_constructor_ok; nofault_now
       |eapply class_constructor_spec]|].
  intros r h' evs [[Hno Hyes] Hspec]. simpl in Hspec. split; [exact Hno|].
  intros Hc. destruct (Hyes Hc) as (this & -> & Hf).
  destruct (Hspec this eq_refl) as (_ & _ & _ & ? & ? & _).
  exists this. split_and!; try done.
  destruct Hf as (Hclk & ? & ? & ? & ?). simpl in *.
  unfold fresh_renderer. split_and!; try done. lia.
Qed.

Ltac adapter_filter :=
  unfold adapter_steps;
  repeat match goal with
    | H : bool_decide _ = _ |- _ => rewrite H
    end;
  repeat first
    [ progress simpl
    | rewrite List.filter_app
    | rewrite filter_feature_logs
    | rewrite app_nil_r ];
  try reflexivity.

Ltac closure_ctor_fin :=
  wp_beta;
  repeat match goal with
    | H : negb ?b = _ |- _ => destruct b eqn:?; simpl in H; try discriminate H
    end;
  split;
    [ intros ?; first
        [ exfalso; congruence
        | split; [done|adapter_filter] ]
    | intros ?; first
        [ exfalso; congruence
        | split; [adapter_filter|];
          split;
            [ intros ?; first [exfalso; congruence|done]
            | intros ?; first
                [ exfalso; congruence
                | eexists; split; [reflexivity|];
                  unfold fresh_renderer; split_and!; try done; simpl; lia ] ] ] ].

Lemma closure_createWebGPUBlurRenderer_ok env z d h :
  nofault_from env (clock h) →
  wp (Closure.createWebGPUBlurRenderer env z d) h (λ r h' evs,
    (adapterAvailable env = false →
       r = Throw (Error "WebGPU adapter not available") ∧
       List.filter is_adapter_step evs = []) ∧
    (adapterAvailable env = true →
       List.filter is_adapter_step evs = adapter_steps (adapterFeatures env) ∧
       (contextAvailable env = false →
          r = Throw (Error "WebGPU context not available")) ∧
       (contextAvailable env = true →
          ∃ params, r = Val params ∧ fresh_renderer h h' ∧
            Closure.zeroCopy params = z ∧ Closure.directOutput params = d ∧
            Closure.segmentationWidth params = 256 ∧
            Closure.segmentationHeight params = 144))).
Proof.
  intros Hnf. unfold Closure.createWebGPUBlurRenderer.
  ok_run.
  1: closure_ctor_fin.
  apply wp_log_features.
  ok_run.
  all: closure_ctor_fin.
Qed.

(** X10.  [createWebGPUBlurRenderer] of the closure-based renderer, when
    no external call fails: without an adapter it throws [WebGPU adapter
    not available] before asking for a device; with one it logs each
    adapter feature, logs that [bgra8unorm-storage] is not supported
    exactly when the adapter does not list it, and then requests the
    device with that feature required all the same.  Without a canvas
    context it throws [WebGPU context not available]; otherwise it
    returns the parameters it was given, the segmentation size 256 by
    144, an empty cache and a canvas of 1280 by 720. *)
Theorem closure_constructor_outcome env z d h :
  nofault_from env (clock h) →
  let o := Closure.createWebGPUBlurRenderer env z d h in
  (adapterAvailable env = false →
     result o = Throw (Error "WebGPU adapter not available") ∧
     List.filter is_adapter_step (events o) = []) ∧
  (adapterAvailable env = true →
     List.filter is_adapter_step (events o)
       = adapter_steps (adapterFeatures env) ∧
     (contextAvailable env = false →
        result o = Throw (Error "WebGPU context not available")) ∧
     (contextAvailable env = true →
        ∃ params, result o = Val params ∧ fresh_renderer h (heap o) ∧
          Closure.zeroCopy params = z ∧ Closure.directOutput params = d ∧
          Closure.segmentationWidth params = 256 ∧
          Closure.segmentationHeight params = 144)).
Proof.
  intros Hnf o. exact (closure_createWebGPUBlurRenderer_ok env z d h Hnf).
Qed.

Lemma closure_constructor_outcome_witness :
  let env := mkEnv (λ _ _, false) "rgba8unorm" true ["shader-f16"] true
               (λ _, mkImageData 64 36) in
  let o := Closure.createWebGPUBlurRenderer env false true
             (initial_heap cpu_segmenter) in
  nofault_from env (clock (initial_heap cpu_segmenter)) ∧
  List.filter is_adapter_step (events o)
    = [ConsoleLog "- " "shader-f16";
       ConsoleLog "BGRA8UNORM-STORAGE not supported" "";
       RequestDevice ["bgra8unorm-storage"]] ∧
  ∃ params, result o = Val params.
Proof.
  intros env o.
  assert (Hnf : nofault_from env (clock (initial_heap cpu_segmenter)))
    by (intros ? ? ?; reflexivity).
  destruct (closure_constructor_outcome env false true
              (initial_heap cpu_segmenter) Hnf) as [_ Hyes].
  destruct (Hyes eq_refl) as (Hev & _ & Hok).
  destruct (Hok eq_refl) as (params & Hr & _).
  split_and!; [exact Hnf|exact Hev|by exists params].
Defined.

(** X11.  The constructor of the class-based renderer, when no external
    call fails: without a canvas context it throws [WebGPU context not
    available]; otherwise [createWebGPUBlurRenderer] returns a renderer
    with the flags it was given, an empty cache and a canvas of 1280 by
    720, and leaves the segmenter as it is. *)
Theorem class_constructor_outcome env z d h :
  nofault_from env (clock h) →
  let o := Class.createWebGPUBlurRenderer env z d h in
  (contextAvailable env = false →
     result o = Throw (Error "WebGPU context not available")) ∧
  (contextAvailable env = true →
     ∃ this, result o = Val this ∧ fresh_renderer h (heap o) ∧
       Class.zeroCopy this = z ∧ Class.directOutput this = d).
Proof.
  intros Hnf o. exact (class_createWebGPUBlurRenderer_ok env z d h Hnf).
Qed.

Lemma class_constructor_outcome_witness :
  let env := mkEnv (λ _ _, false) "rgba8unorm" true [] false
               (λ _, mkImageData 64 36) in
  nofault_from env (clock (initial_heap gpu_segmenter)) ∧
  result (Class.createWebGPUBlurRenderer env true false
            (initial_heap gpu_segmenter))
    = Throw (Error "WebGPU context not available").
Proof.
  intros env.
  assert (Hnf : nofault_from env (clock (initial_heap gpu_segmenter)))
    by (intros ? ? ?; reflexivity).
  split; [exact Hnf|].
  destruct (class_constructor_outcome env true false
              (initial_heap gpu_segmenter) Hnf) as [Hno _].
  exact (Hno eq_refl).
Defined.

Lemma fresh_renderer_wf h h' : fresh_renderer h h' → cache_wf (resourceCache h').
Proof. intros (_ & -> & _). apply cache_wf_empty. Qed.



(** ** The stores of a downscale dispatch *)

Lemma NoDup_omap_inj {A B} (f : A → option B) (l : list A) :
  (∀ x y z, f x = Some z → f y = Some z → x = y) →
  NoDup l → NoDup (omap f l).
Proof.
  intros Hinj. induction 1 as [|x l Hx Hl IH]; simpl; [constructor|].
  destruct (f x) as [z|] eqn:Hz; [|done].
  constructor; [|done].
  intros Hin. apply list_elem_of_omap in Hin as (y & Hy & Hfy).
  by rewrite (Hinj x y z Hz Hfy) in Hx.
Qed.

Lemma NoDup_invocations gx gy : NoDup (Closure.invocations gx gy).
Proof.
  unfold Closure.invocations.
  assert (Hs : ∀ n, NoDup (N.of_nat <$> seq 0 n)).
  { intros n. apply NoDup_fmap_2; [apply _|apply NoDup_seq]. }
  apply NoDup_bind; [| |apply Hs].
  - intros x1 x2 [a b] _ _ H1 H2.
    apply list_elem_of_bind in H1 as (y1 & H1 & _).
    apply list_elem_of_bind in H2 as (y2 & H2 & _).
    apply list_elem_of_singleton in H1, H2. congruence.
  - intros x _. apply NoDup_bind; [| |apply Hs].
    + intros y1 y2 [a b] _ _ H1 H2.
      apply list_elem_of_singleton in H1, H2. congruence.
    + intros y _. apply NoDup_singleton.
Qed.

Lemma length_bind_const {A B} (f : A → list B) (l : list A) k :
  (∀ x, length (f x) = k) → length (l ≫= f) = (length l * k)%nat.
Proof.
  intros Hk. induction l as [|x l IH]; csimpl; [done|].
  by rewrite length_app, Hk, IH.
Qed.

Lemma pixels_of_output_spec (w ht : N) :
  let pixels :=
    (N.of_nat <$> seq 0 (N.to_nat w)) ≫= λ x,
      (N.of_nat <$> seq 0 (N.to_nat ht)) ≫= λ y, [(x, y)] in
  NoDup pixels ∧ length pixels = N.to_nat (w * ht) ∧
  ∀ x y, (x, y) ∈ pixels ↔ x < w ∧ y < ht.
Proof.
  intros pixels. subst pixels.
  assert (Hs : ∀ n, NoDup (N.of_nat <$> seq 0 n)).
  { intros n. apply NoDup_fmap_2; [apply _|apply NoDup_seq]. }
  split_and!.
  - apply NoDup_bind; [| |apply Hs].
    + intros x1 x2 [a b] _ _ H1 H2.
      apply list_elem_of_bind in H1 as (y1 & H1 & _).
      apply list_elem_of_bind in H2 as (y2 & H2 & _).
      apply list_elem_of_singleton in H1, H2. congruence.
    + intros x _. apply NoDup_bind; [| |apply Hs].
      * intros y1 y2 [a b] _ _ H1 H2.
        apply list_elem_of_singleton in H1, H2. congruence.
      * intros y _. apply NoDup_singleton.
  - rewrite (length_bind_const _ _ (N.to_nat ht)).
    + rewrite length_fmap, length_seq. lia.
    + intros x. rewrite (length_bind_const _ _ 1%nat) by done.
      rewrite length_fmap, length_seq. lia.
  - intros x y. rewrite list_elem_of_bind. split.
    + intros (x' & Hy & Hx).
      apply list_elem_of_bind in Hy as (y' & Hxy & Hy).
      apply list_elem_of_singleton in Hxy as [= -> ->].
      apply list_elem_of_fmap in Hx as (i & -> & Hi).
      apply list_elem_of_fmap in Hy as (j & -> & Hj).
      apply elem_of_seq in Hi, Hj. lia.
    + intros [Hx Hy]. exists x. split.
      * apply list_elem_of_bind. exists y. split; [by left|].
        apply list_elem_of_fmap. exists (N.to_nat y).
        split; [lia|]. apply elem_of_seq. lia.
      * apply list_elem_of_fmap. exists (N.to_nat x).
        split; [lia|]. apply elem_of_seq. lia.
Qed.

(** X13.  A downscale dispatch stores to no pixel twice: the stores of
    the invocations that pass the bounds check are pairwise different,
    and on the grid the renderers dispatch they are exactly the pixels of
    the output, [width * height] stores in all. *)
Theorem dispatch_stores_each_pixel_once w ht :
  (∀ gx gy, NoDup (Closure.dispatch_stores (w, ht) gx gy)) ∧
  length (Closure.dispatch_stores (w, ht) (Math_ceil_div w 8)
            (Math_ceil_div ht 8))
    = N.to_nat (w * ht).
Proof.
  assert (Hnd : ∀ gx gy, NoDup (Closure.dispatch_stores (w, ht) gx gy)).
  { intros gx gy. apply NoDup_omap_inj; [|apply NoDup_invocations].
    intros x y z Hx Hy.
    apply downscale_main_Some in Hx as [-> _].
    by apply downscale_main_Some in Hy as [-> _]. }
  split; [exact Hnd|].
  destruct (pixels_of_output_spec w ht) as (Hp & <- & Hin).
  apply Permutation_length, NoDup_Permutation; [apply Hnd|exact Hp|].
  intros [x y]. rewrite Hin, elem_of_dispatch_stores.
  pose proof (Math_ceil_div_bounds w 8 ltac:(lia)).
  pose proof (Math_ceil_div_bounds ht 8 ltac:(lia)).
  split; [tauto|]. intros [? ?]. split_and!; [done|done|lia|lia].
Qed.

(** ** The exchange with a CPU segmenter *)

Ltac flow_defaults :=
  first [exact 0 | exact 0%nat | exact default_texture | exact default_buffer
        | exact default_source | exact BindUndefined].

Ltac flow_ex :=
  repeat lazymatch goal with
  | |- ex _ => first [eexists; [] | unshelve eexists; [flow_defaults|]]
  end.

Ltac flow_fin :=
  wp_beta; flow_ex;
  split;
    [prefix_goal
    |first
       [ by intros ? [=]
       | intros ? [= <-];
         lazymatch goal with
         | Hr : ∀ t : GPUTexture, Val ?a = Val t → _ |- _ =>
             destruct (Hr a eq_refl) as (_ & ? & ?)
         end;
         split_and!; try done; by filter_norm ]].

Lemma closure_cpu_flow_detail env params src h :
  wp (Closure.scale_down_and_segment env params src) h (λ r h' evs,
    ∃ now mask,
      let answer := segmenterOutput env now in
      let flow :=
        closure_cpu_flow (Closure.segmentationWidth params)
          (Closure.segmentationHeight params) answer mask in
      List.filter is_cpu_flow evs `prefix_of` flow ∧
      ∀ t, r = Val t →
        t = mask ∧ List.filter is_cpu_flow evs = flow ∧
        tex_width mask = img_width answer ∧
        tex_height mask = img_height answer).
Proof.
  unfold Closure.scale_down_and_segment, closure_cpu_flow.
  wp_texture closure_getOrCreateTexture_spec. 2: flow_fin.
  wp_quiet closure_bind_group_quiet.
  destruct HP as [HP [g ->]]. destruct HP as (_&_&?&_&_).
  repeat wp_step. all: try flow_fin.
  wp_resource closure_getOrCreateResource_spec closure_readback_constructor;
    [|flow_fin].
  unfold Closure.as_buffer, Closure.imageDataCache.
  repeat wp_step. all: try flow_fin.
  wp_texture closure_getOrCreateTexture_spec; [|flow_fin].
  repeat wp_step. all: flow_fin.
  Unshelve. all: flow_defaults.
Qed.

Ltac class_flow_fin :=
  wp_beta; flow_ex;
  split;
    [prefix_goal
    |intros ?; first
       [ by intros ? [=]
       | exfalso; congruence
       | intros ? [= <-];
         lazymatch goal with
         | Hr : ∀ t : GPUTexture, Val ?a = Val t → _ ∧ _ = img_width _ ∧ _
           |- _ =>
             destruct (Hr a eq_refl) as (_ & ? & ?)
         end;
         split_and!; try done; by filter_norm ]].

Lemma class_cpu_flow_detail env this src h :
  wp (Class.segment env this src) h (λ r h' evs,
    ∃ now mask,
      let answer := segmenterOutput env now in
      let flow :=
        class_cpu_flow (Class.downscaledImageData this) answer mask in
      List.filter is_cpu_flow evs `prefix_of` flow ∧
      (Class.gpu_interop (segmenter h) = false →
       ∀ t, r = Val t →
         t = mask ∧ List.filter is_cpu_flow evs = flow ∧
         tex_width mask = img_width answer ∧
         tex_height mask = img_height answer)).
Proof.
  unfold Class.segment, Class.source_binding, Class.segment_interop,
    Class.segment_readback, class_cpu_flow.
  repeat wp_step. all: try class_flow_fin.
  wp_texture class_getOrCreateTexture_spec; [|class_flow_fin].
  repeat wp_step. all: try class_flow_fin.
  all: (wp_resource class_getOrCreateResource_spec class_readback_constructor;
    [|class_flow_fin]).
  all: unfold Class.as_buffer.
  all: repeat wp_step. all: try class_flow_fin.
  all: (wp_texture class_getOrCreateTexture_spec; [|class_flow_fin]).
  all: repeat wp_step. all: class_flow_fin.
  Unshelve. all: flow_defaults.
Qed.



(** ** The settings menu *)

Lemma menu_timers_cleared s :
  menu_tracked s → Menu.timers (Menu.clearHideTimer s) = ∅.
Proof.
  intros Hi. apply map_empty. intros id.
  unfold Menu.clearHideTimer.
  destruct (Menu.hideTimer s) as [t|] eqn:Ht; simpl.
  - destruct (decide (id = t)) as [->|Hne]; [apply lookup_delete_eq|].
    rewrite lookup_delete_ne by done.
    destruct (Menu.timers s !! id) as [d|] eqn:Hl; [|done].
    destruct (Hi id d Hl) as (Hh & _). congruence.
  - destruct (Menu.timers s !! id) as [d|] eqn:Hl; [|done].
    destruct (Hi id d Hl) as (Hh & _). congruence.
Qed.

Lemma menu_timers_expired s id d :
  menu_tracked s → Menu.timers s !! id = Some d →
  Menu.timers (Menu.expire id s) = ∅.
Proof.
  intros Hi Hl. apply map_empty. intros id'. simpl.
  destruct (decide (id' = id)) as [->|Hne]; [apply lookup_delete_eq|].
  rewrite lookup_delete_ne by done.
  destruct (Menu.timers s !! id') as [d'|] eqn:Hl'; [|done].
  destruct (Hi id d Hl) as (Hh & _). destruct (Hi id' d' Hl') as (Hh' & _).
  congruence.
Qed.

Lemma menu_tracked_no_timers s : Menu.timers s = ∅ → menu_tracked s.
Proof. intros He id d. by rewrite He, lookup_empty. Qed.

Lemma menu_inv_no_timers s : Menu.timers s = ∅ → menu_timer_inv s.
Proof. intros He. split; [by apply menu_tracked_no_timers|done]. Qed.

Lemma menu_clearHideTimer_fields s :
  Menu.form_hidden (Menu.clearHideTimer s) = Menu.form_hidden s ∧
  Menu.float_visible (Menu.clearHideTimer s) = Menu.float_visible s ∧
  Menu.videoRunning (Menu.clearHideTimer s) = Menu.videoRunning s ∧
  Menu.hideTimer (Menu.clearHideTimer s) = None ∧
  Menu.next_timer (Menu.clearHideTimer s) = Menu.next_timer s.
Proof.
  unfold Menu.clearHideTimer. by destruct (Menu.hideTimer s) eqn:E.
Qed.

(** Whatever the class lists were, [resetHideTimer] on a running video
    leaves the menu shown and one timeout of five seconds pending. *)
Lemma menu_resetHideTimer_running s :
  menu_tracked s → Menu.videoRunning s = true →
  let s' := Menu.resetHideTimer s in
  Menu.timers s' = {[Menu.next_timer s := 5000]} ∧
  Menu.hideTimer s' = Some (Menu.next_timer s) ∧
  Menu.form_hidden s' = false ∧ Menu.float_visible s' = false ∧
  Menu.videoRunning s' = true.
Proof.
  intros Hi Hr s'. subst s'. unfold Menu.resetHideTimer. rewrite Hr.
  assert (Hi' : menu_tracked (Menu.showMenu s)) by exact Hi.
  pose proof (menu_timers_cleared _ Hi') as Hc.
  destruct (menu_clearHideTimer_fields (Menu.showMenu s))
    as (Hf & Hv & Hrun & _ & Hn).
  cbn [negb Menu.setTimeout Menu.set_hideTimer Menu.timers Menu.hideTimer
       Menu.form_hidden Menu.float_visible Menu.videoRunning].
  rewrite Hc, Hf, Hv, Hrun, Hn. by split_and!.
Qed.

Lemma menu_resetHideTimer_idle s :
  Menu.videoRunning s = false → Menu.resetHideTimer s = s.
Proof. intros Hr. unfold Menu.resetHideTimer. by rewrite Hr. Qed.

Lemma menu_inv_single s id :
  Menu.timers s = {[id := 5000]} → Menu.hideTimer s = Some id →
  Menu.form_hidden s = false → menu_timer_inv s.
Proof.
  intros Ht Hh Hf. split; [|done]. intros id' d Hl. rewrite Ht in Hl.
  by apply lookup_singleton_Some in Hl as [<- <-].
Qed.

Lemma menu_inv_resetHideTimer s :
  menu_timer_inv s → menu_timer_inv (Menu.resetHideTimer s).
Proof.
  intros Hi. destruct (Menu.videoRunning s) eqn:Hr.
  - destruct (menu_resetHideTimer_running s (proj1 Hi) Hr)
      as (? & ? & ? & ? & ?).
    by eapply menu_inv_single.
  - by rewrite menu_resetHideTimer_idle.
Qed.

Lemma menu_on_stop_state s :
  menu_tracked s →
  let s' := Menu.on_stop s in
  Menu.timers s' = ∅ ∧ Menu.hideTimer s' = None ∧
  Menu.videoRunning s' = false ∧
  Menu.form_hidden s' = false ∧ Menu.float_visible s' = false.
Proof.
  intros Ht s'. subst s'. unfold Menu.on_stop.
  assert (Ht' : menu_tracked (Menu.set_videoRunning false s)) by exact Ht.
  pose proof (menu_timers_cleared _ Ht') as Hc.
  destruct (menu_clearHideTimer_fields (Menu.set_videoRunning false s))
    as (_ & _ & Hrun & Hh & _).
  simpl. by rewrite Hc, Hrun, Hh.
Qed.

Lemma menu_on_document_click_outside s :
  menu_tracked s → Menu.videoRunning s = true →
  let s' := Menu.on_document_click false false s in
  Menu.timers s' = ∅ ∧ Menu.hideTimer s' = None ∧
  Menu.videoRunning s' = true ∧
  Menu.form_hidden s' = true ∧ Menu.float_visible s' = true.
Proof.
  intros Ht Hr s'. subst s'. unfold Menu.on_document_click. rewrite Hr.
  assert (Ht' : menu_tracked (Menu.showFloatBtn (Menu.hideMenu s)))
    by exact Ht.
  pose proof (menu_timers_cleared _ Ht') as Hc.
  destruct (menu_clearHideTimer_fields (Menu.showFloatBtn (Menu.hideMenu s)))
    as (Hf & Hv & Hrun & Hh & _).
  simpl. by rewrite Hc, Hf, Hv, Hrun, Hh.
Qed.

(** The listeners keep the timer invariant. *)
Lemma menu_inv_on_start s :
  menu_timer_inv s → menu_timer_inv (Menu.on_start s).
Proof. intros [Ht Hk]. apply menu_inv_resetHideTimer. by split. Qed.

Lemma menu_inv_on_stop s :
  menu_timer_inv s → menu_timer_inv (Menu.on_stop s).
Proof.
  intros [Ht _]. apply menu_inv_no_timers.
  by destruct (menu_on_stop_state s Ht).
Qed.

Lemma menu_inv_on_mouseenter s :
  menu_timer_inv s → menu_timer_inv (Menu.on_mouseenter s).
Proof.
  intros [Ht _]. apply menu_inv_no_timers. by apply menu_timers_cleared.
Qed.

Lemma menu_inv_on_mouseleave s :
  menu_timer_inv s → menu_timer_inv (Menu.on_mouseleave s).
Proof.
  intros Hi. unfold Menu.on_mouseleave.
  destruct (Menu.videoRunning s); [by apply menu_inv_resetHideTimer|done].
Qed.

Lemma menu_inv_on_mousemove s :
  menu_timer_inv s → menu_timer_inv (Menu.on_mousemove s).
Proof.
  intros Hi. unfold Menu.on_mousemove.
  destruct (Menu.videoRunning s) eqn:Hr; [|done]. simpl.
  destruct (Menu.form_hidden s) eqn:Hf; [|by apply menu_inv_resetHideTimer].
  destruct Hi as [Ht Hk]. split; [exact Ht|]. intros Hne.
  specialize (Hk Hne). congruence.
Qed.

Lemma menu_inv_on_float_click s :
  menu_timer_inv s → menu_timer_inv (Menu.on_float_click s).
Proof. intros [Ht Hk]. apply menu_inv_resetHideTimer. by split. Qed.

Lemma menu_inv_on_document_click a b s :
  menu_timer_inv s → menu_timer_inv (Menu.on_document_click a b s).
Proof.
  intros Hi. unfold Menu.on_document_click.
  destruct (Menu.videoRunning s) eqn:Hr; [|done]. simpl.
  destruct (a || b); [done|].
  apply menu_inv_no_timers. by apply menu_timers_cleared, (proj1 Hi).
Qed.

Lemma menu_inv_on_load page paused ended s :
  menu_timer_inv s → menu_timer_inv (Menu.on_load page paused ended s).
Proof.
  intros [Ht Hk]. unfold Menu.on_load.
  destruct (Menu.has_processedVideo page && negb paused && negb ended).
  - apply menu_inv_resetHideTimer. by split.
  - by split.
Qed.

Lemma menu_inv_click_listener page el s :
  menu_timer_inv s → menu_timer_inv (Menu.click_listener page el s).1.
Proof.
  intros Hi. destruct el; simpl; try done.
  - destruct (Menu.has_startButton page); [by apply menu_inv_on_start|done].
  - destruct (Menu.has_stopButton page); [by apply menu_inv_on_stop|done].
  - by apply menu_inv_on_float_click.
Qed.

Lemma menu_inv_bubble page path rest s :
  menu_timer_inv s → menu_timer_inv (Menu.bubble page path rest s).
Proof.
  revert s. induction rest as [|el rest IH]; intros s Hi; simpl.
  - by apply menu_inv_on_document_click.
  - pose proof (menu_inv_click_listener page el s Hi) as Hl.
    destruct (Menu.click_listener page el s) as [s' stop]. simpl in Hl.
    destruct stop; [done|by apply IH].
Qed.

Lemma menu_inv_step page i s :
  menu_timer_inv s → menu_timer_inv (Menu.step page i s).
Proof.
  intros Hi. destruct i; simpl.
  - by apply menu_inv_bubble.
  - destruct (Menu.has_processedVideo page); [by apply menu_inv_on_start|done].
  - destruct (Menu.has_processedVideo page); [by apply menu_inv_on_stop|done].
  - destruct (Menu.has_processedVideo page); [by apply menu_inv_on_stop|done].
  - by apply menu_inv_on_mouseenter.
  - by apply menu_inv_on_mouseleave.
  - by apply menu_inv_on_mousemove.
  - by apply menu_inv_on_load.
  - destruct (Menu.timers s !! id) as [d|] eqn:Hl; [|done].
    apply menu_inv_no_timers.
    exact (menu_timers_expired s id d (proj1 Hi) Hl).
Qed.

Lemma menu_inv_run page inputs s :
  menu_timer_inv s → menu_timer_inv (Menu.run page inputs s).
Proof.
  revert s. induction inputs as [|i inputs IH]; intros s Hi; [done|].
  simpl. apply IH. by apply menu_inv_step.
Qed.

(** Exactly one of menu and float button. *)
Lemma menu_exclusive_resetHideTimer s :
  menu_exclusive s → menu_exclusive (Menu.resetHideTimer s).
Proof.
  unfold menu_exclusive, Menu.resetHideTimer. intros He.
  destruct (Menu.videoRunning s); [|done]. simpl.
  destruct (menu_clearHideTimer_fields (Menu.showMenu s)) as (Hf & Hv & _).
  by rewrite Hf, Hv.
Qed.

Lemma menu_exclusive_clearHideTimer s :
  menu_exclusive s → menu_exclusive (Menu.clearHideTimer s).
Proof.
  unfold menu_exclusive. intros He.
  destruct (menu_clearHideTimer_fields s) as (Hf & Hv & _).
  by rewrite Hf, Hv.
Qed.

Lemma menu_exclusive_on_stop s : menu_exclusive (Menu.on_stop s).
Proof.
  unfold menu_exclusive, Menu.on_stop. simpl.
  by destruct (menu_clearHideTimer_fields (Menu.set_videoRunning false s))
    as (_ & _ & _).
Qed.

Lemma menu_exclusive_click_listener page el s :
  menu_exclusive s → menu_exclusive (Menu.click_listener page el s).1.
Proof.
  intros He. destruct el; simpl; try done.
  - destruct (Menu.has_startButton page); [|done].
    by apply menu_exclusive_resetHideTimer.
  - destruct (Menu.has_stopButton page); [|done].
    apply menu_exclusive_on_stop.
  - by apply menu_exclusive_resetHideTimer.
Qed.

Lemma menu_exclusive_on_document_click a b s :
  menu_exclusive s → menu_exclusive (Menu.on_document_click a b s).
Proof.
  intros He. unfold Menu.on_document_click.
  destruct (Menu.videoRunning s); [|done]. simpl.
  destruct (a || b); [done|].
  by apply menu_exclusive_clearHideTimer.
Qed.

Lemma menu_exclusive_bubble page path rest s :
  menu_exclusive s → menu_exclusive (Menu.bubble page path rest s).
Proof.
  revert s. induction rest as [|el rest IH]; intros s He; simpl.
  - by apply menu_exclusive_on_document_click.
  - pose proof (menu_exclusive_click_listener page el s He) as Hl.
    destruct (Menu.click_listener page el s) as [s' stop]. simpl in Hl.
    destruct stop; [done|by apply IH].
Qed.

Lemma menu_exclusive_step page i s :
  menu_exclusive s → menu_exclusive (Menu.step page i s).
Proof.
  intros He. destruct i; simpl.
  - by apply menu_exclusive_bubble.
  - destruct (Menu.has_processedVideo page); [|done].
    by apply menu_exclusive_resetHideTimer.
  - destruct (Menu.has_processedVideo page); [|done].
    apply menu_exclusive_on_stop.
  - destruct (Menu.has_processedVideo page); [|done].
    apply menu_exclusive_on_stop.
  - by apply menu_exclusive_clearHideTimer.
  - unfold Menu.on_mouseleave. destruct (Menu.videoRunning s); [|done].
    by apply menu_exclusive_resetHideTimer.
  - unfold Menu.on_mousemove. destruct (Menu.videoRunning s); [|done]. simpl.
    destruct (Menu.form_hidden s) eqn:Hf;
      [by unfold menu_exclusive; simpl|].
    by apply menu_exclusive_resetHideTimer.
  - unfold Menu.on_load.
    destruct (Menu.has_processedVideo page && negb paused && negb ended);
      [|done].
    by apply menu_exclusive_resetHideTimer.
  - by destruct (Menu.timers s !! id).
Qed.

(** While the video is not taken as running. *)
Lemma menu_idle_resetHideTimer s :
  menu_tracked s → menu_idle_inv s → menu_idle_inv (Menu.resetHideTimer s).
Proof.
  intros Ht Hi. destruct (Menu.videoRunning s) eqn:Hr.
  - destruct (menu_resetHideTimer_running s Ht Hr) as (_ & _ & _ & _ & Hr').
    split; [done|]. intros Hn. congruence.
  - by rewrite menu_resetHideTimer_idle.
Qed.

Lemma menu_idle_running s :
  Menu.videoRunning s = true → menu_idle_inv s.
Proof. intros Hr. split; [done|]. congruence. Qed.

Lemma menu_idle_on_start s :
  menu_tracked s → menu_idle_inv (Menu.on_start s).
Proof.
  intros Ht.
  destruct (menu_resetHideTimer_running (Menu.set_videoRunning true s) Ht
              eq_refl) as (_ & _ & _ & _ & Hr).
  by apply menu_idle_running.
Qed.

Lemma menu_idle_on_stop s : menu_tracked s → menu_idle_inv (Menu.on_stop s).
Proof.
  intros Ht. destruct (menu_on_stop_state s Ht) as (Hc & _ & _ & Hf & Hv).
  split; [by rewrite Hc|done].
Qed.

Lemma menu_idle_click_listener page el s :
  menu_tracked s → menu_idle_inv s →
  menu_idle_inv (Menu.click_listener page el s).1.
Proof.
  intros Ht Hi. destruct el; simpl; try done.
  - destruct (Menu.has_startButton page); [by apply menu_idle_on_start|done].
  - destruct (Menu.has_stopButton page); [by apply menu_idle_on_stop|done].
  - apply menu_idle_resetHideTimer; [exact Ht|].
    destruct Hi as [Hp Hn]. split; [exact Hp|done].
Qed.

Lemma menu_idle_on_document_click a b s :
  menu_tracked s → menu_idle_inv s →
  menu_idle_inv (Menu.on_document_click a b s).
Proof.
  intros Ht Hi. unfold Menu.on_document_click.
  destruct (Menu.videoRunning s) eqn:Hr; [|done]. simpl.
  destruct (a || b); [done|].
  apply menu_idle_running.
  destruct (menu_clearHideTimer_fields (Menu.showFloatBtn (Menu.hideMenu s)))
    as (_ & _ & Hr' & _).
  by rewrite Hr'.
Qed.

Lemma menu_idle_bubble page path rest s :
  menu_timer_inv s → menu_idle_inv s →
  menu_idle_inv (Menu.bubble page path rest s).
Proof.
  revert s. induction rest as [|el rest IH]; intros s Ht Hi; simpl.
  - apply menu_idle_on_document_click; [apply Ht|exact Hi].
  - pose proof (menu_idle_click_listener page el s (proj1 Ht) Hi) as Hl.
    pose proof (menu_inv_click_listener page el s Ht) as Hl'.
    destruct (Menu.click_listener page el s) as [s' stop]. simpl in Hl, Hl'.
    destruct stop; [done|by apply IH].
Qed.

Lemma menu_idle_step page i s :
  is_load i = false → menu_timer_inv s → menu_idle_inv s →
  menu_idle_inv (Menu.step page i s).
Proof.
  intros Hl Ht Hi. destruct i; simpl; try done.
  - by apply menu_idle_bubble.
  - destruct (Menu.has_processedVideo page); [|done].
    apply menu_idle_on_start, Ht.
  - destruct (Menu.has_processedVideo page); [|done].
    apply menu_idle_on_stop, Ht.
  - destruct (Menu.has_processedVideo page); [|done].
    apply menu_idle_on_stop, Ht.
  - destruct Hi as [Hp Hn]. split.
    + intros Hne. exfalso. apply Hne. apply menu_timers_cleared, Ht.
    + destruct (menu_clearHideTimer_fields s) as (Hf & Hv & Hr & _).
      unfold Menu.on_mouseenter. by rewrite Hf, Hv, Hr.
  - unfold Menu.on_mouseleave. destruct (Menu.videoRunning s) eqn:Hr; [|done].
    apply menu_idle_resetHideTimer; [apply Ht|done].
  - unfold Menu.on_mousemove. destruct (Menu.videoRunning s) eqn:Hr; [|done].
    simpl. destruct (Menu.form_hidden s) eqn:Hf.
    + by apply menu_idle_running.
    + apply menu_idle_resetHideTimer; [apply Ht|done].
  - destruct (Menu.timers s !! id) as [d|] eqn:Hid; [|done].
    destruct Hi as [Hp Hn].
    assert (Hr : Menu.videoRunning s = true).
    { apply Hp. intros He. by rewrite He, lookup_empty in Hid. }
    by apply menu_idle_running.
Qed.

Lemma menu_idle_run page inputs s :
  Forall (λ i, is_load i = false) inputs →
  menu_timer_inv s → menu_idle_inv s →
  menu_idle_inv (Menu.run page inputs s).
Proof.
  intros Hl. revert s. induction Hl as [|i inputs Hi _ IH]; intros s Ht Hd;
    [done|].
  simpl. apply IH; [by apply menu_inv_step|by apply menu_idle_step].
Qed.

(** Clicks. *)
Lemma menu_resetHideTimer_not_hiding s :
  Menu.form_hidden (Menu.resetHideTimer s) = true → Menu.form_hidden s = true.
Proof.
  unfold Menu.resetHideTimer. destruct (Menu.videoRunning s); [|done].
  simpl. destruct (menu_clearHideTimer_fields (Menu.showMenu s)) as (Hf & _).
  by rewrite Hf.
Qed.

Lemma menu_click_listener_not_hiding page el s :
  Menu.form_hidden (Menu.click_listener page el s).1 = true →
  Menu.form_hidden s = true.
Proof.
  destruct el; simpl; try done.
  - destruct (Menu.has_startButton page); [|done].
    intros H. by apply menu_resetHideTimer_not_hiding in H.
  - destruct (Menu.has_stopButton page); [|done]. done.
  - intros H. by apply menu_resetHideTimer_not_hiding in H.
Qed.

Lemma menu_bubble_inside page path rest s :
  existsb Menu.is_form path || existsb Menu.is_float path = true →
  Menu.form_hidden (Menu.bubble page path rest s) = true →
  Menu.form_hidden s = true.
Proof.
  intros Hin. revert s. induction rest as [|el rest IH]; intros s; simpl.
  - unfold Menu.on_document_click. rewrite Hin.
    by destruct (Menu.videoRunning s).
  - pose proof (menu_click_listener_not_hiding page el s) as Hl.
    destruct (Menu.click_listener page el s) as [s' stop]. simpl in Hl.
    destruct stop; [done|]. intros H. by apply Hl, IH.
Qed.

Lemma menu_bubble_outside page path rest s :
  existsb Menu.is_form path = false → existsb Menu.is_float path = false →
  existsb Menu.is_form rest = false → existsb Menu.is_float rest = false →
  existsb is_stop rest = false →
  menu_tracked s → Menu.videoRunning s = true →
  let s' := Menu.bubble page path rest s in
  Menu.form_hidden s' = true ∧ Menu.float_visible s' = true ∧
  Menu.timers s' = ∅ ∧ Menu.videoRunning s' = true.
Proof.
  intros Hf Hv. revert s.
  induction rest as [|el rest IH]; intros s Hrf Hrv Hrs Ht Hr; simpl.
  - rewrite Hf, Hv.
    by destruct (menu_on_document_click_outside s Ht Hr)
      as (? & _ & ? & ? & ?).
  - simpl in Hrf, Hrv, Hrs.
    apply orb_false_iff in Hrf as [Hf1 Hf2].
    apply orb_false_iff in Hrv as [Hv1 Hv2].
    apply orb_false_iff in Hrs as [Hs1 Hs2].
    destruct el; try done; simpl; try by apply IH.
    destruct (Menu.has_startButton page); [|by apply IH].
    destruct (menu_resetHideTimer_running (Menu.set_videoRunning true s) Ht
                eq_refl) as (Htm & Hh & _ & _ & Hr').
    apply IH; try done.
    intros id d Hl. unfold Menu.on_start in Hl. rewrite Htm in Hl.
    apply lookup_singleton_Some in Hl as [<- <-]. done.
Qed.

Lemma menu_exclusive_run page inputs s :
  menu_exclusive s → menu_exclusive (Menu.run page inputs s).
Proof.
  revert s. induction inputs as [|i inputs IH]; intros s He; [done|].
  simpl. apply IH. by apply menu_exclusive_step.
Qed.

(** X15.  Whatever happens to the page, at most one timeout of the
    script is pending: it is the one [hideTimer] holds, it was set for
    5000 ms, and while it is pending the menu is shown. *)
Theorem menu_has_at_most_one_timeout page inputs hidden visible :
  let s := Menu.run page inputs (Menu.init hidden visible) in
  (∀ id delay, Menu.timers s !! id = Some delay →
     Menu.hideTimer s = Some id ∧ delay = 5000 ∧
     Menu.form_hidden s = false) ∧
  (∀ id1 id2, is_Some (Menu.timers s !! id1) →
     is_Some (Menu.timers s !! id2) → id1 = id2).
Proof.
  intros s.
  assert (Hi : menu_timer_inv s).
  { apply menu_inv_run. by apply menu_inv_no_timers. }
  destruct Hi as [Ht Hk]. split.
  - intros id d Hl. destruct (Ht id d Hl) as [? ?]. split_and!; [done|done|].
    apply Hk. intros He. by rewrite He, lookup_empty in Hl.
  - intros id1 id2 [d1 H1] [d2 H2].
    destruct (Ht id1 d1 H1) as [E1 _], (Ht id2 d2 H2) as [E2 _]. congruence.
Qed.

(** X16.  When the markup shows exactly one of the menu and the float
    button, so does every later state: the float button has the class
    [visible] exactly when the form has the class [hidden]. *)
Theorem menu_shows_one_of_two page inputs hidden :
  let s := Menu.run page inputs (Menu.init hidden hidden) in
  Menu.float_visible s = Menu.form_hidden s.
Proof. intros s. by apply menu_exclusive_run. Qed.

(** The [load] listener leaves the script idle when no timeout is pending
    or when it finds the video playing. *)
Lemma menu_idle_on_load page paused ended s :
  menu_tracked s →
  Menu.timers s = ∅ ∨
    Menu.has_processedVideo page && negb paused && negb ended = true →
  menu_idle_inv (Menu.step page (Menu.Load paused ended) s).
Proof.
  intros Ht Hc. simpl. unfold Menu.on_load.
  destruct (Menu.has_processedVideo page && negb paused && negb ended)
    eqn:Hv.
  - destruct (menu_resetHideTimer_running (Menu.set_videoRunning true s) Ht
                eq_refl) as (_ & _ & _ & _ & Hr).
    by apply menu_idle_running.
  - destruct Hc as [He|[=]]. split; [|done]. simpl. by intros Hne.
Qed.

(** X17.  While the video is taken as not running the menu stays shown:
    once the [load] listener has run, whatever happened before it, with no
    timeout pending or with the video playing, and as long as no further
    [load] event comes, a state with [videoRunning] false has the menu
    shown, the float button hidden and no timeout pending. *)
Theorem menu_idle_is_shown page hidden visible before paused ended inputs :
  let s0 := Menu.run page before (Menu.init hidden visible) in
  Menu.timers s0 = ∅ ∨
    Menu.has_processedVideo page && negb paused && negb ended = true →
  Forall (λ i, is_load i = false) inputs →
  let s := Menu.run page inputs
             (Menu.step page (Menu.Load paused ended) s0) in
  Menu.videoRunning s = false →
  Menu.form_hidden s = false ∧ Menu.float_visible s = false ∧
  Menu.timers s = ∅.
Proof.
  intros s0 Hc Hl s Hr.
  assert (Ht0 : menu_timer_inv s0).
  { apply menu_inv_run. by apply menu_inv_no_timers. }
  assert (Ht : menu_timer_inv (Menu.step page (Menu.Load paused ended) s0))
    by (by apply menu_inv_step).
  pose proof (menu_idle_run page inputs _ Hl Ht
                (menu_idle_on_load page paused ended s0 (proj1 Ht0) Hc))
    as [Hp Hn].
  fold s in Hp, Hn. destruct (Hn Hr) as [Hf Hv]. split_and!; [done|done|].
  destruct (decide (Menu.timers s = ∅)) as [|Hne]; [done|].
  specialize (Hp Hne). congruence.
Qed.

Lemma menu_idle_is_shown_witness :
  let page := Menu.mkPage true true true in
  let before := [Menu.Click [Menu.StartButton; Menu.SettingsForm];
                 Menu.Pause] in
  let inputs := [Menu.Playing; Menu.MouseMove; Menu.TimerFires 3;
                 Menu.Click [Menu.FloatBtn]; Menu.Pause] in
  let s0 := Menu.run page before (Menu.init true false) in
  let s := Menu.run page inputs
             (Menu.step page (Menu.Load true false) s0) in
  Menu.timers s0 = ∅ ∧
  Forall (λ i, is_load i = false) inputs ∧
  Menu.videoRunning s = false ∧ Menu.form_hidden s = false ∧
  Menu.timers s = ∅.
Proof.
  intros page before inputs s0 s.
  assert (He : Menu.timers s0 = ∅) by (vm_compute; reflexivity).
  assert (Hl : Forall (λ i, is_load i = false) inputs)
    by (repeat constructor).
  assert (Hr : Menu.videoRunning s = false) by (vm_compute; reflexivity).
  destruct (menu_idle_is_shown page true false before true false inputs
              (or_introl He) Hl Hr) as (Hf & _ & Ht).
  split_and!; [exact He|exact Hl|exact Hr|exact Hf|exact Ht].
Defined.

(** X18.  The [load] listener does not clear a pending timeout when it
    finds the video paused, ended or missing.  The timeout then still
    fires: the menu is hidden and the float button shown although the
    video is taken as not running, and neither moving the mouse nor a
    click on the document brings the menu back. *)
Theorem menu_load_keeps_timeout page paused ended s id delay :
  Menu.timers s !! id = Some delay →
  Menu.has_processedVideo page && negb paused && negb ended = false →
  let s1 := Menu.step page (Menu.Load paused ended) s in
  let s2 := Menu.step page (Menu.TimerFires id) s1 in
  Menu.videoRunning s1 = false ∧ Menu.timers s1 !! id = Some delay ∧
  Menu.videoRunning s2 = false ∧ Menu.form_hidden s2 = true ∧
  Menu.float_visible s2 = true ∧
  Menu.step page Menu.MouseMove s2 = s2 ∧
  (∀ path, Menu.on_document_click (existsb Menu.is_form path)
             (existsb Menu.is_float path) s2 = s2).
Proof.
  intros Hl Hv s1 s2. subst s2 s1. simpl. unfold Menu.on_load.
  rewrite Hv. simpl. rewrite Hl. by split_and!.
Qed.

Lemma menu_load_keeps_timeout_witness :
  let page := Menu.mkPage true true true in
  let s := Menu.run page [Menu.Click [Menu.StartButton; Menu.SettingsForm]]
             (Menu.init false false) in
  Menu.timers s !! 1%positive = Some 5000 ∧
  Menu.form_hidden
    (Menu.step page (Menu.TimerFires 1)
       (Menu.step page (Menu.Load true false) s)) = true.
Proof.
  intros page s.
  assert (Hl : Menu.timers s !! 1%positive = Some 5000)
    by (vm_compute; reflexivity).
  split; [exact Hl|].
  by destruct (menu_load_keeps_timeout page true false s 1 5000 Hl eq_refl)
    as (_ & _ & _ & ? & _).
Defined.

(** X19.  A click inside the settings form or on the float button never
    hides the menu: its listeners stop the event before the document
    sees it, and no listener on the way hides the form. *)
Theorem menu_click_inside_keeps_menu page path s :
  existsb Menu.is_form path || existsb Menu.is_float path = true →
  Menu.form_hidden s = false →
  Menu.form_hidden (Menu.step page (Menu.Click path) s) = false.
Proof.
  intros Hin Hs. simpl. unfold Menu.click.
  destruct (Menu.form_hidden (Menu.bubble page path path s)) eqn:Hb; [|done].
  apply (menu_bubble_inside page path path s Hin) in Hb. congruence.
Qed.

Lemma menu_click_inside_keeps_menu_witness :
  let page := Menu.mkPage true true true in
  let s := Menu.run page [Menu.Playing] (Menu.init false false) in
  Menu.form_hidden s = false ∧
  Menu.form_hidden
    (Menu.step page (Menu.Click [Menu.OtherElement; Menu.SettingsForm]) s)
    = false.
Proof.
  intros page s.
  assert (Hs : Menu.form_hidden s = false) by reflexivity.
  split; [exact Hs|].
  exact (menu_click_inside_keeps_menu page
           [Menu.OtherElement; Menu.SettingsForm] s eq_refl Hs).
Defined.

(** X20.  While the video runs, a click that passes neither the form,
    the float button nor the stop button hides the menu at once, shows
    the float button and leaves no timeout pending; this includes a click
    on a start button that is outside the form. *)
Theorem menu_click_outside_hides page inputs hidden visible path :
  let s := Menu.run page inputs (Menu.init hidden visible) in
  existsb Menu.is_form path = false → existsb Menu.is_float path = false →
  existsb is_stop path = false →
  Menu.videoRunning s = true →
  let s' := Menu.step page (Menu.Click path) s in
  Menu.form_hidden s' = true ∧ Menu.float_visible s' = true ∧
  Menu.timers s' = ∅ ∧ Menu.videoRunning s' = true.
Proof.
  intros s Hf Hv Hs Hr s'.
  assert (Hi : menu_timer_inv s).
  { apply menu_inv_run. by apply menu_inv_no_timers. }
  exact (menu_bubble_outside page path path s Hf Hv Hf Hv Hs (proj1 Hi) Hr).
Qed.

Lemma menu_click_outside_hides_witness :
  let page := Menu.mkPage true true true in
  let s := Menu.run page [Menu.Playing] (Menu.init false false) in
  Menu.videoRunning s = true ∧
  Menu.form_hidden
    (Menu.step page (Menu.Click [Menu.StartButton; Menu.OtherElement]) s)
    = true.
Proof.
  intros page s.
  assert (Hr : Menu.videoRunning s = true) by reflexivity.
  split; [exact Hr|].
  by destruct (menu_click_outside_hides page [Menu.Playing] false false
                 [Menu.StartButton; Menu.OtherElement]
                 eq_refl eq_refl eq_refl Hr) as (? & _).
Defined.
